(** * KenyaClaw agent swarm: message bus, base agent, orchestrator, strategies

    A shallow embedding of
      - src/src/swarm/agents/operations-agents.js (second part: message-bus.js):
        Message, MessageBus;
      - src/src/payments/transaction-processor.js (second part: base-agent.js):
        BaseAgent.query, BaseAgent.updateMetrics, BaseAgent.canDecide;
      - src/src/swarm/orchestrator.js: SwarmOrchestrator.selectArchitecture,
        calculateAgentScore, selectAgents, selectDiverseAgents,
        orderByDependencies and routeTask, the five architectures, and (second
        part: index.js) KenyaClawSwarm.initialize, submitTask,
        requestSpendingApproval, reportIncident and customerInquiry.

    JavaScript numbers are modelled as exact rationals extended with the
    infinities and NaN (rounding of doubles is not modelled); strings are
    byte strings; asynchronous calls are modelled by their settlement
    (fulfilled or rejected) together with the time the settlement takes.
    Bounds and comparisons of scores are stated so that they do not depend
    on the rounding (bounds that are attained are not strict, the order of
    the agents is stated of the sort, whatever the scores), and the inputs
    at which rounding matters are checked on doubles in the examples named
    [..._on_doubles]. *)

From Stdlib Require Import ZArith QArith Qminmax Lia Lqa String Ascii List Bool.
From Stdlib Require Import DecimalString.
From Stdlib Require Import Sorted.
From Corelib Require Import PrimFloat.
From stdpp Require Import gmap strings.
Import ListNotations.

Local Open Scope string_scope.
Local Open Scope list_scope.
Set Warnings "-register-all,-inexact-float".

(** ** Results of calls that may throw, errors *)

(** The errors the modelled code can raise. [QueryTimedOut target timeout] is
    [new Error(`Query to ${targetAgent} timed out after ${timeout}ms`)]. *)
Inductive JsError :=
| Error (message : string)
| TypeError (message : string)
| QueryTimedOut (target : string) (timeout : Z).

(** A call either returns a value or throws; for an async function: its
    promise is fulfilled or rejected. *)
Inductive result (A : Type) :=
| Ok (value : A)
| Throw (reason : JsError).
Arguments Ok {A} value.
Arguments Throw {A} reason.

Definition is_ok {A} (r : result A) : bool :=
  match r with Ok _ => true | Throw _ => false end.

(** ** JavaScript numbers *)

Module JsNum.

Inductive t :=
| Fin (q : Q)            (* a finite number *)
| Inf (negative : bool)  (* Infinity, -Infinity *)
| NaN.

Definition of_nat (n : nat) : t := Fin (inject_Z (Z.of_nat n)).
Definition of_Z (z : Z) : t := Fin (inject_Z z).

Definition Qsign_neg (q : Q) : bool := Qle_bool q 0 && negb (Qeq_bool q 0).

Definition add (a b : t) : t :=
  match a, b with
  | NaN, _ | _, NaN => NaN
  | Fin x, Fin y => Fin (x + y)
  | Inf s, Fin _ | Fin _, Inf s => Inf s
  | Inf s1, Inf s2 => if Bool.eqb s1 s2 then Inf s1 else NaN
  end.

Definition sub (a b : t) : t :=
  match a, b with
  | NaN, _ | _, NaN => NaN
  | Fin x, Fin y => Fin (x - y)
  | Inf s, Fin _ => Inf s
  | Fin _, Inf s => Inf (negb s)
  | Inf s1, Inf s2 => if Bool.eqb s1 s2 then NaN else Inf s1
  end.

Definition mul (a b : t) : t :=
  match a, b with
  | NaN, _ | _, NaN => NaN
  | Fin x, Fin y => Fin (x * y)
  | Inf s, Fin y | Fin y, Inf s =>
      if Qeq_bool y 0 then NaN else Inf (xorb s (Qsign_neg y))
  | Inf s1, Inf s2 => Inf (xorb s1 s2)
  end.

(** [a / b]; the sign of a zero is not modelled, a nonzero number divided by
    zero is taken to be the infinity of the dividend's sign. *)
Definition div (a b : t) : t :=
  match a, b with
  | NaN, _ | _, NaN => NaN
  | Fin x, Fin y =>
      if Qeq_bool y 0
      then (if Qeq_bool x 0 then NaN else Inf (Qsign_neg x))
      else Fin (x / y)
  | Inf s, Fin y => Inf (xorb s (Qsign_neg y))
  | Fin _, Inf _ => Fin 0
  | Inf _, Inf _ => NaN
  end.

(** [a <= b] as JavaScript decides it: false as soon as one side is NaN. *)
Definition leb (a b : t) : bool :=
  match a, b with
  | NaN, _ | _, NaN => false
  | Fin x, Fin y => Qle_bool x y
  | Inf true, _ => true
  | _, Inf false => true
  | Inf false, _ => false
  | Fin _, Inf true => false
  end.

Definition ltb (a b : t) : bool :=
  match a, b with
  | NaN, _ | _, NaN => false
  | _, _ => negb (leb b a)
  end.

Definition geb (a b : t) : bool := leb b a.   (* a >= b *)
Definition gtb (a b : t) : bool := ltb b a.   (* a > b *)

(** [Math.max(a, b)] *)
Definition max (a b : t) : t :=
  match a, b with
  | NaN, _ | _, NaN => NaN
  | _, _ => if leb a b then b else a
  end.

(** Truthiness of a number: 0 and NaN are falsy. *)
Definition truthy (a : t) : bool :=
  match a with
  | Fin q => negb (Qeq_bool q 0)
  | Inf _ => true
  | NaN => false
  end.

(** Two numbers denote the same value ([Fin] up to equality of fractions). *)
Definition same (a b : t) : Prop :=
  match a, b with
  | Fin x, Fin y => x == y
  | Inf s1, Inf s2 => s1 = s2
  | NaN, NaN => True
  | _, _ => False
  end.

(** [a <= b] as a proposition; it relates no NaN. *)
Definition le (a b : t) : Prop := leb a b = true.

End JsNum.

(** [x || d] for an optional string: undefined and the empty string are falsy. *)
Definition str_or (x : option string) (d : string) : string :=
  match x with
  | Some s => if String.eqb s "" then d else s
  | None => d
  end.

(** [x || d] for an optional number: undefined, 0 and NaN are falsy. *)
Definition num_or (x : option JsNum.t) (d : JsNum.t) : JsNum.t :=
  match x with
  | Some n => if JsNum.truthy n then n else d
  | None => d
  end.

(** ** JavaScript values and JSON.stringify *)

(** The values a payload is made of. [JObj props] lists the own enumerable
    properties in the order JavaScript enumerates them; keys are distinct. *)
Inductive JsVal :=
| JUndefined
| JNull
| JBool (b : bool)
| JNum (n : JsNum.t)
| JStr (s : string)
| JArr (items : list JsVal)
| JObj (props : list (string * JsVal)).

(** What the code takes from the platform (Node.js): functions of the
    standard library whose text is not part of the repository, the
    environment, and the sources of fresh identifiers. *)
Class Runtime := {
  (** [crypto.createHmac('sha256', key).update(data).digest('hex')] *)
  createHmac_sha256_hex : string -> string -> string;
  (** [process.env.MESSAGE_SECRET] *)
  MESSAGE_SECRET : option string;
  (** [Number.prototype.toString] on a finite number *)
  number_to_string : Q -> string;
  (** [new Date(ms).toISOString()] *)
  toISOString : Z -> string;
  (** the n-th value [crypto.randomUUID()] returns in this process *)
  randomUUID : nat -> string;
}.

Module JSON.
Local Open Scope string_scope.

Definition dquote : ascii := "034"%char.
Definition backslash : ascii := "092"%char.

Definition hex_digit (n : nat) : ascii :=
  nth n ["0"; "1"; "2"; "3"; "4"; "5"; "6"; "7";
         "8"; "9"; "a"; "b"; "c"; "d"; "e"; "f"]%char "0"%char.

(** One code unit of a string inside the quotes (QuoteJSONString). *)
Definition escape_char (c : ascii) : string :=
  let n := nat_of_ascii c in
  if Ascii.eqb c dquote then String backslash (String dquote "")
  else if Ascii.eqb c backslash then String backslash (String backslash "")
  else if Nat.eqb n 8 then String backslash "b"
  else if Nat.eqb n 9 then String backslash "t"
  else if Nat.eqb n 10 then String backslash "n"
  else if Nat.eqb n 12 then String backslash "f"
  else if Nat.eqb n 13 then String backslash "r"
  else if Nat.ltb n 32 then
    String backslash
      (String "u" (String "0" (String "0"
         (String (hex_digit (n / 16)) (String (hex_digit (n mod 16)) "")))))
  else String c "".

Fixpoint escape (s : string) : string :=
  match s with
  | EmptyString => ""
  | String c rest => escape_char c ++ escape rest
  end.

Definition quote (s : string) : string :=
  String dquote (escape s ++ String dquote "").

(** [parts.join(',')] *)
Fixpoint join (parts : list string) : string :=
  match parts with
  | [] => ""
  | [p] => p
  | p :: rest => p ++ "," ++ join rest
  end.

Section Serialize.
Context {R : Runtime}.

(** SerializeJSONProperty without replacer, indentation or toJSON methods:
    [None] is the undefined result, which drops a property from an object
    and is written null inside an array. *)
Fixpoint serialize (v : JsVal) : option string :=
  match v with
  | JUndefined => None
  | JNull => Some "null"
  | JBool b => Some (if b then "true" else "false")
  | JNum (JsNum.Fin q) => Some (number_to_string q)
  | JNum _ => Some "null"
  | JStr s => Some (quote s)
  | JArr items =>
      Some ("[" ++ join (List.map (fun x =>
                     match serialize x with Some s => s | None => "null" end)
                   items) ++ "]")
  | JObj props =>
      Some ("{" ++ join (List.flat_map (fun p =>
                     match serialize (snd p) with
                     | Some s => [quote (fst p) ++ ":" ++ s]
                     | None => []
                     end) props) ++ "}")
  end.

(** [JSON.stringify(v)] where the caller uses the result as a string;
    for an object or an array it always is one. *)
Definition stringify (v : JsVal) : string :=
  match serialize v with Some s => s | None => "undefined" end.

End Serialize.
End JSON.
Local Open Scope list_scope.

(** ** Message (the envelope) *)

Module Message.

(** The [recipients] field: an array of ids or a single string. *)
Inductive Recipients :=
| RList (ids : list string)
| ROne (id : string).

Record t := {
  id : string;
  timestamp : Z;          (* the instant the ISO string denotes, in ms *)
  sender : string;
  recipients : Recipients;
  type : string;
  payload : JsVal;
  priority : Z;
  ttl : Z;                (* seconds, a whole number: the envelopes the
                             repository builds have the default, 300 *)
  signature : string;
}.

(** The argument object of the constructor. *)
Record Args := {
  a_sender : string;
  a_recipients : Recipients;
  a_type : string;
  a_payload : JsVal;
  a_priority : option Z;
  a_ttl : option Z;
}.

Section WithRuntime.
Context {R : Runtime}.

(** [process.env.MESSAGE_SECRET || 'default-secret'] *)
Definition secret : string := str_or MESSAGE_SECRET "default-secret".

(** The object literal that [sign] serializes. *)
Definition signed_fields (m : t) : JsVal :=
  JObj [("id", JStr (id m));
        ("timestamp", JStr (toISOString (timestamp m)));
        ("sender", JStr (sender m));
        ("type", JStr (type m));
        ("payload", payload m)].

Definition sign (m : t) : string :=
  let data := JSON.stringify (signed_fields m) in
  createHmac_sha256_hex secret data.

Definition verify (m : t) : bool :=
  String.eqb (signature m) (sign m).

(** [new Message({...})] when [crypto.randomUUID()] returns [uuid] and the
    clock reads [now]. *)
Definition new (args : Args) (uuid : string) (now : Z) : t :=
  let unsigned :=
    {| id := uuid; timestamp := now;
       sender := a_sender args; recipients := a_recipients args;
       type := a_type args; payload := a_payload args;
       priority := match a_priority args with Some p => p | None => 3 end;
       ttl := match a_ttl args with Some s => s | None => 300 end;
       signature := "" |} in
  {| id := id unsigned; timestamp := timestamp unsigned;
     sender := sender unsigned; recipients := recipients unsigned;
     type := type unsigned; payload := payload unsigned;
     priority := priority unsigned; ttl := ttl unsigned;
     signature := sign unsigned |}.

End WithRuntime.

(** [isExpired()] when the clock reads [now]:
    [(Date.now() - timestamp) / 1000 > ttl]. *)
Definition isExpired (now : Z) (m : t) : bool :=
  Qle_bool (inject_Z (ttl m)) (inject_Z (now - timestamp m) / 1000)
  && negb (Qeq_bool (inject_Z (ttl m)) (inject_Z (now - timestamp m) / 1000)).

(** [toJSON()]: a plain copy of all nine fields. *)
Definition toJSON (m : t) : t :=
  {| id := id m; timestamp := timestamp m; sender := sender m;
     recipients := recipients m; type := type m; payload := payload m;
     priority := priority m; ttl := ttl m; signature := signature m |}.

End Message.

(** ** MessageBus *)

Module MessageBus.

(** A JavaScript [Set] of strings, in insertion order. *)
Definition set_has (x : string) (s : list string) : bool :=
  existsb (String.eqb x) s.
Definition set_add (x : string) (s : list string) : list string :=
  if set_has x s then s else s ++ [x].
Definition set_delete (x : string) (s : list string) : list string :=
  List.filter (fun y => negb (String.eqb x y)) s.

(** The value the [agents] map holds per agent id (the agent handle itself
    is identified with its id). *)
Record AgentRecord := {
  subscriptions : list string;
  lastSeen : Z;
}.

(** A JavaScript [Map] from strings, in insertion order. *)
Fixpoint map_get {V} (k : string) (m : list (string * V)) : option V :=
  match m with
  | [] => None
  | (k', v) :: rest => if String.eqb k k' then Some v else map_get k rest
  end.
Fixpoint map_set {V} (k : string) (v : V) (m : list (string * V))
  : list (string * V) :=
  match m with
  | [] => [(k, v)]
  | (k', v') :: rest =>
      if String.eqb k k' then (k', v) :: rest else (k', v') :: map_set k v rest
  end.
Definition map_delete {V} (k : string) (m : list (string * V))
  : list (string * V) :=
  List.filter (fun kv => negb (String.eqb k (fst kv))) m.
Definition map_keys {V} (m : list (string * V)) : list string :=
  List.map fst m.

Record Metrics := {
  messagesSent : nat;
  messagesReceived : nat;
  messagesExpired : nat;
}.

Record t := {
  agents : list (string * AgentRecord);
  channels : gmap string (list string);
  messageHistory : list Message.t;
  maxHistory : N;
  metrics : Metrics;
}.

Definition with_agents (b : t) (a : list (string * AgentRecord)) : t :=
  {| agents := a; channels := channels b; messageHistory := messageHistory b;
     maxHistory := maxHistory b; metrics := metrics b |}.
Definition with_channels (b : t) (c : gmap string (list string)) : t :=
  {| agents := agents b; channels := c; messageHistory := messageHistory b;
     maxHistory := maxHistory b; metrics := metrics b |}.
Definition with_history (b : t) (h : list Message.t) : t :=
  {| agents := agents b; channels := channels b; messageHistory := h;
     maxHistory := maxHistory b; metrics := metrics b |}.
Definition with_metrics (b : t) (m : Metrics) : t :=
  {| agents := agents b; channels := channels b;
     messageHistory := messageHistory b;
     maxHistory := maxHistory b; metrics := m |}.

(** [new MessageBus(options)]: [options.maxHistory || 10000]. *)
Definition new (options_maxHistory : option N) : t :=
  {| agents := []; channels := ∅; messageHistory := [];
     maxHistory := match options_maxHistory with
                   | Some n => if N.eqb n 0 then 10000%N else n
                   | None => 10000%N
                   end;
     metrics := {| messagesSent := 0; messagesReceived := 0;
                   messagesExpired := 0 |} |}.

(** [subscribe(agentId, channel)]: the new bus and the boolean returned. *)
Definition subscribe (agentId channel : string) (b : t) : t * bool :=
  match map_get agentId (agents b) with
  | None => (b, false)
  | Some record =>
      let subscribers :=
        match channels b !! channel with Some s => s | None => [] end in
      let b1 := with_channels b
                  (<[channel := set_add agentId subscribers]> (channels b)) in
      let record' := {| subscriptions := set_add channel (subscriptions record);
                        lastSeen := lastSeen record |} in
      (with_agents b1 (map_set agentId record' (agents b1)), true)
  end.

Definition unsubscribe (agentId channel : string) (b : t) : t * bool :=
  match map_get agentId (agents b) with
  | None => (b, false)
  | Some record =>
      let b1 := match channels b !! channel with
                | Some s => with_channels b
                              (<[channel := set_delete agentId s]> (channels b))
                | None => b
                end in
      let record' := {| subscriptions :=
                          set_delete channel (subscriptions record);
                        lastSeen := lastSeen record |} in
      (with_agents b1 (map_set agentId record' (agents b1)), true)
  end.

(** [registerAgent(agent)] when the clock reads [now]. *)
Definition registerAgent (agentId : string) (now : Z) (b : t) : t :=
  let b1 := with_agents b
              (map_set agentId {| subscriptions := []; lastSeen := now |}
                 (agents b)) in
  fst (subscribe agentId agentId b1).

Definition unregisterAgent (agentId : string) (b : t) : t :=
  match map_get agentId (agents b) with
  | Some record =>
      let b1 := fold_left (fun acc channel => fst (unsubscribe agentId channel acc))
                  (subscriptions record) b in
      with_agents b1 (map_delete agentId (agents b1))
  | None => b
  end.

(** What [send] has done for a recipient when it hands the envelope over.
    For a registered recipient the bus then awaits the agent's
    [receiveMessage]; what the agent does to the bus meanwhile it does
    through the operations of this module. *)
Inductive Delivery :=
| agent_not_found (recipientId : string)
| handed_over (recipientId : string).

Section WithRuntime.
Context {R : Runtime}.

(** [send(message)]: the bus afterwards and what the call returns.
    The argument is a [Message]; the [instanceof] test cannot fail. *)
Definition send (message : Message.t) (b : t) : t * result (list Delivery) :=
  if negb (Message.verify message)
  then (b, Throw (Error "Message signature verification failed"))
  else
    let pushed := messageHistory b ++ [Message.toJSON message] in
    let history := if (maxHistory b <? N.of_nat (length pushed))%N
                   then tl pushed else pushed in
    let m := metrics b in
    let b' := with_metrics (with_history b history)
                {| messagesSent := S (messagesSent m);
                   messagesReceived := messagesReceived m;
                   messagesExpired := messagesExpired m |} in
    let recipients :=
      match Message.recipients message with
      | Message.ROne r =>
          if String.eqb r "broadcast" then map_keys (agents b) else [r]
      | Message.RList ids => ids
      end in
    (b', Ok (List.map (fun recipientId =>
               match map_get recipientId (agents b) with
               | None => agent_not_found recipientId
               | Some _ => handed_over recipientId
               end) recipients)).

(** The sources of fresh values a constructor call consumes. *)
Record Env := {
  uuids_drawn : nat;   (* values [crypto.randomUUID()] has returned so far *)
  clock : Z;           (* what [Date.now()] reads *)
}.

(** What [broadcast] returns. *)
Inductive Broadcast :=
| no_subscribers (channel : string)
| sent (message : Message.t) (outcome : result (list Delivery)).

(** [broadcast(channel, messageData)] *)
Definition broadcast (channel : string) (messageData : Message.Args)
    (st : Env * t) : (Env * t) * Broadcast :=
  let (env, b) := st in
  match channels b !! channel with
  | None | Some [] => (st, no_subscribers channel)
  | Some subscribers =>
      let message :=
        Message.new
          {| Message.a_sender := Message.a_sender messageData;
             Message.a_recipients := Message.RList subscribers;
             Message.a_type := Message.a_type messageData;
             Message.a_payload := Message.a_payload messageData;
             Message.a_priority := Message.a_priority messageData;
             Message.a_ttl := Message.a_ttl messageData |}
          (randomUUID (uuids_drawn env)) (clock env) in
      let env' := {| uuids_drawn := S (uuids_drawn env); clock := clock env |} in
      let (b', outcome) := send message b in
      ((env', b'), sent message outcome)
  end.

End WithRuntime.

(** The filters of [queryHistory]; an absent or falsy filter is [None]
    (for [sender], [recipient] and [type] the empty string is falsy too). *)
Record Filters := {
  f_sender : option string;
  f_recipient : option string;
  f_type : option string;
  f_after : option Z;
  f_before : option Z;
}.

Definition given (f : option string) : option string :=
  match f with
  | Some s => if String.eqb s "" then None else Some s
  | None => None
  end.

(** [msg.recipients.includes(x)]: membership for an array, substring for a
    string. *)
Definition recipients_includes (r : Message.Recipients) (x : string) : bool :=
  match r with
  | Message.RList ids => existsb (String.eqb x) ids
  | Message.ROne s => match String.index 0 x s with Some _ => true | None => false end
  end.

Definition queryHistory (filters : Filters) (b : t) : list Message.t :=
  List.filter (fun msg =>
    match given (f_sender filters) with
    | Some s => String.eqb (Message.sender msg) s | None => true end
    && match given (f_recipient filters) with
       | Some r => recipients_includes (Message.recipients msg) r
       | None => true end
    && match given (f_type filters) with
       | Some ty => String.eqb (Message.type msg) ty | None => true end
    && match f_after filters with
       | Some a => negb (Message.timestamp msg <? a)%Z | None => true end
    && match f_before filters with
       | Some a => negb (a <? Message.timestamp msg)%Z | None => true end)
    (messageHistory b).

(** The test of the sweep:
    [new Date(msg.timestamp).getTime() + (msg.ttl * 1000) < Date.now()]. *)
Definition expired (now : Z) (msg : Message.t) : bool :=
  (Message.timestamp msg + Message.ttl msg * 1000 <? now)%Z.

(** [cleanup()] when the clock reads [now] (the sweep is synchronous; the
    clock is taken not to advance while it runs). *)
Definition cleanup (now : Z) (b : t) : t :=
  let history := List.filter (fun msg => negb (expired now msg))
                   (messageHistory b) in
  let m := metrics b in
  with_metrics (with_history b history)
    {| messagesSent := messagesSent m;
       messagesReceived := messagesReceived m;
       messagesExpired := messagesExpired m
           + length (List.filter (expired now) (messageHistory b)) |}.

(** [getMetrics().historySize] *)
Definition historySize (b : t) : nat := length (messageHistory b).

(** [this.metrics.messagesReceived++] after a delivery has succeeded. *)
Definition delivered (b : t) : t :=
  let m := metrics b in
  with_metrics b {| messagesSent := messagesSent m;
                    messagesReceived := S (messagesReceived m);
                    messagesExpired := messagesExpired m |}.

Section Operations.
Context {R : Runtime}.

(** The operations by which the bus changes; [set_channel] is the direct
    assignment [messageBus.channels.set(name, new Set(ids))] of
    KenyaClawSwarm.setupChannels. *)
Inductive Op :=
| op_registerAgent (agentId : string)
| op_unregisterAgent (agentId : string)
| op_subscribe (agentId channel : string)
| op_unsubscribe (agentId channel : string)
| op_send (message : Message.t)
| op_broadcast (channel : string) (messageData : Message.Args)
| op_delivered
| op_cleanup
| op_set_channel (name : string) (ids : list string)
| op_elapse (ms : nat).

Definition step (st : Env * t) (o : Op) : Env * t :=
  let (env, b) := st in
  match o with
  | op_registerAgent a => (env, registerAgent a (clock env) b)
  | op_unregisterAgent a => (env, unregisterAgent a b)
  | op_subscribe a c => (env, fst (subscribe a c b))
  | op_unsubscribe a c => (env, fst (unsubscribe a c b))
  | op_send m => (env, fst (send m b))
  | op_broadcast c d => fst (broadcast c d st)
  | op_delivered => (env, delivered b)
  | op_cleanup => (env, cleanup (clock env) b)
  | op_set_channel n ids =>
      (env, with_channels b (<[n := fold_left (fun s x => set_add x s) ids []]>
                               (channels b)))
  | op_elapse ms =>
      ({| uuids_drawn := uuids_drawn env; clock := clock env + Z.of_nat ms |}, b)
  end.

Definition run (ops : list Op) (st : Env * t) : Env * t :=
  fold_left step ops st.

End Operations.

End MessageBus.

(** ** Tasks, replies and the requests the strategies issue *)

(** A task: the fields the orchestrator and the strategies read; an absent
    field is [None]. *)
Record Task := {
  task_id : option string;
  task_type : string;
  description : option string;
  amount : option JsNum.t;
  task_sender : option string;
  severity : option string;
  requiredSkills : option (list string);
  preferredRole : option string;
  synthesisType : option string;
}.

(** The object an agent answers a query with; an absent field is [None]. *)
Record Reply := {
  vote : option string;
  reasoning : option string;
  quality : option JsNum.t;
  confidence : option JsNum.t;
  data : option JsVal;
  agent : option string;
}.

Record Proposal := {
  p_id : option string;
  p_type : string;
  p_description : option string;
  p_amount : option JsNum.t;
  proposedBy : string;
}.

(** What flows through a pipeline: the task first, then each step's output. *)
Inductive PipelineValue :=
| of_task (t : Task)
| of_reply (r : Reply).

(** The [query] argument of [agent.query(target, query, timeout)], by its
    [type] field. *)
Inductive Request :=
| vote_request (proposal : Proposal)
| emergency_action (severity : option string) (details : Task)
| concurrent_task (task : Task)
| pipeline_step (input : PipelineValue) (step : nat)
| competitive_task (task : Task).

(** ** Promises built with [new Promise(executor)] *)

Module Promise.

(** The two functions an executor receives. *)
Inductive Settle :=
| resolve (value : Reply)
| reject (reason : JsError).

(** The statements of an async executor: it can settle the promise, register
    a timer whose callback settles the promise, or await a [this.send]. *)
Inductive Stmt :=
| settle (s : Settle)
| setTimeout (callback : list Settle) (delay : Z)
| await_send (recipient type : string) (query : Request) (timeout : Z)
    (priority : Z).

(** How an awaited [send] behaves: how long it takes and whether it throws.
    A throw ends the async executor; it rejects the executor's own promise,
    not the one under construction. *)
Record SendBehaviour := {
  send_takes : nat;
  send_throws : bool;
}.

(** The delay a timer really waits: below 1 ms or above 2^31 - 1 ms Node.js
    uses 1 ms. *)
Definition timer_delay (delay : Z) : Z :=
  if ((delay <? 1) || (2147483647 <? delay))%Z then 1%Z else delay.

Definition attempt (at_time : Z) (s : Settle) : Z * result Reply :=
  match s with
  | resolve v => (at_time, Ok v)
  | reject e => (at_time, Throw e)
  end.

(** The calls of [resolve] and [reject] an executor started at [now] gives
    rise to, each with the time at which it happens; [sends] tells how the
    successive awaited sends behave. *)
Fixpoint attempts (sends : nat -> SendBehaviour) (nth_send : nat) (now : Z)
    (body : list Stmt) : list (Z * result Reply) :=
  match body with
  | [] => []
  | settle s :: rest => attempt now s :: attempts sends nth_send now rest
  | setTimeout callback delay :: rest =>
      List.map (attempt (now + timer_delay delay)) callback
      ++ attempts sends nth_send now rest
  | await_send _ _ _ _ _ :: rest =>
      if send_throws (sends nth_send) then []
      else attempts sends (S nth_send)
             (now + Z.of_nat (send_takes (sends nth_send))) rest
  end.

(** The earliest attempt; of two at the same time the one listed first. *)
Fixpoint earliest (l : list (Z * result Reply)) : option (Z * result Reply) :=
  match l with
  | [] => None
  | a :: rest =>
      match earliest rest with
      | Some b => if (fst b <? fst a)%Z then Some b else Some a
      | None => Some a
      end
  end.

(** How the promise settles: only the first call of [resolve] or [reject]
    counts; [None] when there is none and the promise stays pending. *)
Definition settlement (sends : nat -> SendBehaviour) (now : Z)
    (executor : list Stmt) : option (Z * result Reply) :=
  earliest (attempts sends 0 now executor).

(** The state of the promise at a time [t]. *)
Inductive State :=
| pending
| fulfilled (value : Reply)
| rejected (reason : JsError).

Definition state_at (sends : nat -> SendBehaviour) (now : Z)
    (executor : list Stmt) (t : Z) : State :=
  match settlement sends now executor with
  | Some (at_time, r) =>
      if (t <? at_time)%Z then pending
      else match r with Ok v => fulfilled v | Throw e => rejected e end
  | None => pending
  end.

End Promise.

(** ** BaseAgent *)

Module BaseAgent.

Record Metrics := {
  tasksCompleted : nat;
  tasksFailed : nat;
  successRate : JsNum.t;
  avgResponseTime : JsNum.t;
  totalResponseTime : Z;
  messagesReceived : nat;
  messagesSent : nat;
}.

(** The metrics the constructor sets. *)
Definition initial_metrics : Metrics :=
  {| tasksCompleted := 0; tasksFailed := 0;
     successRate := JsNum.Fin 1; avgResponseTime := JsNum.Fin 0;
     totalResponseTime := 0; messagesReceived := 0; messagesSent := 0 |}.

Definition updateMetrics (responseTime : Z) (success : bool) (m : Metrics)
  : Metrics :=
  let completed := if success then S (tasksCompleted m) else tasksCompleted m in
  let failed := if success then tasksFailed m else S (tasksFailed m) in
  let total := (totalResponseTime m + responseTime)%Z in
  {| tasksCompleted := completed; tasksFailed := failed;
     successRate := JsNum.div (JsNum.of_nat completed)
                      (JsNum.of_nat (completed + failed));
     avgResponseTime := JsNum.div (JsNum.of_Z total)
                          (JsNum.of_nat (completed + failed));
     totalResponseTime := total;
     messagesReceived := messagesReceived m;
     messagesSent := messagesSent m |}.

(** [Priority.HIGH] and [MessageTypes.QUERY] *)
Definition HIGH : Z := 2.
Definition QUERY : string := "query".

(** The executor of the promise [query(targetAgent, query, timeout)]
    returns: it registers the timer, then awaits [this.send]; the [resolve]
    it receives occurs nowhere in it. *)
Definition query (targetAgent : string) (query : Request) (timeout : Z)
  : list Promise.Stmt :=
  [ Promise.setTimeout
      [Promise.reject (QueryTimedOut targetAgent timeout)] timeout;
    Promise.await_send targetAgent QUERY query timeout HIGH ].

(** An agent as the orchestrator and the strategies see it. [query] is what
    awaiting [agent.query(target, query, timeout)] yields: the time the
    promise takes to settle and how it settles. Every query is taken to
    settle, as the one of BaseAgent does by its timer. *)
Record t := {
  id : string;
  codename : string;
  role : string;
  skills : list string;
  status : string;
  metrics : option Metrics;
  await_query : string -> Request -> Z -> Z * result Reply;
}.

(** Awaiting the promise of [BaseAgent.query], started at time 0, when the
    sends behave as [sends]. The last case is never taken: the promise
    always settles. *)
Definition awaited (sends : nat -> Promise.SendBehaviour)
    (targetAgent : string) (q : Request) (timeout : Z) : Z * result Reply :=
  match Promise.settlement sends 0 (query targetAgent q timeout) with
  | Some s => s
  | None => (0%Z, Throw (Error "pending"))
  end.

(** An agent whose [query] is the inherited one (DoctorAgent, CharonAgent,
    JohnWickAgent and AdjudicatorAgent override [processMessage] only). *)
Definition inherits_query (sends : nat -> Promise.SendBehaviour) (a : t) : Prop :=
  forall target q timeout,
    await_query a target q timeout = awaited sends target q timeout.

End BaseAgent.

(** ** SwarmOrchestrator *)

Module SwarmOrchestrator.

(** The own properties of the object literal [patterns], in source order. *)
Definition patterns : gmap string (Task -> string) :=
  list_to_map
    [ ("financial_approval",
        fun t => match amount t with
                 | Some a => if JsNum.gtb a (JsNum.Fin 500)
                             then "council" else "sequential"
                 | None => "sequential"
                 end);
      ("system_alert",
        fun t => match severity t with
                 | Some s => if String.eqb s "critical"
                             then "emergency" else "concurrent"
                 | None => "concurrent"
                 end);
      ("customer_inquiry", fun _ => "concurrent");
      ("strategic_planning", fun _ => "sequential");
      ("data_processing", fun _ => "concurrent");
      ("complex_analysis", fun _ => "competitive");
      ("default", fun _ => "sequential") ].

(** What a call of the selected member returns: one of the strings of the
    table, or what a member inherited from [Object.prototype] returns. *)
Inductive Selected :=
| selected_name (architectureName : string)
| selected_object (t : Task).

(** [patterns] is an object literal, so [patterns[key]] also finds the
    members it inherits from [Object.prototype]. Called as [selector(task)]
    (no receiver): [Object] returns its argument, [toString] returns
    the tag of undefined, the accessor [__proto__] yields an object that
    cannot be called, and the other members throw on the missing receiver. *)
Definition Object_prototype (key : string) : option (Task -> result Selected) :=
  if String.eqb key "constructor" then Some (fun t => Ok (selected_object t))
  else if String.eqb key "toString"
  then Some (fun _ => Ok (selected_name "[object Undefined]"))
  else if existsb (String.eqb key)
            ["toLocaleString"; "valueOf"; "hasOwnProperty"; "isPrototypeOf";
             "propertyIsEnumerable"; "__defineGetter__"; "__defineSetter__";
             "__lookupGetter__"; "__lookupSetter__"]
  then Some (fun _ =>
               Throw (TypeError "Cannot convert undefined or null to object"))
  else if String.eqb key "__proto__"
  then Some (fun _ => Throw (TypeError "selector is not a function"))
  else None.

(** [selectArchitecture(task)]:
    [(patterns[task.type] || patterns['default'])(task)]. *)
Definition selectArchitecture (task : Task) : result Selected :=
  match patterns !! task_type task with
  | Some selector => Ok (selected_name (selector task))
  | None =>
      match Object_prototype (task_type task) with
      | Some selector => selector task
      | None =>
          match patterns !! "default" with
          | Some selector => Ok (selected_name (selector task))
          | None => Throw (TypeError "selector is not a function")
          end
      end
  end.

(** The number of the agent's skills that the task requires:
    [agent.skills.filter(s => task.requiredSkills.includes(s)).length]. *)
Definition matchingSkills (agent_skills required : list string) : nat :=
  length (List.filter (fun s => existsb (String.eqb s) required) agent_skills).

(** [agent.metrics?.successRate] *)
Definition recorded_successRate (a : BaseAgent.t) : option JsNum.t :=
  match BaseAgent.metrics a with
  | Some m => Some (BaseAgent.successRate m)
  | None => None
  end.

Definition calculateAgentScore (a : BaseAgent.t) (task : Task) : JsNum.t :=
  let score := JsNum.Fin 0 in
  let score :=
    match requiredSkills task with
    | Some required =>
        JsNum.add score
          (JsNum.mul
             (JsNum.div (JsNum.of_nat (matchingSkills (BaseAgent.skills a) required))
                        (JsNum.of_nat (length required)))
             (JsNum.Fin 0.4))
    | None => JsNum.add score (JsNum.Fin 0.2)
    end in
  let score :=
    JsNum.add score
      (if String.eqb (BaseAgent.status a) "idle"
       then JsNum.Fin 0.3 else JsNum.Fin 0.1) in
  let score :=
    JsNum.add score
      (JsNum.mul (num_or (recorded_successRate a) (JsNum.Fin 0.8))
                 (JsNum.Fin 0.2)) in
  match preferredRole task with
  | Some r =>
      if negb (String.eqb r "") && String.eqb (BaseAgent.role a) r
      then JsNum.add score (JsNum.Fin 0.1) else score
  | None => score
  end.

End SwarmOrchestrator.

(** ** The architectures *)

(** One call [agent.query(target, query, timeout)] a strategy makes. *)
Record Call := {
  callee : string;
  target : string;
  request : Request;
  timeout : Z;
}.

Definition call_query (a : BaseAgent.t) (q : Request) (ms : Z) : Call :=
  {| callee := BaseAgent.id a; target := BaseAgent.id a;
     request := q; timeout := ms |}.

(** [Promise.all]: the values in order when every promise is fulfilled;
    otherwise the reason of the promise that is rejected first (of two
    rejected at the same time, the one started first). *)
Fixpoint first_rejection {A} (l : list (Z * result A)) : option (Z * JsError) :=
  match l with
  | [] => None
  | (t, Throw e) :: rest =>
      match first_rejection rest with
      | Some (t', e') => if (t' <? t)%Z then Some (t', e') else Some (t, e)
      | None => Some (t, e)
      end
  | (_, Ok _) :: rest => first_rejection rest
  end.

Definition fulfilled_values {A} (l : list (Z * result A)) : list A :=
  List.flat_map (fun s => match snd s with Ok v => [v] | Throw _ => [] end) l.

Definition rejection_reasons {A} (l : list (Z * result A)) : list JsError :=
  List.flat_map (fun s => match snd s with Ok _ => [] | Throw e => [e] end) l.

Definition Promise_all {A} (l : list (Z * result A)) : result (list A) :=
  match first_rejection l with
  | Some (_, e) => Throw e
  | None => Ok (fulfilled_values l)
  end.

(** [array.reduce(f)] without an initial value. *)
Definition reduce {A} (f : A -> A -> A) (l : list A) : result A :=
  match l with
  | [] => Throw (TypeError "Reduce of empty array with no initial value")
  | x :: rest => Ok (fold_left f rest x)
  end.

Module CouncilArchitecture.

Record Vote := {
  v_agent : string;
  v_codename : string;
  v_vote : string;
  v_reasoning : string;
}.

Record Result := {
  status : string;
  consensus : JsNum.t;
  votes : list Vote;
  proposal : Proposal;
}.

(** [gatherVote(agent, proposal)]: a rejected query is caught. *)
Definition gatherVote (proposal : Proposal) (a : BaseAgent.t) : Vote :=
  match snd (BaseAgent.await_query a (BaseAgent.id a) (vote_request proposal) 10000) with
  | Ok deliberation =>
      {| v_agent := BaseAgent.id a; v_codename := BaseAgent.codename a;
         v_vote := str_or (vote deliberation) "abstain";
         v_reasoning := str_or (reasoning deliberation) "" |}
  | Throw _ =>
      {| v_agent := BaseAgent.id a; v_codename := BaseAgent.codename a;
         v_vote := "abstain";
         v_reasoning := "Failed to respond in time" |}
  end.

Definition make_proposal (task : Task) : Proposal :=
  {| p_id := task_id task; p_type := task_type task;
     p_description := description task; p_amount := amount task;
     proposedBy := str_or (task_sender task) "user" |}.

Definition approvals (vs : list Vote) : nat :=
  length (List.filter (fun v => String.eqb (v_vote v) "approve") vs).

(** [execute(task, agents)]; the [message] field of the result, a text that
    repeats the status and the rounded ratio, is left out. *)
Definition execute (task : Task) (agents : list BaseAgent.t)
  : list Call * result Result :=
  let proposal := make_proposal task in
  let votes := List.map (gatherVote proposal) agents in
  let total := length votes in
  let consensus := JsNum.div (JsNum.of_nat (approvals votes)) (JsNum.of_nat total) in
  let approved := JsNum.geb consensus (JsNum.Fin 0.66) in
  (List.map (fun a => call_query a (vote_request proposal) 10000) agents,
   Ok {| status := if approved then "approved" else "rejected";
         consensus := consensus; votes := votes; proposal := proposal |}).

End CouncilArchitecture.

Module ConcurrentArchitecture.

(** What [synthesizeResults] returns: a single result (undefined when there
    is none) or the merged object. *)
Inductive Synthesis :=
| single (r : option Reply)
| merged (all_data : list (option JsVal)) (sources : list (option string)).

Record Result := {
  status : string;
  results : list Reply;
  failures : list JsError;
  synthesis : Synthesis;
  agents : list string;
}.

(** [current.confidence > best.confidence]; an undefined side compares
    false. *)
Definition more_confident (current best : Reply) : bool :=
  match confidence current, confidence best with
  | Some c, Some b => JsNum.gtb c b
  | _, _ => false
  end.

Definition synthesizeResults (results : list Reply) (task : Task)
  : result Synthesis :=
  let synthesisType := match synthesisType task with Some s => s | None => "" end in
  if String.eqb synthesisType "best" then
    match reduce (fun best current =>
                    if more_confident current best then current else best)
                 results with
    | Ok r => Ok (single (Some r))
    | Throw e => Throw e
    end
  else if String.eqb synthesisType "merge" then
    Ok (merged (List.map data results) (List.map agent results))
  else Ok (single (List.head results)).

Definition executeSubtask (task : Task) (a : BaseAgent.t) : Z * result Reply :=
  BaseAgent.await_query a (BaseAgent.id a) (concurrent_task task) 30000.

(** [execute(task, agents)]: [Promise.allSettled] keeps every outcome. *)
Definition execute (task : Task) (agents : list BaseAgent.t)
  : list Call * result Result :=
  let settled := List.map (executeSubtask task) agents in
  let successful := fulfilled_values settled in
  let failed := rejection_reasons settled in
  (List.map (fun a => call_query a (concurrent_task task) 30000) agents,
   match synthesizeResults successful task with
   | Throw e => Throw e
   | Ok synthesis =>
       Ok {| status := if Nat.eqb (length failed) 0 then "success" else "partial";
             results := successful; failures := failed;
             synthesis := synthesis;
             agents := List.map BaseAgent.id agents |}
   end).

End ConcurrentArchitecture.

Module SequentialArchitecture.

Record Step := {
  s_agent : string;
  s_codename : string;
  input : PipelineValue;
  output : Reply;
}.

Record Result := {
  status : string;
  finalResult : PipelineValue;
  trace : list Step;
  steps : nat;
}.

(** The [for] loop of [execute] from a given state on: a rejected query is
    not caught, so it ends the function. *)
Fixpoint pipeline (agents : list BaseAgent.t) (currentInput : PipelineValue)
    (trace : list Step) : list Call * result Result :=
  match agents with
  | [] =>
      ([], Ok {| status := "completed"; finalResult := currentInput;
                 trace := trace; steps := length trace |})
  | a :: rest =>
      let q := pipeline_step currentInput (length trace + 1) in
      match snd (BaseAgent.await_query a (BaseAgent.id a) q 30000) with
      | Throw e => ([call_query a q 30000], Throw e)
      | Ok r =>
          let (calls, res) :=
            pipeline rest (of_reply r)
              (trace ++ [{| s_agent := BaseAgent.id a;
                            s_codename := BaseAgent.codename a;
                            input := currentInput; output := r |}]) in
          (call_query a q 30000 :: calls, res)
      end
  end.

Definition execute (task : Task) (agents : list BaseAgent.t)
  : list Call * result Result :=
  pipeline agents (of_task task) [].

End SequentialArchitecture.

Module CompetitiveArchitecture.

(** What [compete] returns. *)
Record Entry := {
  e_agent : string;
  e_codename : string;
  e_result : Reply;
  executionTime : Z;
}.

Record Scored := {
  entry : Entry;
  score : JsNum.t;
}.

Record Result := {
  status : string;
  winner : Scored;
  allResults : list Scored;
}.

(** [compete(agent, task)]: the query is not caught; the execution time is
    the time the query took. *)
Definition compete (task : Task) (a : BaseAgent.t) : Z * result Entry :=
  let (took, r) :=
    BaseAgent.await_query a (BaseAgent.id a) (competitive_task task) 60000 in
  (took,
   match r with
   | Ok reply => Ok {| e_agent := BaseAgent.id a;
                       e_codename := BaseAgent.codename a;
                       e_result := reply; executionTime := took |}
   | Throw e => Throw e
   end).

Definition evaluateResult (r : Entry) : JsNum.t :=
  let score := JsNum.Fin 0 in
  let score :=
    JsNum.add score
      (JsNum.mul (num_or (quality (e_result r)) (JsNum.Fin 0.5)) (JsNum.Fin 0.6)) in
  let maxExpectedTime := JsNum.Fin 30000 in
  let speedScore :=
    JsNum.max (JsNum.Fin 0)
      (JsNum.sub (JsNum.Fin 1)
                 (JsNum.div (JsNum.of_Z (executionTime r)) maxExpectedTime)) in
  let score := JsNum.add score (JsNum.mul speedScore (JsNum.Fin 0.3)) in
  JsNum.add score
    (JsNum.mul (num_or (confidence (e_result r)) (JsNum.Fin 0.5)) (JsNum.Fin 0.1)).

(** [execute(task, agents)]: [Promise.all] is rejected as soon as one branch
    is; the [message] field of the result is left out. *)
Definition execute (task : Task) (agents : list BaseAgent.t)
  : list Call * result Result :=
  (List.map (fun a => call_query a (competitive_task task) 60000) agents,
   match Promise_all (List.map (compete task) agents) with
   | Throw e => Throw e
   | Ok results =>
       let scored := List.map (fun r => {| entry := r; score := evaluateResult r |})
                       results in
       match reduce (fun best current =>
                       if JsNum.gtb (score current) (score best)
                       then current else best) scored with
       | Throw e => Throw e
       | Ok winner =>
           Ok {| status := "completed"; winner := winner; allResults := scored |}
       end
   end).

End CompetitiveArchitecture.

Module EmergencyArchitecture.

Record Result := {
  status : string;
  action : Reply;
  agent : string;
}.

(** [execute(task, agents)] up to the report: the first agent acts; its
    query is not caught. The broadcast of the report to the council channel
    that follows a fulfilled query is left out. *)
Definition execute (task : Task) (agents : list BaseAgent.t)
  : list Call * result Result :=
  match agents with
  | [] => ([], Throw (TypeError "Cannot read properties of undefined"))
  | a :: _ =>
      let q := emergency_action (severity task) task in
      ([call_query a q 5000],
       match snd (BaseAgent.await_query a (BaseAgent.id a) q 5000) with
       | Throw e => Throw e
       | Ok r => Ok {| status := "executed"; action := r;
                       agent := BaseAgent.id a |}
       end)
  end.

End EmergencyArchitecture.

(** ** Fixtures: a test double of the platform, scripted agents, sample data *)

Definition decimal (z : Z) : string :=
  DecimalString.NilZero.string_of_int (Z.to_int z).

(** A deterministic stand-in for the platform: the keyed hash is the key
    followed by the data, so that it separates any two texts. *)
Definition stub_runtime : Runtime :=
  {| createHmac_sha256_hex := fun key text => (key ++ ":" ++ text)%string;
     MESSAGE_SECRET := None;
     number_to_string := fun q =>
       if Pos.eqb (Qden q) 1 then decimal (Qnum q)
       else (decimal (Qnum q) ++ "/" ++ decimal (Zpos (Qden q)))%string;
     toISOString := decimal;
     randomUUID := fun n => ("uuid-" ++ decimal (Z.of_nat n))%string |}.

Definition sample_task (type : string) : Task :=
  {| task_id := Some "task-1"; task_type := type; description := None;
     amount := None; task_sender := None; severity := None;
     requiredSkills := None; preferredRole := None; synthesisType := None |}.

Definition reply_with_vote (v : string) : Reply :=
  {| vote := Some v; reasoning := None; quality := None; confidence := None;
     data := None; agent := None |}.

(** An agent whose query always settles the same way: a subclass of
    BaseAgent that overrides [query]. *)
Definition scripted (name role : string) (took : Z) (answer : result Reply)
  : BaseAgent.t :=
  {| BaseAgent.id := name; BaseAgent.codename := name; BaseAgent.role := role;
     BaseAgent.skills := []; BaseAgent.status := "idle";
     BaseAgent.metrics := Some BaseAgent.initial_metrics;
     BaseAgent.await_query := fun _ _ _ => (took, answer) |}.

(** An agent that keeps the [query] of BaseAgent; its sends take 1 ms. *)
Definition prompt_sends : nat -> Promise.SendBehaviour :=
  fun _ => {| Promise.send_takes := 1; Promise.send_throws := false |}.

Definition plain_agent (name role : string) : BaseAgent.t :=
  {| BaseAgent.id := name; BaseAgent.codename := name; BaseAgent.role := role;
     BaseAgent.skills := []; BaseAgent.status := "idle";
     BaseAgent.metrics := Some BaseAgent.initial_metrics;
     BaseAgent.await_query := BaseAgent.awaited prompt_sends |}.

(** An agent that differs from another in its recorded success rate only. *)
Definition with_successRate (rate : JsNum.t) (a : BaseAgent.t) : BaseAgent.t :=
  {| BaseAgent.id := BaseAgent.id a; BaseAgent.codename := BaseAgent.codename a;
     BaseAgent.role := BaseAgent.role a; BaseAgent.skills := BaseAgent.skills a;
     BaseAgent.status := BaseAgent.status a;
     BaseAgent.metrics :=
       Some {| BaseAgent.tasksCompleted := 0; BaseAgent.tasksFailed := 0;
               BaseAgent.successRate := rate;
               BaseAgent.avgResponseTime := JsNum.Fin 0;
               BaseAgent.totalResponseTime := 0;
               BaseAgent.messagesReceived := 0; BaseAgent.messagesSent := 0 |};
     BaseAgent.await_query := BaseAgent.await_query a |}.

(** A council of fifty: thirty-three members approve, seventeen reject. *)
Definition council_of_fifty : list BaseAgent.t :=
  repeat (scripted "yes" "CFO" 1 (Ok (reply_with_vote "approve"))) 33
  ++ repeat (scripted "no" "CTO" 1 (Ok (reply_with_vote "reject"))) 17.

(** ** Notions used in the statements *)

(** [a] is [b] or lies below it. *)
Definition no_more (a b : JsNum.t) : Prop := a = b \/ JsNum.leb a b = true.

(** The sum [calculateAgentScore] forms from its four terms. *)
Definition score_total (skill availability history : JsNum.t) (role_bonus : bool)
  : JsNum.t :=
  let score :=
    JsNum.add (JsNum.add skill availability)
              (JsNum.mul history (JsNum.Fin 0.2)) in
  if role_bonus then JsNum.add score (JsNum.Fin 0.1) else score.

(** Two agents alike except, possibly, in skills, status and metrics. *)
Definition same_identity (a b : BaseAgent.t) : Prop :=
  BaseAgent.id a = BaseAgent.id b /\ BaseAgent.codename a = BaseAgent.codename b
  /\ BaseAgent.role a = BaseAgent.role b.

(** The four terms of the score of an agent. *)
Definition skill_term (a : BaseAgent.t) (task : Task) : JsNum.t :=
  match requiredSkills task with
  | Some required =>
      JsNum.add (JsNum.Fin 0)
        (JsNum.mul
           (JsNum.div (JsNum.of_nat (SwarmOrchestrator.matchingSkills (BaseAgent.skills a) required))
                      (JsNum.of_nat (length required)))
           (JsNum.Fin 0.4))
  | None => JsNum.add (JsNum.Fin 0) (JsNum.Fin 0.2)
  end.

Definition availability_term (a : BaseAgent.t) : JsNum.t :=
  if String.eqb (BaseAgent.status a) "idle" then JsNum.Fin 0.3 else JsNum.Fin 0.1.

Definition history_term (a : BaseAgent.t) : JsNum.t :=
  num_or (SwarmOrchestrator.recorded_successRate a) (JsNum.Fin 0.8).

Definition role_matches (a : BaseAgent.t) (task : Task) : bool :=
  match preferredRole task with
  | Some r => negb (String.eqb r "") && String.eqb (BaseAgent.role a) r
  | None => false
  end.

(** The keys of the rule table, and the names every object literal inherits
    from [Object.prototype]. *)
Definition rule_keys : list string :=
  ["financial_approval"; "system_alert"; "customer_inquiry";
   "strategic_planning"; "data_processing"; "complex_analysis"; "default"].

Definition inherited_names : list string :=
  ["constructor"; "toString"; "toLocaleString"; "valueOf"; "hasOwnProperty";
   "isPrototypeOf"; "propertyIsEnumerable"; "__defineGetter__";
   "__defineSetter__"; "__lookupGetter__"; "__lookupSetter__"; "__proto__"].

(** [t.amount > 500] and [t.severity === 'critical'] *)
Definition amount_exceeds_500 (t : Task) : bool :=
  match amount t with
  | Some a => JsNum.gtb a (JsNum.Fin 500)
  | None => false
  end.

Definition severity_is_critical (t : Task) : bool :=
  match severity t with
  | Some s => String.eqb s "critical"
  | None => false
  end.

(** The steps of a pipeline from the input [input] on, numbered from [n],
    are fulfilled with the outputs [outputs]: each agent answers the query
    that carries the output of the agent before it. *)
Fixpoint fulfilled_chain (agents : list BaseAgent.t) (input : PipelineValue)
    (n : nat) (outputs : list Reply) : Prop :=
  match agents, outputs with
  | [], [] => True
  | a :: rest, r :: outs =>
      snd (BaseAgent.await_query a (BaseAgent.id a) (pipeline_step input n) 30000)
      = Ok r
      /\ fulfilled_chain rest (of_reply r) (S n) outs
  | _, _ => False
  end.

(** What the step after these outputs receives. *)
Definition chain_value (input : PipelineValue) (outputs : list Reply)
  : PipelineValue :=
  fold_left (fun _ r => of_reply r) outputs input.

(** Sample agents: one that answers, one that fails. *)
Definition helpful (name role : string) : BaseAgent.t :=
  scripted name role 5
    (Ok {| vote := None; reasoning := None; quality := Some (JsNum.Fin 0.9);
           confidence := Some (JsNum.Fin 0.7);
           data := Some (JStr "done"); agent := Some name |}).

Definition failing (name role : string) : BaseAgent.t :=
  scripted name role 7 (Throw (Error "processing failed")).

(** Whether an executor, or a callback it registers, calls [resolve]. *)
Definition is_resolve (s : Promise.Settle) : bool :=
  match s with Promise.resolve _ => true | Promise.reject _ => false end.

Definition calls_resolve (body : list Promise.Stmt) : bool :=
  existsb (fun st =>
             match st with
             | Promise.settle s => is_resolve s
             | Promise.setTimeout callback _ => existsb is_resolve callback
             | Promise.await_send _ _ _ _ _ => false
             end) body.

(** The history is within the capacity, and the capacity is at least 1. *)
Definition history_bounded (b : MessageBus.t) : Prop :=
  (N.of_nat (length (MessageBus.messageHistory b)) <= MessageBus.maxHistory b)%N
  /\ (1 <= MessageBus.maxHistory b)%N.

(** The assignment [message.payload = value] on an envelope. *)
Definition set_payload (value : JsVal) (m : Message.t) : Message.t :=
  {| Message.id := Message.id m; Message.timestamp := Message.timestamp m;
     Message.sender := Message.sender m;
     Message.recipients := Message.recipients m;
     Message.type := Message.type m; Message.payload := value;
     Message.priority := Message.priority m; Message.ttl := Message.ttl m;
     Message.signature := Message.signature m |}.

(** [m'] is [m] after assignments to signed fields: the stored signature
    is the one of [m], and one of the five signed fields has another
    value. *)
Definition mutated (m m' : Message.t) : Prop :=
  Message.signature m' = Message.signature m
  /\ (Message.id m' <> Message.id m
      \/ Message.timestamp m' <> Message.timestamp m
      \/ Message.sender m' <> Message.sender m
      \/ Message.type m' <> Message.type m
      \/ Message.payload m' <> Message.payload m).

(** A sample envelope: a report whose payload is the number NaN. *)
Definition report_args : Message.Args :=
  {| Message.a_sender := "doctor"; Message.a_recipients := Message.ROne "winston";
     Message.a_type := "report"; Message.a_payload := JNum JsNum.NaN;
     Message.a_priority := None; Message.a_ttl := None |}.

(** Reading one escaped character back (the inverse of [JSON.escape_char]):
    the character and the rest of the text; [None] at the closing quote. *)
Definition hex_value (c : ascii) : option nat :=
  let n := nat_of_ascii c in
  if (48 <=? n)%nat && (n <=? 57)%nat then Some (n - 48)%nat
  else if (97 <=? n)%nat && (n <=? 102)%nat then Some (n - 87)%nat
  else None.

Definition unescape_head (s : string) : option (ascii * string) :=
  match s with
  | EmptyString => None
  | String h t =>
      if Ascii.eqb h JSON.backslash then
        match t with
        | String k t' =>
            if Ascii.eqb k JSON.dquote then Some (JSON.dquote, t')
            else if Ascii.eqb k JSON.backslash then Some (JSON.backslash, t')
            else if Ascii.eqb k "b" then Some (ascii_of_nat 8, t')
            else if Ascii.eqb k "t" then Some (ascii_of_nat 9, t')
            else if Ascii.eqb k "n" then Some (ascii_of_nat 10, t')
            else if Ascii.eqb k "f" then Some (ascii_of_nat 12, t')
            else if Ascii.eqb k "r" then Some (ascii_of_nat 13, t')
            else if Ascii.eqb k "u" then
              match t' with
              | String _ (String _ (String x (String y t''))) =>
                  match hex_value x, hex_value y with
                  | Some a, Some b => Some (ascii_of_nat (16 * a + b), t'')
                  | _, _ => None
                  end
              | _ => None
              end
            else None
        | EmptyString => None
        end
      else if Ascii.eqb h JSON.dquote then None
      else Some (h, t)
  end.

(** The text [sign] hashes, written out: [p] is the JSON text of the
    payload, absent when the payload is undefined. *)
Definition signed_text (id ts sender ty : string) (p : option string) : string :=
  ("{" ++ JSON.quote "id" ++ ":" ++ JSON.quote id ++ "," ++
   JSON.quote "timestamp" ++ ":" ++ JSON.quote ts ++ "," ++
   JSON.quote "sender" ++ ":" ++ JSON.quote sender ++ "," ++
   JSON.quote "type" ++ ":" ++ JSON.quote ty ++
   match p with
   | Some s => "," ++ JSON.quote "payload" ++ ":" ++ s ++ "}"
   | None => "}"
   end)%string.

(** The assignment [message.sender = value] on an envelope. *)
Definition set_sender (value : string) (m : Message.t) : Message.t :=
  {| Message.id := Message.id m; Message.timestamp := Message.timestamp m;
     Message.sender := value;
     Message.recipients := Message.recipients m;
     Message.type := Message.type m; Message.payload := Message.payload m;
     Message.priority := Message.priority m; Message.ttl := Message.ttl m;
     Message.signature := Message.signature m |}.

(** The two tests on rounded numbers (IEEE 754 binary64, the numbers of
    JavaScript), to check the failing inputs below against rounding:
    [approvals / total >= 0.66] of the council, and the sum
    [calculateAgentScore] forms for an idle agent and a task without
    required skills and preferred role, given the history term. *)
Definition approved_double (approvals total : float) : bool :=
  PrimFloat.leb 0.66%float (PrimFloat.div approvals total).

Definition score_double (history : float) : float :=
  PrimFloat.add
    (PrimFloat.add (PrimFloat.add 0%float 0.2%float) 0.3%float)
    (PrimFloat.mul history 0.2%float).

(** Sample states of the bus, on the test double of the platform: a bus of
    capacity 1 that has sent one envelope, and a bus on which the council
    channel has two subscribers. *)
Definition start_env : MessageBus.Env :=
  {| MessageBus.uuids_drawn := 0; MessageBus.clock := 1000 |}.

Definition first_report : Message.t :=
  @Message.new stub_runtime report_args "uuid-a" 1000.

Definition second_report : Message.t :=
  @Message.new stub_runtime report_args "uuid-b" 2000.

Definition council_channel_ops : list (@MessageBus.Op) :=
  [MessageBus.op_registerAgent "winston"; MessageBus.op_registerAgent "doctor";
   MessageBus.op_set_channel "council" ["winston"; "doctor"]].

(** A number that may be absent lies between 0 and 1. *)
Definition in_unit_interval (x : option JsNum.t) : Prop :=
  match x with
  | None => True
  | Some (JsNum.Fin q) => (0 <= q <= 1)%Q
  | Some _ => False
  end.

(** [reply.confidence] as a number; the undefined one compares like NaN. *)
Definition confidence_of (r : Reply) : JsNum.t :=
  match confidence r with Some c => c | None => JsNum.NaN end.

(** An entry that differs from another in the reported quality only. *)
Definition with_quality (q : option JsNum.t) (e : CompetitiveArchitecture.Entry)
  : CompetitiveArchitecture.Entry :=
  let r := CompetitiveArchitecture.e_result e in
  {| CompetitiveArchitecture.e_agent := CompetitiveArchitecture.e_agent e;
     CompetitiveArchitecture.e_codename := CompetitiveArchitecture.e_codename e;
     CompetitiveArchitecture.e_result :=
       {| vote := vote r; reasoning := reasoning r; quality := q;
          confidence := confidence r; data := data r; agent := agent r |};
     CompetitiveArchitecture.executionTime :=
       CompetitiveArchitecture.executionTime e |}.

(** The steps of a trace, numbered from [first] on. *)
Definition numbered {A} (first : nat) (l : list A) : list (nat * A) :=
  combine (seq first (length l)) l.

(** A sample entry of a competition. *)
Definition sample_entry (took : Z) : CompetitiveArchitecture.Entry :=
  {| CompetitiveArchitecture.e_agent := "doctor";
     CompetitiveArchitecture.e_codename := "The Surgeon";
     CompetitiveArchitecture.e_result :=
       {| vote := None; reasoning := None; quality := Some (JsNum.Fin 0);
          confidence := Some (JsNum.Fin 0.7); data := None; agent := None |};
     CompetitiveArchitecture.executionTime := took |}.

(** The subscribers of a channel ([channels.get(channel)], none when the
    channel does not exist) and the channels an agent's record lists. *)
Definition subscribers (channel : string) (b : MessageBus.t) : list string :=
  match MessageBus.channels b !! channel with Some s => s | None => [] end.

Definition subscriptions_of (agentId : string) (b : MessageBus.t) : list string :=
  match MessageBus.map_get agentId (MessageBus.agents b) with
  | Some record => MessageBus.subscriptions record
  | None => []
  end.

Definition registered (agentId : string) (b : MessageBus.t) : bool :=
  match MessageBus.map_get agentId (MessageBus.agents b) with
  | Some _ => true
  | None => false
  end.

(** Every envelope that was accepted is still in the history, was swept as
    expired, or was dropped at the front of a full history. *)
Definition accounted (b : MessageBus.t) : Prop :=
  (length (MessageBus.messageHistory b)
   + MessageBus.messagesExpired (MessageBus.metrics b)
   <= MessageBus.messagesSent (MessageBus.metrics b))%nat.

(** The filters of [queryHistory()] called without an argument. *)
Definition no_filters : MessageBus.Filters :=
  {| MessageBus.f_sender := None; MessageBus.f_recipient := None;
     MessageBus.f_type := None; MessageBus.f_after := None;
     MessageBus.f_before := None |}.

(** A bus on which doctor, registered, has been put on the council channel
    by assignment, as KenyaClawSwarm.setupChannels does. *)
Definition assigned_bus : MessageBus.t :=
  snd (@MessageBus.run stub_runtime council_channel_ops
         (start_env, MessageBus.new None)).

(** ** BaseAgent: the decision authority *)

Module DecisionAuthority.

(** Truthiness of a value. *)
Definition truthy (v : JsVal) : bool :=
  match v with
  | JUndefined | JNull => false
  | JBool b => b
  | JNum n => JsNum.truthy n
  | JStr s => negb (String.eqb s "")
  | JArr _ | JObj _ => true
  end.

(** [this.decisionAuthority[decisionType]] on an object literal given by
    its own properties: an own property, else a member inherited from
    [Object.prototype] (a function, or the prototype object for
    [__proto__]), else undefined. *)
Inductive Member :=
| own (v : JsVal)
| inherited
| undefined.

Definition lookup (decisionAuthority : list (string * JsVal)) (key : string)
  : Member :=
  match MessageBus.map_get key decisionAuthority with
  | Some v => own v
  | None =>
      if existsb (String.eqb key) inherited_names then inherited else undefined
  end.

(** [canDecide(decisionType, amount = 0)] *)
Definition canDecide (decisionAuthority : list (string * JsVal))
    (decisionType : string) (amount : option JsNum.t) : bool :=
  let amount := match amount with Some a => a | None => JsNum.Fin 0 end in
  match lookup decisionAuthority decisionType with
  | own authority =>
      if negb (truthy authority) then false
      else match authority with
           | JBool b => b
           | JNum n => JsNum.leb amount n
           | _ => false
           end
  | inherited => false   (* truthy, of type function or object *)
  | undefined => false
  end.

(** The tables the constructors of the five agents set. *)
Definition winston : list (string * JsVal) :=
  [("spending", JNum (JsNum.Fin 5000)); ("hiring", JBool true);
   ("strategic", JBool true); ("emergency", JBool false)].
Definition john_wick : list (string * JsVal) :=
  [("spending", JNum (JsNum.Fin 2000)); ("technical", JBool true);
   ("architecture", JBool true)].
Definition adjudicator : list (string * JsVal) :=
  [("spending", JNum (JsNum.Fin 10000)); ("financial", JBool true);
   ("canHaltSpending", JBool true)].
Definition doctor : list (string * JsVal) :=
  [("spending", JNum (JsNum.Fin 500)); ("emergencyPowers", JBool true);
   ("canActImmediately", JBool true)].
Definition charon : list (string * JsVal) :=
  [("spending", JNum (JsNum.Fin 500)); ("customerExperience", JBool true);
   ("refunds", JBool true)].

End DecisionAuthority.

(** ** SwarmOrchestrator: the selection of agents and the routing *)

Module Routing.

(** The elements of [scoredAgents]. *)
Record Scored := {
  agent : BaseAgent.t;
  score : JsNum.t;
  load : nat;
}.

Definition scoreAgent (task : Task) (a : BaseAgent.t) : Scored :=
  {| agent := a;
     score := SwarmOrchestrator.calculateAgentScore a task;
     load := match BaseAgent.metrics a with
             | Some m => BaseAgent.tasksCompleted m
             | None => 0%nat
             end |}.

(** The comparator [(a, b) => b.score - a.score]. *)
Definition comparator (a b : Scored) : JsNum.t := JsNum.sub (score b) (score a).

(** [array.sort(comparator)]: the sort is stable, and a comparator result
    that is NaN counts as 0. An element goes behind the elements of the
    sorted rest that the comparator puts strictly before it. For a
    comparator that orders the elements consistently, as this one does on
    the qualified agents (their scores are above 0.3, so none is NaN), every
    stable sort returns this list. *)
Fixpoint insert (x : Scored) (sorted : list Scored) : list Scored :=
  match sorted with
  | [] => [x]
  | y :: rest =>
      if JsNum.gtb (comparator x y) (JsNum.Fin 0)
      then y :: insert x rest
      else x :: sorted
  end.

Definition sort (l : list Scored) : list Scored := fold_right insert [] l.

(** [selected.includes(agent)]: the registry holds one agent object per
    id, so the objects are told apart by their ids. *)
Definition includes (selected : list BaseAgent.t) (a : BaseAgent.t) : bool :=
  existsb (fun x => String.eqb (BaseAgent.id x) (BaseAgent.id a)) selected.

(** The first loop of [selectDiverseAgents]: agents of roles not yet
    taken. *)
Fixpoint prefer_new_roles (scoredAgents : list Scored) (count : nat)
    (selected : list BaseAgent.t) (roles : list string) : list BaseAgent.t :=
  match scoredAgents with
  | [] => selected
  | scored :: rest =>
      if (count <=? length selected)%nat then selected
      else if MessageBus.set_has (BaseAgent.role (agent scored)) roles
      then prefer_new_roles rest count selected roles
      else prefer_new_roles rest count (selected ++ [agent scored])
             (MessageBus.set_add (BaseAgent.role (agent scored)) roles)
  end.

(** The second loop: the remaining slots, best first. *)
Fixpoint fill (scoredAgents : list Scored) (count : nat)
    (selected : list BaseAgent.t) : list BaseAgent.t :=
  match scoredAgents with
  | [] => selected
  | scored :: rest =>
      if (count <=? length selected)%nat then selected
      else if includes selected (agent scored)
      then fill rest count selected
      else fill rest count (selected ++ [agent scored])
  end.

Definition selectDiverseAgents (scoredAgents : list Scored) (count : nat)
  : list BaseAgent.t :=
  fill scoredAgents count (prefer_new_roles scoredAgents count [] []).

Definition roleOrder : list string := ["CFO"; "CTO"; "COO"; "CCO"].

(** [orderByDependencies(scoredAgents, task)] *)
Definition orderByDependencies (scoredAgents : list Scored) (task : Task)
  : list BaseAgent.t :=
  let ordered :=
    List.flat_map
      (fun role =>
         match List.find (fun s => String.eqb (BaseAgent.role (agent s)) role)
                 scoredAgents with
         | Some s => [agent s]
         | None => []
         end) roleOrder in
  fold_left (fun ordered scored =>
               if includes ordered (agent scored) then ordered
               else ordered ++ [agent scored])
    scoredAgents ordered.

(** The qualified agents, sorted: the agents of the registry (the values of
    [messageBus.agents], in the order of registration) but the orchestrator
    itself, whose score exceeds 0.3, by descending score. *)
Definition qualifiedAgents (self : string) (registry : list BaseAgent.t)
    (task : Task) : list Scored :=
  let allAgents :=
    List.filter (fun a => negb (String.eqb (BaseAgent.id a) self)) registry in
  let scoredAgents := List.map (scoreAgent task) allAgents in
  sort (List.filter (fun s => JsNum.gtb (score s) (JsNum.Fin 0.3)) scoredAgents).

(** [selectAgents(task, architecture)] of the orchestrator [self] attached
    to a bus with the given registry. *)
Definition selectAgents (self : string) (registry : list BaseAgent.t)
    (task : Task) (architecture : string) : list BaseAgent.t :=
  let qualifiedAgents := qualifiedAgents self registry task in
  if String.eqb architecture "council"
  then selectDiverseAgents qualifiedAgents 3
  else if String.eqb architecture "emergency"
  then List.map agent (firstn 1 qualifiedAgents)
  else if String.eqb architecture "concurrent"
  then List.map agent (firstn 3 qualifiedAgents)
  else if String.eqb architecture "sequential"
  then orderByDependencies qualifiedAgents task
  else if String.eqb architecture "competitive"
  then selectDiverseAgents qualifiedAgents 3
  else List.map agent (firstn 1 qualifiedAgents).

(** An entry of [taskHistory]. *)
Record TaskRecord := {
  r_id : option string;
  r_type : string;
  r_architecture : string;
  r_agents : list string;
  r_result : option string;
  r_timestamp : Z;
}.

(** [`${architectureName}`] *)
Definition architectureName (s : SwarmOrchestrator.Selected) : string :=
  match s with
  | SwarmOrchestrator.selected_name n => n
  | SwarmOrchestrator.selected_object _ => "[object Object]"
  end.

Section RouteTask.
Context {Outcome : Type}.
(** [result.status] of what an implementation returns. *)
Variable status_of : Outcome -> option string.
(** [this.architectures.get(name)]: the implementations registered, by
    their [execute]. *)
Variable architectures :
  string -> option (Task -> list BaseAgent.t -> list Call * result Outcome).

(** [routeTask(task)] of the orchestrator [self], attached to a bus with
    the given registry: the history afterwards, the queries made and what
    the call returns; [finished] is the clock reading when the
    implementation has returned. A value [selectArchitecture] returns that
    is no string is no key of the map. *)
Definition routeTask (self : string) (registry : list BaseAgent.t)
    (finished : Z) (task : Task) (taskHistory : list TaskRecord)
  : list TaskRecord * (list Call * result Outcome) :=
  match SwarmOrchestrator.selectArchitecture task with
  | Throw e => (taskHistory, ([], Throw e))
  | Ok selected =>
      match match selected with
            | SwarmOrchestrator.selected_name n => architectures n
            | SwarmOrchestrator.selected_object _ => None
            end with
      | None =>
          (taskHistory,
           ([], Throw (Error ("Unknown architecture: "
                              ++ architectureName selected)%string)))
      | Some execute =>
          let agents :=
            selectAgents self registry task (architectureName selected) in
          match execute task agents with
          | (calls, Throw e) => (taskHistory, (calls, Throw e))
          | (calls, Ok result) =>
              (taskHistory
               ++ [{| r_id := task_id task; r_type := task_type task;
                      r_architecture := architectureName selected;
                      r_agents := List.map BaseAgent.id agents;
                      r_result := status_of result;
                      r_timestamp := finished |}],
               (calls, Ok result))
          end
      end
  end.

End RouteTask.

(** What the five implementations the constructor registers return. *)
Inductive Outcome :=
| council (r : CouncilArchitecture.Result)
| emergency (r : EmergencyArchitecture.Result)
| concurrent (r : ConcurrentArchitecture.Result)
| sequential (r : SequentialArchitecture.Result)
| competitive (r : CompetitiveArchitecture.Result).

Definition status_of (o : Outcome) : option string :=
  Some match o with
       | council r => CouncilArchitecture.status r
       | emergency r => EmergencyArchitecture.status r
       | concurrent r => ConcurrentArchitecture.status r
       | sequential r => SequentialArchitecture.status r
       | competitive r => CompetitiveArchitecture.status r
       end.

Definition returning {A} (f : A -> Outcome) (x : list Call * result A)
  : list Call * result Outcome :=
  (fst x, match snd x with Ok r => Ok (f r) | Throw e => Throw e end).

(** The map the constructor fills. *)
Definition architectures (name : string)
  : option (Task -> list BaseAgent.t -> list Call * result Outcome) :=
  if String.eqb name "council"
  then Some (fun t a => returning council (CouncilArchitecture.execute t a))
  else if String.eqb name "emergency"
  then Some (fun t a => returning emergency (EmergencyArchitecture.execute t a))
  else if String.eqb name "concurrent"
  then Some (fun t a => returning concurrent (ConcurrentArchitecture.execute t a))
  else if String.eqb name "sequential"
  then Some (fun t a => returning sequential (SequentialArchitecture.execute t a))
  else if String.eqb name "competitive"
  then Some (fun t a => returning competitive (CompetitiveArchitecture.execute t a))
  else None.

End Routing.

(** ** KenyaClawSwarm *)

Module KenyaClawSwarm.

(** An agent as its constructor leaves it; its [query] is the one of
    BaseAgent. *)
Definition make (sends : nat -> Promise.SendBehaviour)
    (id codename role : string) (skills : list string) : BaseAgent.t :=
  {| BaseAgent.id := id; BaseAgent.codename := codename;
     BaseAgent.role := role; BaseAgent.skills := skills;
     BaseAgent.status := "idle";
     BaseAgent.metrics := Some BaseAgent.initial_metrics;
     BaseAgent.await_query := BaseAgent.awaited sends |}.

Section Agents.
Variable sends : nat -> Promise.SendBehaviour.

Definition SwarmOrchestrator : BaseAgent.t :=
  make sends "winston" "The Manager" "CEO"
    ["orchestration"; "strategy"; "coordination"; "decision_making"].
Definition JohnWickAgent : BaseAgent.t :=
  make sends "john-wick" "Baba Yaga" "CTO"
    ["infrastructure"; "architecture"; "security"; "devops"].
Definition AdjudicatorAgent : BaseAgent.t :=
  make sends "adjudicator" "The Judge" "CFO"
    ["finance"; "accounting"; "audit"; "compliance"].
Definition DoctorAgent : BaseAgent.t :=
  make sends "doctor" "The Surgeon" "COO"
    ["incident_response"; "system_monitoring"; "devops"].
Definition CharonAgent : BaseAgent.t :=
  make sends "charon" "The Gatekeeper" "CCO"
    ["customer_service"; "onboarding"; "support"].

(** The swarm: whether it is initialized, the registry of its bus and the
    task history of its orchestrator. *)
Record t := {
  initialized : bool;
  registry : list BaseAgent.t;
  taskHistory : list Routing.TaskRecord;
}.

(** [new KenyaClawSwarm()] and the state [initialize()] leaves: the
    orchestrator is registered first, then the four agents. *)
Definition new : t :=
  {| initialized := false; registry := []; taskHistory := [] |}.

Definition initialize (s : t) : t :=
  if initialized s then s
  else {| initialized := true;
          registry := [SwarmOrchestrator; JohnWickAgent; AdjudicatorAgent;
                       DoctorAgent; CharonAgent];
          taskHistory := taskHistory s |}.

(** [submitTask(task)]: [id] is the identifier generated for the task (the
    caller's task has none), [finished] the clock reading when the strategy
    has returned. *)
Definition submitTask (id : string) (finished : Z) (task : Task) (s : t)
  : t * result Routing.Outcome :=
  if negb (initialized s)
  then (s, Throw (Error "Swarm not initialized. Call initialize() first."))
  else
    let enrichedTask :=
      {| task_id := match task_id task with Some i => Some i | None => Some id end;
         task_type := task_type task; description := description task;
         amount := amount task; task_sender := task_sender task;
         severity := severity task; requiredSkills := requiredSkills task;
         preferredRole := preferredRole task;
         synthesisType := synthesisType task |} in
    let (history, outcome) :=
      Routing.routeTask Routing.status_of Routing.architectures "winston"
        (registry s) finished enrichedTask (taskHistory s) in
    ({| initialized := initialized s; registry := registry s;
        taskHistory := history |}, snd outcome).

Definition requestSpendingApproval (id : string) (finished : Z)
    (the_amount : JsNum.t) (the_description : string) (s : t)
  : t * result Routing.Outcome :=
  submitTask id finished
    {| task_id := None; task_type := "financial_approval";
       description := Some the_description; amount := Some the_amount;
       task_sender := None; severity := None;
       requiredSkills := Some ["finance"; "treasury"];
       preferredRole := None; synthesisType := None |} s.

Definition reportIncident (id : string) (finished : Z)
    (the_severity the_description : string) (s : t)
  : t * result Routing.Outcome :=
  submitTask id finished
    {| task_id := None; task_type := "system_alert";
       description := Some the_description; amount := None;
       task_sender := None; severity := Some the_severity;
       requiredSkills := Some ["incident_response"; "operations"];
       preferredRole := None; synthesisType := None |} s.

(** [customerInquiry(customerId, topic)]; the two fields it adds to the
    task are read by nothing that is modelled. *)
Definition customerInquiry (id : string) (finished : Z) (s : t)
  : t * result Routing.Outcome :=
  submitTask id finished
    {| task_id := None; task_type := "customer_inquiry";
       description := None; amount := None;
       task_sender := None; severity := None;
       requiredSkills := Some ["customer_service"];
       preferredRole := None; synthesisType := None |} s.

End Agents.

End KenyaClawSwarm.

(** The updates [updateMetrics] receives one after the other. *)
Definition updated (updates : list (Z * bool)) (m : BaseAgent.Metrics)
  : BaseAgent.Metrics :=
  fold_left (fun m u => BaseAgent.updateMetrics (fst u) (snd u) m) updates m.

(** The names under which the constructor registers the five
    implementations. *)
Definition registered_names : list string :=
  ["council"; "emergency"; "concurrent"; "sequential"; "competitive"].

(** Whether the orchestrator [self] takes an agent into account for a
    task. *)
Definition qualifies (self : string) (task : Task) (a : BaseAgent.t) : bool :=
  negb (String.eqb (BaseAgent.id a) self)
  && JsNum.gtb (SwarmOrchestrator.calculateAgentScore a task) (JsNum.Fin 0.3).

(** An agent with the identity of the Doctor and the given skills and
    status. *)
Definition agent_with (skills : list string) (status : string) : BaseAgent.t :=
  {| BaseAgent.id := "doctor"; BaseAgent.codename := "The Surgeon";
     BaseAgent.role := "COO"; BaseAgent.skills := skills;
     BaseAgent.status := status;
     BaseAgent.metrics := Some BaseAgent.initial_metrics;
     BaseAgent.await_query := BaseAgent.awaited prompt_sends |}.

Definition incident_task : Task :=
  {| task_id := Some "task-1"; task_type := "system_alert"; description := None;
     amount := None; task_sender := None; severity := Some "high";
     requiredSkills := Some ["incident_response"; "operations"];
     preferredRole := None; synthesisType := None |}.

(** Two scored agents have the score [v]. *)
Definition same_score (v : JsNum.t) (s : Routing.Scored) : bool :=
  JsNum.leb v (Routing.score s) && JsNum.leb (Routing.score s) v.

(** The computations on rounded numbers (IEEE 754 binary64), to check the
    bounds and the comparisons below against rounding: [x || d], the score
    of an agent given the two counts of the skill term, the score of an
    entry of a competition, and the two tests of expiry. *)
Definition double_or (x : option float) (d : float) : float :=
  match x with
  | Some r => if PrimFloat.is_zero r || PrimFloat.is_nan r then d else r
  | None => d
  end.

Definition calculateAgentScore_double (skill : option (float * float))
    (idle : bool) (successRate : option float) (role_bonus : bool) : float :=
  let score := 0%float in
  let score :=
    match skill with
    | Some (matching, required) =>
        PrimFloat.add score (PrimFloat.mul (PrimFloat.div matching required) 0.4%float)
    | None => PrimFloat.add score 0.2%float
    end in
  let score := PrimFloat.add score (if idle then 0.3%float else 0.1%float) in
  let score :=
    PrimFloat.add score (PrimFloat.mul (double_or successRate 0.8%float) 0.2%float) in
  if role_bonus then PrimFloat.add score 0.1%float else score.

Definition max_double (a b : float) : float :=
  if PrimFloat.is_nan a || PrimFloat.is_nan b then PrimFloat.nan
  else if PrimFloat.leb a b then b else a.

Definition evaluateResult_double (quality : option float) (executionTime : float)
    (confidence : option float) : float :=
  let score := 0%float in
  let score :=
    PrimFloat.add score (PrimFloat.mul (double_or quality 0.5%float) 0.6%float) in
  let speedScore :=
    max_double 0%float
      (PrimFloat.sub 1%float (PrimFloat.div executionTime 30000%float)) in
  let score := PrimFloat.add score (PrimFloat.mul speedScore 0.3%float) in
  PrimFloat.add score (PrimFloat.mul (double_or confidence 0.5%float) 0.1%float).

Definition isExpired_double (now timestamp ttl : float) : bool :=
  PrimFloat.ltb ttl (PrimFloat.div (PrimFloat.sub now timestamp) 1000%float).

Definition expired_double (now timestamp ttl : float) : bool :=
  PrimFloat.ltb (PrimFloat.add timestamp (PrimFloat.mul ttl 1000%float)) now.

(** * Properties *)

(** ** Numbers *)

Lemma Qle_bool_false_iff (x y : Q) : Qle_bool x y = false <-> (y < x)%Q.
Proof.
  split; intro H.
  - apply Qnot_le_lt. intro Hle. apply Qle_bool_iff in Hle. congruence.
  - destruct (Qle_bool x y) eqn:E; [|reflexivity].
    apply Qle_bool_iff in E. exfalso. apply (Qlt_not_le _ _ H E).
Qed.

Lemma Qeq_bool_false_iff (x y : Q) : Qeq_bool x y = false <-> ~ (x == y)%Q.
Proof.
  split; intro H.
  - intro E. apply Qeq_bool_iff in E. congruence.
  - destruct (Qeq_bool x y) eqn:E; [|reflexivity].
    apply Qeq_bool_iff in E. contradiction.
Qed.

(** Tactics: case analysis on the comparisons of rationals, then linear
    arithmetic. *)
Ltac q_bools :=
  repeat match goal with
  | |- context [Qle_bool ?x ?y] =>
      let E := fresh "E" in
      destruct (Qle_bool x y) eqn:E;
      [apply Qle_bool_iff in E | apply Qle_bool_false_iff in E]
  | |- context [Qeq_bool ?x ?y] =>
      let E := fresh "E" in
      destruct (Qeq_bool x y) eqn:E;
      [apply Qeq_bool_iff in E | apply Qeq_bool_false_iff in E]
  | H : context [Qle_bool ?x ?y] |- _ =>
      let E := fresh "E" in
      destruct (Qle_bool x y) eqn:E;
      [apply Qle_bool_iff in E | apply Qle_bool_false_iff in E]
  | H : context [Qeq_bool ?x ?y] |- _ =>
      let E := fresh "E" in
      destruct (Qeq_bool x y) eqn:E;
      [apply Qeq_bool_iff in E | apply Qeq_bool_false_iff in E]
  end.

Ltac js_arith :=
  unfold JsNum.ltb, JsNum.gtb, JsNum.geb, JsNum.leb, JsNum.add, JsNum.mul,
    JsNum.truthy, JsNum.Qsign_neg in *;
  q_bools; cbn in *; try reflexivity; try discriminate; try lra.

(** The ratio of two counts, as the code computes it. *)
Lemma ratio_of_counts (a n : nat) :
  JsNum.div (JsNum.of_nat a) (JsNum.of_nat n) =
  if Nat.eqb n 0
  then (if Nat.eqb a 0 then JsNum.NaN else JsNum.Inf false)
  else JsNum.Fin (inject_Z (Z.of_nat a) / inject_Z (Z.of_nat n)).
Proof.
  unfold JsNum.div, JsNum.of_nat.
  destruct n as [|n].
  - destruct a as [|a]; [reflexivity|].
    change (Qeq_bool (inject_Z (Z.of_nat 0)) 0) with true. cbv iota.
    assert (Ha : Qeq_bool (inject_Z (Z.of_nat (S a))) 0 = false).
    { apply Qeq_bool_false_iff. unfold Qeq, inject_Z. simpl. lia. }
    rewrite Ha. simpl Nat.eqb. cbv iota.
    assert (Hs : JsNum.Qsign_neg (inject_Z (Z.of_nat (S a))) = false).
    { unfold JsNum.Qsign_neg. apply andb_false_iff. left.
      apply Qle_bool_false_iff. unfold Qlt, inject_Z. simpl. lia. }
    now rewrite Hs.
  - assert (Hn : Qeq_bool (inject_Z (Z.of_nat (S n))) 0 = false).
    { apply Qeq_bool_false_iff. unfold Qeq, inject_Z. simpl. lia. }
    now rewrite Hn.
Qed.

(** For a ratio of counts with fewer than fifty in the denominator, the
    thresholds 0.66 and 2/3 decide alike. *)
Lemma threshold_066_is_two_thirds_below_50 (a n : nat) :
  (0 < n < 50)%nat ->
  Qle_bool 0.66 (inject_Z (Z.of_nat a) / inject_Z (Z.of_nat n)) =
  Qle_bool (2 # 3) (inject_Z (Z.of_nat a) / inject_Z (Z.of_nat n)).
Proof.
  intros [Hpos Hlt].
  destruct n as [|n']; [lia|].
  replace (Z.of_nat (S n')) with (Z.pos (Pos.of_succ_nat n')) by reflexivity.
  generalize (Z.of_nat a). intro za.
  destruct (Qle_bool (2 # 3) _) eqn:E23.
  - apply Qle_bool_iff in E23. apply Qle_bool_iff.
    unfold Qle, Qdiv, Qmult, Qinv, inject_Z in *. simpl in *. lia.
  - apply Qle_bool_false_iff in E23. apply Qle_bool_false_iff.
    unfold Qlt, Qdiv, Qmult, Qinv, inject_Z in *. simpl in *. lia.
Qed.

(** ** C1: the council *)

Section Council.
Import CouncilArchitecture.

Lemma approvals_le_length (vs : list Vote) : (approvals vs <= length vs)%nat.
Proof. unfold approvals. apply List.filter_length_le. Qed.

(** The result of a council: it always returns; the ratio is the number of
    approve votes over the number of votes; the status follows the test
    against 0.66. *)
Lemma council_result (task : Task) (agents : list BaseAgent.t) :
  exists r,
    snd (execute task agents) = Ok r
    /\ votes r = List.map (gatherVote (make_proposal task)) agents
    /\ consensus r =
         JsNum.div (JsNum.of_nat (approvals (votes r)))
                   (JsNum.of_nat (length (votes r)))
    /\ status r = (if JsNum.geb (consensus r) (JsNum.Fin 0.66)
                   then "approved" else "rejected").
Proof. eexists. repeat split; reflexivity. Qed.

(** X1: the consensus ratio of a council with at least one member is a
    number between 0 and 1. *)
Lemma council_ratio_bounds (task : Task) (agents : list BaseAgent.t) (r : Result) :
  snd (execute task agents) = Ok r -> agents <> [] ->
  exists q, consensus r = JsNum.Fin q /\ (0 <= q <= 1)%Q.
Proof.
  intros H Hne.
  destruct (council_result task agents) as (r' & Hr & Hv & Hc & _).
  rewrite H in Hr. injection Hr as <-.
  rewrite Hc, ratio_of_counts.
  pose proof (approvals_le_length (votes r)) as Hle.
  destruct (length (votes r)) as [|n] eqn:En.
  - rewrite Hv, length_map in En. destruct agents; [congruence|discriminate].
  - cbn [Nat.eqb]. eexists. split; [reflexivity|].
    generalize dependent (approvals (votes r)). intros a Ha.
    unfold Qle, Qdiv, Qmult, Qinv, inject_Z. simpl. lia.
Qed.

(** X2: with fewer than fifty votes the status is approved exactly when the
    ratio is at least 2/3. *)
Lemma council_two_thirds_below_fifty (task : Task) (agents : list BaseAgent.t)
    (r : Result) :
  snd (execute task agents) = Ok r -> (length agents < 50)%nat ->
  (status r = "approved" <-> JsNum.geb (consensus r) (JsNum.Fin (2 # 3)) = true).
Proof.
  intros H Hlt.
  destruct (council_result task agents) as (r' & Hr & Hv & Hc & Hs).
  rewrite H in Hr. injection Hr as <-.
  rewrite Hs, Hc, ratio_of_counts.
  pose proof (approvals_le_length (votes r)) as Hle.
  assert (Hn : length (votes r) = length agents) by (rewrite Hv; apply length_map).
  rewrite Hn in *.
  destruct (length agents) as [|n] eqn:En.
  - assert (Ha : approvals (votes r) = 0%nat) by lia.
    rewrite Ha. cbn. split; discriminate.
  - cbn [Nat.eqb]. unfold JsNum.geb, JsNum.leb.
    rewrite threshold_066_is_two_thirds_below_50 by lia.
    destruct (Qle_bool (2 # 3) _); split; intro; congruence.
Qed.

(** The constant 0.66 of the test and the 2/3 of its comment part ways at
    fifty votes, more than any council the orchestrator forms: of fifty
    votes thirty-three approve; the ratio 33/50 is below 2/3, and the test
    passes. *)
Remark council_approves_below_two_thirds :
  exists r,
    snd (execute (sample_task "financial_approval") council_of_fifty) = Ok r
    /\ length (votes r) = 50%nat
    /\ approvals (votes r) = 33%nat
    /\ consensus r = JsNum.Fin (33 # 50)
    /\ JsNum.geb (consensus r) (JsNum.Fin (2 # 3)) = false
    /\ status r = "approved".
Proof. eexists. repeat split; vm_compute; reflexivity. Qed.

(** The same on doubles: 33 / 50 passes the test against 0.66 and is below
    2 / 3. *)
Example council_of_fifty_on_doubles :
  approved_double 33 50 = true
  /\ PrimFloat.ltb (PrimFloat.div 33 50) (PrimFloat.div 2 3) = true.
Proof. split; vm_compute; reflexivity. Qed.

End Council.

(** ** C4: the score of an agent *)

Section Score.
Import SwarmOrchestrator.

(** The sum never decreases when a term grows. *)
Lemma score_total_monotone (x1 x2 s1 s2 r1 r2 : JsNum.t) (bonus : bool) :
  no_more x1 x2 -> no_more s1 s2 -> no_more r1 r2 ->
  JsNum.ltb (score_total x2 s2 r2 bonus) (score_total x1 s1 r1 bonus) = false.
Proof.
  unfold score_total, no_more.
  intros [<- | Hx] [<- | Hs] [<- | Hr];
  destruct x1 as [x1|[]|]; try destruct x2 as [x2|[]|];
  destruct s1 as [s1|[]|]; try destruct s2 as [s2|[]|];
  destruct r1 as [r1|[]|]; try destruct r2 as [r2|[]|];
  destruct bonus; cbn in *; try discriminate; try reflexivity; js_arith.
Qed.

Lemma calculateAgentScore_terms (a : BaseAgent.t) (task : Task) :
  calculateAgentScore a task =
  score_total (skill_term a task) (availability_term a) (history_term a)
    (role_matches a task).
Proof.
  unfold calculateAgentScore, score_total, skill_term, availability_term,
    history_term, role_matches.
  destruct (requiredSkills task), (preferredRole task) as [r|]; try reflexivity;
    destruct (negb (r =? "") && (BaseAgent.role a =? r)); reflexivity.
Qed.

Lemma matchingSkills_none (l : list string) : matchingSkills l [] = 0%nat.
Proof.
  unfold matchingSkills. induction l as [|s l IH]; [reflexivity|exact IH].
Qed.

(** The skill term follows the number of matching skills. *)
Lemma skill_term_monotone (a b : BaseAgent.t) (task : Task) :
  (forall required, requiredSkills task = Some required ->
     (matchingSkills (BaseAgent.skills a) required
      <= matchingSkills (BaseAgent.skills b) required)%nat) ->
  no_more (skill_term a task) (skill_term b task).
Proof.
  intro H. unfold skill_term.
  destruct (requiredSkills task) as [required|]; [|left; reflexivity].
  specialize (H required eq_refl).
  rewrite !ratio_of_counts.
  destruct (length required) as [|n] eqn:En.
  - apply length_zero_iff_nil in En. subst required.
    rewrite !matchingSkills_none. left. reflexivity.
  - cbn [Nat.eqb]. right. cbn.
    apply Qle_bool_iff.
    generalize dependent (matchingSkills (BaseAgent.skills a) required).
    generalize (matchingSkills (BaseAgent.skills b) required).
    intros mb ma Hle.
    unfold Qle, Qplus, Qdiv, Qmult, Qinv, inject_Z. simpl. nia.
Qed.

(** X4: the score is monotone in the skill overlap, status and history
    being the same. *)
Lemma score_monotone_in_skill_overlap (a b : BaseAgent.t) (task : Task) :
  same_identity a b -> BaseAgent.status a = BaseAgent.status b ->
  BaseAgent.metrics a = BaseAgent.metrics b ->
  (forall required, requiredSkills task = Some required ->
     (matchingSkills (BaseAgent.skills a) required
      <= matchingSkills (BaseAgent.skills b) required)%nat) ->
  JsNum.ltb (calculateAgentScore b task) (calculateAgentScore a task) = false.
Proof.
  intros (_ & _ & Hrole) Hst Hm Hsk.
  rewrite !calculateAgentScore_terms.
  replace (role_matches b task) with (role_matches a task)
    by (unfold role_matches; now rewrite Hrole).
  apply score_total_monotone.
  - now apply skill_term_monotone.
  - left. unfold availability_term. now rewrite Hst.
  - left. unfold history_term, recorded_successRate. now rewrite Hm.
Qed.

(** X5: the score is monotone in availability: an idle agent never scores
    below an agent that is alike but for its status. *)
Lemma score_monotone_in_availability (a b : BaseAgent.t) (task : Task) :
  same_identity a b -> BaseAgent.skills a = BaseAgent.skills b ->
  BaseAgent.metrics a = BaseAgent.metrics b ->
  BaseAgent.status b = "idle" ->
  JsNum.ltb (calculateAgentScore b task) (calculateAgentScore a task) = false.
Proof.
  intros (_ & _ & Hrole) Hsk Hm Hidle.
  rewrite !calculateAgentScore_terms.
  replace (role_matches b task) with (role_matches a task)
    by (unfold role_matches; now rewrite Hrole).
  apply score_total_monotone.
  - left. unfold skill_term. now rewrite Hsk.
  - unfold availability_term. rewrite Hidle. cbn.
    destruct (BaseAgent.status a =? "idle"); [left|right]; reflexivity.
  - left. unfold history_term, recorded_successRate. now rewrite Hm.
Qed.

(** X6: the score is monotone in the recorded success rate, as long as the
    lower rate is not the falsy 0. *)
Lemma score_monotone_in_nonzero_success_rate (a : BaseAgent.t) (task : Task)
    (lo hi : JsNum.t) :
  JsNum.truthy lo = true -> JsNum.leb lo hi = true ->
  JsNum.ltb (calculateAgentScore (with_successRate hi a) task)
            (calculateAgentScore (with_successRate lo a) task) = false.
Proof.
  intros Ht Hle.
  rewrite !calculateAgentScore_terms.
  change (role_matches (with_successRate hi a) task)
    with (role_matches (with_successRate lo a) task).
  apply score_total_monotone; [left; reflexivity | left; reflexivity |].
  unfold history_term, recorded_successRate, with_successRate. cbn.
  rewrite Ht. right.
  destruct lo as [lo|[]|], hi as [hi|[]|]; cbn in *; try discriminate;
    try reflexivity; js_arith; apply Qle_bool_iff; lra.
Qed.

(** A first task that fails records the success rate 0. *)
Lemma failed_first_task_records_zero (responseTime : Z) :
  BaseAgent.successRate
    (BaseAgent.updateMetrics responseTime false BaseAgent.initial_metrics)
  = JsNum.Fin 0.
Proof. reflexivity. Qed.

(** C4, at the failing input: two agents alike except for the recorded
    success rate, 0 for one and 1/2 for the other; the recorded 0 is
    replaced by the default 0.8, and the agent with the higher rate scores
    strictly lower. *)
Theorem score_not_monotone_in_success_rate :
  let a := plain_agent "doctor" "COO" in
  let task := sample_task "system_alert" in
  JsNum.leb (JsNum.Fin 0) (JsNum.Fin 0.5) = true
  /\ JsNum.same (calculateAgentScore (with_successRate (JsNum.Fin 0) a) task)
                (JsNum.Fin 0.66)
  /\ JsNum.same (calculateAgentScore (with_successRate (JsNum.Fin 0.5) a) task)
                (JsNum.Fin 0.6)
  /\ JsNum.ltb (calculateAgentScore (with_successRate (JsNum.Fin 0.5) a) task)
               (calculateAgentScore (with_successRate (JsNum.Fin 0) a) task) = true.
Proof. repeat split; vm_compute; reflexivity. Qed.

(** The same on doubles: the recorded rate 0 counts as the default 0.8, and
    the score with the rate 0.5 is below it. *)
Example success_rate_on_doubles :
  PrimFloat.ltb (score_double 0.5) (score_double 0.8) = true.
Proof. vm_compute. reflexivity. Qed.

End Score.

(** ** C5: the choice of the architecture *)

Section SelectArchitecture.
Import SwarmOrchestrator.

Lemma patterns_keys (key : string) :
  patterns !! key = None <-> ~ In key rule_keys.
Proof.
  unfold patterns. rewrite <- not_elem_of_list_to_map.
  rewrite list_elem_of_In. reflexivity.
Qed.

Lemma Object_prototype_names (key : string) :
  Object_prototype key = None <-> ~ In key inherited_names.
Proof.
  unfold Object_prototype, inherited_names.
  split.
  - intros H Hin. cbn in Hin.
    repeat (destruct Hin as [<- | Hin]; [vm_compute in H; discriminate|]).
    exact Hin.
  - intro H. cbn in H. cbn [existsb].
    repeat match goal with
    | |- context [String.eqb key ?k] =>
        destruct (String.eqb_spec key k) as [-> | ?]; [exfalso; apply H; tauto|]
    end.
    cbn. reflexivity.
Qed.

(** The rule for financial approvals. *)
Lemma selectArchitecture_financial_approval (t : Task) :
  task_type t = "financial_approval" ->
  selectArchitecture t =
  Ok (selected_name (if amount_exceeds_500 t then "council" else "sequential")).
Proof.
  intro H. unfold selectArchitecture, amount_exceeds_500. rewrite H.
  replace (patterns !! "financial_approval")
    with (Some (fun t : Task =>
                  match amount t with
                  | Some a => if JsNum.gtb a (JsNum.Fin 500)
                              then "council" else "sequential"
                  | None => "sequential"
                  end))
    by (vm_compute; reflexivity).
  destruct (amount t); reflexivity.
Qed.

(** The rule for system alerts. *)
Lemma selectArchitecture_system_alert (t : Task) :
  task_type t = "system_alert" ->
  selectArchitecture t =
  Ok (selected_name (if severity_is_critical t then "emergency" else "concurrent")).
Proof.
  intro H. unfold selectArchitecture, severity_is_critical. rewrite H.
  replace (patterns !! "system_alert")
    with (Some (fun t : Task =>
                  match severity t with
                  | Some s => if String.eqb s "critical"
                              then "emergency" else "concurrent"
                  | None => "concurrent"
                  end))
    by (vm_compute; reflexivity).
  destruct (severity t); reflexivity.
Qed.

(** A type that is no key of the table and no inherited name takes the
    default. *)
Lemma selectArchitecture_default (t : Task) :
  ~ In (task_type t) rule_keys -> ~ In (task_type t) inherited_names ->
  selectArchitecture t = Ok (selected_name "sequential").
Proof.
  intros Hk Hn. unfold selectArchitecture.
  apply patterns_keys in Hk. apply Object_prototype_names in Hn.
  rewrite Hk, Hn.
  replace (patterns !! "default") with (Some (fun _ : Task => "sequential"))
    by (vm_compute; reflexivity).
  reflexivity.
Qed.

(** C5, at the failing input: the type toString is no key of the rule
    table, yet the lookup finds the member inherited from Object.prototype;
    the call returns its tag of undefined, not sequential. The same holds
    for the other inherited names: constructor returns the task itself and
    valueOf throws. *)
Theorem selectArchitecture_inherited_member :
  ~ In "toString" rule_keys
  /\ selectArchitecture (sample_task "toString")
     = Ok (selected_name "[object Undefined]")
  /\ selectArchitecture (sample_task "toString")
     <> Ok (selected_name "sequential")
  /\ selectArchitecture (sample_task "constructor")
     = Ok (selected_object (sample_task "constructor"))
  /\ selectArchitecture (sample_task "valueOf")
     = Throw (TypeError "Cannot convert undefined or null to object").
Proof.
  split; [|split; [|split; [|split]]].
  - cbn. intros H. repeat (destruct H as [H | H]; [discriminate|]). exact H.
  - vm_compute. reflexivity.
  - vm_compute. discriminate.
  - vm_compute. reflexivity.
  - vm_compute. reflexivity.
Qed.

End SelectArchitecture.

(** ** C2: the sequential pipeline *)

Section Sequential.
Import SequentialArchitecture.

(** C2, counterexample: the second of three agents keeps the query of
    BaseAgent, which times out; [execute] returns no result at all, so no
    partial trace either: the rejection reaches the caller. *)
Lemma sequential_returns_no_partial_trace :
  snd (execute (sample_task "strategic_planning")
         [helpful "adjudicator" "CFO"; plain_agent "john-wick" "CTO";
          helpful "doctor" "COO"])
  = Throw (QueryTimedOut "john-wick" 30000)
  /\ (forall r,
        snd (execute (sample_task "strategic_planning")
               [helpful "adjudicator" "CFO"; plain_agent "john-wick" "CTO";
                helpful "doctor" "COO"]) <> Ok r).
Proof.
  assert (H : snd (execute (sample_task "strategic_planning")
                     [helpful "adjudicator" "CFO"; plain_agent "john-wick" "CTO";
                      helpful "doctor" "COO"])
              = Throw (QueryTimedOut "john-wick" 30000))
    by (vm_compute; reflexivity).
  split; [exact H|]. intros r Hr. rewrite H in Hr. discriminate.
Qed.

End Sequential.

(** ** C3: the fan-out strategies *)

Section FanOut.

Lemma fulfilled_values_app {A} (l1 l2 : list (Z * result A)) :
  fulfilled_values (l1 ++ l2) = fulfilled_values l1 ++ fulfilled_values l2.
Proof. unfold fulfilled_values. apply flat_map_app. Qed.

Lemma rejection_reasons_app {A} (l1 l2 : list (Z * result A)) :
  rejection_reasons (l1 ++ l2) = rejection_reasons l1 ++ rejection_reasons l2.
Proof. unfold rejection_reasons. apply flat_map_app. Qed.















End FanOut.

(** ** C6: the query of BaseAgent *)

Section Query.

Lemma attempts_without_resolve (sends : nat -> Promise.SendBehaviour)
    (body : list Promise.Stmt) :
  calls_resolve body = false ->
  forall k now,
    Forall (fun a => exists e, snd a = Throw e) (Promise.attempts sends k now body).
Proof.
  induction body as [|st body IH]; intros H k now; cbn.
  - constructor.
  - unfold calls_resolve in H. cbn [existsb] in H.
    apply orb_false_iff in H. destruct H as [Hst Hbody].
    destruct st as [s | callback delay | recipient type q timeout priority].
    + constructor; [|apply IH, Hbody].
      destruct s; [discriminate|]. cbn. eauto.
    + apply Forall_app. split; [|apply IH, Hbody].
      clear -Hst. induction callback as [|s callback IHc]; cbn; [constructor|].
      cbn in Hst. apply orb_false_iff in Hst. destruct Hst as [Hs Hc].
      constructor; [|apply IHc, Hc]. destruct s; [discriminate|]. cbn. eauto.
    + destruct (Promise.send_throws (sends k)); [constructor|apply IH, Hbody].
Qed.

Lemma earliest_in (l : list (Z * result Reply)) (x : Z * result Reply) :
  Promise.earliest l = Some x -> In x l.
Proof.
  revert x. induction l as [|a l IH]; cbn; intros x H; [discriminate|].
  destruct (Promise.earliest l) as [b|].
  - destruct (fst b <? fst a)%Z; injection H as <-; [right; apply IH|left]; reflexivity.
  - injection H as <-. left. reflexivity.
Qed.

(** An executor in which [resolve] does not occur never fulfils its
    promise, however the sends behave. *)
Lemma never_fulfilled_without_resolve (sends : nat -> Promise.SendBehaviour)
    (body : list Promise.Stmt) (now t : Z) (v : Reply) :
  calls_resolve body = false ->
  Promise.state_at sends now body t <> Promise.fulfilled v.
Proof.
  intros H. unfold Promise.state_at, Promise.settlement.
  destruct (Promise.earliest _) as [[at_time r]|] eqn:E; [|discriminate].
  destruct (t <? at_time)%Z; [discriminate|].
  apply earliest_in in E.
  pose proof (attempts_without_resolve sends body H 0 now) as Hall.
  rewrite List.Forall_forall in Hall. destruct (Hall _ E) as [e He].
  cbn in He. subst r. discriminate.
Qed.

(** The promise of [query] settles once, by the timer. *)
Lemma query_settlement (sends : nat -> Promise.SendBehaviour) (now : Z)
    (targetAgent : string) (q : Request) (timeout : Z) :
  Promise.settlement sends now (BaseAgent.query targetAgent q timeout)
  = Some ((now + Promise.timer_delay timeout)%Z,
          Throw (QueryTimedOut targetAgent timeout)).
Proof.
  unfold Promise.settlement, BaseAgent.query. cbn.
  destruct (Promise.send_throws (sends 0%nat)); reflexivity.
Qed.

Lemma awaited_times_out (sends : nat -> Promise.SendBehaviour)
    (targetAgent : string) (q : Request) (timeout : Z) :
  BaseAgent.awaited sends targetAgent q timeout
  = (Promise.timer_delay timeout, Throw (QueryTimedOut targetAgent timeout)).
Proof. unfold BaseAgent.awaited. now rewrite query_settlement. Qed.

Lemma first_rejection_cons_throw {A} (t : Z) (e : JsError)
    (rest : list (Z * result A)) :
  first_rejection ((t, Throw e) :: rest)
  = match first_rejection rest with
    | Some (t', e') => if (t' <? t)%Z then Some (t', e') else Some (t, e)
    | None => Some (t, e)
    end.
Proof. reflexivity. Qed.

(** Of branches rejected at the same time the first one counts. *)
Lemma first_rejection_simultaneous {A B} (f : B -> Z * result A)
    (c : Z) (g : B -> JsError) (x : B) (l : list B) :
  Forall (fun y => f y = (c, Throw (g y))) (x :: l) ->
  first_rejection (List.map f (x :: l)) = Some (c, g x).
Proof.
  revert x. induction l as [|y l IH]; intros x Hf.
  - inversion Hf as [|? ? Hx _]; subst. cbn. now rewrite Hx.
  - inversion Hf as [|? ? Hx Hl]; subst.
    change (List.map f (x :: y :: l)) with (f x :: List.map f (y :: l)).
    rewrite Hx, first_rejection_cons_throw, (IH y Hl).
    now rewrite Z.ltb_irrefl.
Qed.

Lemma gatherVote_abstains (sends : nat -> Promise.SendBehaviour)
    (proposal : Proposal) (a : BaseAgent.t) :
  BaseAgent.inherits_query sends a ->
  CouncilArchitecture.v_vote (CouncilArchitecture.gatherVote proposal a) = "abstain"
  /\ CouncilArchitecture.v_reasoning (CouncilArchitecture.gatherVote proposal a)
     = "Failed to respond in time".
Proof.
  intro H. unfold CouncilArchitecture.gatherVote.
  rewrite H, awaited_times_out. split; reflexivity.
Qed.

(** A council of agents that keep the inherited query: all abstain, and
    the motion fails. *)
Lemma council_of_base_agents (sends : nat -> Promise.SendBehaviour)
    (task : Task) (agents : list BaseAgent.t) :
  Forall (BaseAgent.inherits_query sends) agents ->
  exists r,
    snd (CouncilArchitecture.execute task agents) = Ok r
    /\ Forall (fun v => CouncilArchitecture.v_vote v = "abstain"
                        /\ CouncilArchitecture.v_reasoning v
                           = "Failed to respond in time")
         (CouncilArchitecture.votes r)
    /\ CouncilArchitecture.status r = "rejected".
Proof.
  intro H.
  destruct (council_result task agents) as (r & Hr & Hv & Hc & Hs).
  exists r. split; [exact Hr|].
  assert (Hab : Forall (fun v => CouncilArchitecture.v_vote v = "abstain"
                        /\ CouncilArchitecture.v_reasoning v
                           = "Failed to respond in time")
                  (CouncilArchitecture.votes r)).
  { rewrite Hv. apply List.Forall_map. eapply List.Forall_impl; [|exact H].
    intros a Ha. eapply gatherVote_abstains, Ha. }
  split; [exact Hab|].
  assert (H0 : CouncilArchitecture.approvals (CouncilArchitecture.votes r) = 0%nat).
  { clear -Hab. unfold CouncilArchitecture.approvals.
    induction Hab as [|v vs [Hvote _] _ IH]; [reflexivity|].
    cbn. rewrite Hvote. cbn. exact IH. }
  rewrite Hs, Hc, H0, ratio_of_counts.
  destruct (length (CouncilArchitecture.votes r)); reflexivity.
Qed.

(** C6: [resolve] does not occur in the executor of [query]; its promise is
    never fulfilled and is rejected with the timeout error when the timer
    fires, after [timeout] ms for every timeout a timer can wait, whatever
    the send does. Hence, for agents that keep this
    [query], every exchange of the strategies times out: council members
    abstain, concurrent branches all fail, and the emergency action, the
    first pipeline step and the competitive run are rejected with the
    timeout error. *)
Theorem query_only_times_out (sends : nat -> Promise.SendBehaviour)
    (targetAgent : string) (q : Request) (timeout : Z) :
  calls_resolve (BaseAgent.query targetAgent q timeout) = false
  /\ ((1 <= timeout <= 2147483647)%Z -> Promise.timer_delay timeout = timeout)
  /\ (forall now t v,
        Promise.state_at sends now (BaseAgent.query targetAgent q timeout) t
        <> Promise.fulfilled v)
  /\ (forall now t,
        Promise.state_at sends now (BaseAgent.query targetAgent q timeout) t
        = if (t <? now + Promise.timer_delay timeout)%Z then Promise.pending
          else Promise.rejected (QueryTimedOut targetAgent timeout))
  /\ (forall task agents,
        Forall (BaseAgent.inherits_query sends) agents ->
        (exists r,
           snd (CouncilArchitecture.execute task agents) = Ok r
           /\ Forall (fun v => CouncilArchitecture.v_vote v = "abstain"
                               /\ CouncilArchitecture.v_reasoning v
                                  = "Failed to respond in time")
                (CouncilArchitecture.votes r))
        /\ fulfilled_values
             (List.map (ConcurrentArchitecture.executeSubtask task) agents) = []
        /\ rejection_reasons
             (List.map (ConcurrentArchitecture.executeSubtask task) agents)
           = List.map (fun a => QueryTimedOut (BaseAgent.id a) 30000) agents
        /\ (forall a rest, agents = a :: rest ->
              snd (EmergencyArchitecture.execute task agents)
              = Throw (QueryTimedOut (BaseAgent.id a) 5000)
              /\ SequentialArchitecture.execute task agents
                 = ([call_query a (pipeline_step (of_task task) 1) 30000],
                    Throw (QueryTimedOut (BaseAgent.id a) 30000))
              /\ snd (CompetitiveArchitecture.execute task agents)
                 = Throw (QueryTimedOut (BaseAgent.id a) 60000))).
Proof.
  split; [reflexivity|].
  split.
  { intro H. unfold Promise.timer_delay.
    destruct (Z.ltb_spec timeout 1); [lia|].
    destruct (Z.ltb_spec 2147483647 timeout); [lia|reflexivity]. }
  split; [intros now t v; apply never_fulfilled_without_resolve; reflexivity|].
  split.
  { intros now t. unfold Promise.state_at. now rewrite query_settlement. }
  intros task agents H. split; [|split; [|split]].
  - destruct (council_of_base_agents sends task agents H) as (r & Hr & Hv & _).
    exists r. split; assumption.
  - induction H as [|a agents Ha _ IH]; [reflexivity|].
    cbn [List.map]. unfold ConcurrentArchitecture.executeSubtask at 1.
    rewrite Ha, awaited_times_out.
    change (?x :: ?l) with ([x] ++ l). rewrite fulfilled_values_app, IH. reflexivity.
  - induction H as [|a agents Ha _ IH]; [reflexivity|].
    cbn [List.map]. unfold ConcurrentArchitecture.executeSubtask at 1.
    rewrite Ha, awaited_times_out.
    change (?x :: ?l) with ([x] ++ l) at 1. rewrite rejection_reasons_app, IH.
    reflexivity.
  - intros a rest ->. inversion H as [|a' rest' Ha Hrest]; subst.
    split; [|split].
    + cbn. now rewrite Ha, awaited_times_out.
    + unfold SequentialArchitecture.execute. cbn.
      now rewrite Ha, awaited_times_out.
    + unfold CompetitiveArchitecture.execute. cbn [snd]. unfold Promise_all.
      rewrite (first_rejection_simultaneous
                 (CompetitiveArchitecture.compete task) 60000%Z
                 (fun y => QueryTimedOut (BaseAgent.id y) 60000)); [reflexivity|].
      eapply List.Forall_impl; [|exact H].
      intros y Hy. unfold CompetitiveArchitecture.compete.
      now rewrite Hy, awaited_times_out.
Qed.

End Query.

Lemma plain_agent_inherits_query (name role : string) :
  BaseAgent.inherits_query prompt_sends (plain_agent name role).
Proof. intros target q timeout. reflexivity. Qed.

Lemma query_only_times_out_witness :
  snd (EmergencyArchitecture.execute (sample_task "system_alert")
         [plain_agent "doctor" "COO"; plain_agent "charon" "CCO"])
  = Throw (QueryTimedOut "doctor" 5000)
  /\ SequentialArchitecture.execute (sample_task "system_alert")
       [plain_agent "doctor" "COO"; plain_agent "charon" "CCO"]
     = ([call_query (plain_agent "doctor" "COO")
           (pipeline_step (of_task (sample_task "system_alert")) 1) 30000],
        Throw (QueryTimedOut "doctor" 30000))
  /\ snd (CompetitiveArchitecture.execute (sample_task "system_alert")
            [plain_agent "doctor" "COO"; plain_agent "charon" "CCO"])
     = Throw (QueryTimedOut "doctor" 60000).
Proof.
  destruct (query_only_times_out prompt_sends "doctor"
              (concurrent_task (sample_task "system_alert")) 30000)
    as (_ & _ & _ & _ & H).
  destruct (H (sample_task "system_alert")
              [plain_agent "doctor" "COO"; plain_agent "charon" "CCO"])
    as (_ & _ & _ & Hfirst).
  - repeat constructor; apply plain_agent_inherits_query.
  - exact (Hfirst _ _ eq_refl).
Defined.

(** ** C8, C9, C10: the bus *)

Section Bus.
Context {R : Runtime}.
Import MessageBus.

Lemma new_bounded (options_maxHistory : option N) :
  history_bounded (MessageBus.new options_maxHistory).
Proof.
  unfold history_bounded, MessageBus.new. cbn.
  destruct options_maxHistory as [n|]; [|lia].
  destruct (N.eqb_spec n 0); lia.
Qed.

(** What [send] does to the history. *)
Lemma send_history (m : Message.t) (b : MessageBus.t) :
  messageHistory (fst (send m b))
  = if Message.verify m
    then (if (maxHistory b <? N.of_nat (S (length (messageHistory b))))%N
          then tl (messageHistory b ++ [Message.toJSON m])
          else messageHistory b ++ [Message.toJSON m])
    else messageHistory b.
Proof.
  unfold send. destruct (Message.verify m); cbn; [|reflexivity].
  rewrite length_app. cbn [length]. rewrite Nat.add_1_r. reflexivity.
Qed.

Lemma send_maxHistory (m : Message.t) (b : MessageBus.t) :
  maxHistory (fst (send m b)) = maxHistory b.
Proof. unfold send. destruct (Message.verify m); reflexivity. Qed.

Lemma send_bounded (m : Message.t) (b : MessageBus.t) :
  history_bounded b -> history_bounded (fst (send m b)).
Proof.
  intros [Hlen Hcap]. unfold history_bounded.
  rewrite send_maxHistory, send_history. split; [|exact Hcap].
  destruct (Message.verify m); [|exact Hlen].
  destruct (N.ltb_spec (maxHistory b) (N.of_nat (S (length (messageHistory b))))).
  - destruct (messageHistory b) as [|x h]; cbn in *.
    + lia.
    + rewrite length_app. cbn. lia.
  - rewrite length_app. cbn. lia.
Qed.

Lemma subscribe_history (a c : string) (b : MessageBus.t) :
  messageHistory (fst (subscribe a c b)) = messageHistory b
  /\ maxHistory (fst (subscribe a c b)) = maxHistory b.
Proof. unfold subscribe. destruct (map_get a (agents b)); split; reflexivity. Qed.

Lemma unsubscribe_history (a c : string) (b : MessageBus.t) :
  messageHistory (fst (unsubscribe a c b)) = messageHistory b
  /\ maxHistory (fst (unsubscribe a c b)) = maxHistory b.
Proof.
  unfold unsubscribe. destruct (map_get a (agents b)); [|split; reflexivity].
  destruct (channels b !! c); split; reflexivity.
Qed.

Lemma unregisterAgent_history (a : string) (b : MessageBus.t) :
  messageHistory (unregisterAgent a b) = messageHistory b
  /\ maxHistory (unregisterAgent a b) = maxHistory b.
Proof.
  unfold unregisterAgent. destruct (map_get a (agents b)) as [record|];
    [|split; reflexivity].
  cbn. generalize (subscriptions record). intro l. revert b.
  induction l as [|c l IH]; intro b; cbn; [split; reflexivity|].
  destruct (IH (fst (unsubscribe a c b))) as [-> ->].
  apply unsubscribe_history.
Qed.

Lemma cleanup_bounded (now : Z) (b : MessageBus.t) :
  history_bounded b -> history_bounded (cleanup now b).
Proof.
  intros [Hlen Hcap]. split; [|exact Hcap]. cbn.
  pose proof (List.filter_length_le (fun msg => negb (expired now msg))
                (messageHistory b)).
  lia.
Qed.

(** Every operation keeps the history within the capacity. *)
Lemma step_bounded (st : Env * MessageBus.t) (o : Op) :
  history_bounded (snd st) -> history_bounded (snd (step st o)).
Proof.
  destruct st as [env b]. intro H. destruct o; cbn [step snd].
  - unfold registerAgent, history_bounded.
    destruct (subscribe_history agentId agentId
                (with_agents b (map_set agentId
                   {| subscriptions := []; lastSeen := clock env |} (agents b))))
      as [-> ->]. exact H.
  - unfold history_bounded. destruct (unregisterAgent_history agentId b) as [-> ->].
    exact H.
  - unfold history_bounded. destruct (subscribe_history agentId channel b) as [-> ->].
    exact H.
  - unfold history_bounded. destruct (unsubscribe_history agentId channel b) as [-> ->].
    exact H.
  - apply send_bounded, H.
  - unfold broadcast.
    destruct (channels b !! channel) as [[|s subscribers]|]; cbn; try exact H.
    pose proof (send_bounded
      (Message.new
         {| Message.a_sender := Message.a_sender messageData;
            Message.a_recipients := Message.RList (s :: subscribers);
            Message.a_type := Message.a_type messageData;
            Message.a_payload := Message.a_payload messageData;
            Message.a_priority := Message.a_priority messageData;
            Message.a_ttl := Message.a_ttl messageData |}
         (randomUUID (uuids_drawn env)) (clock env)) b H) as Hs.
    destruct (send _ b) as [b' outcome]. exact Hs.
  - exact H.
  - apply cleanup_bounded, H.
  - exact H.
  - exact H.
Qed.

Lemma run_bounded (ops : list Op) (st : Env * MessageBus.t) :
  history_bounded (snd st) -> history_bounded (snd (run ops st)).
Proof.
  revert st. induction ops as [|o ops IH]; intros st H; [exact H|].
  cbn. apply IH, step_bounded, H.
Qed.

Lemma step_maxHistory (st : Env * MessageBus.t) (o : Op) :
  maxHistory (snd (step st o)) = maxHistory (snd st).
Proof.
  destruct st as [env b]. destruct o; cbn [step snd]; try reflexivity.
  - unfold registerAgent. now destruct (subscribe_history agentId agentId
      (with_agents b (map_set agentId
         {| subscriptions := []; lastSeen := clock env |} (agents b)))) as [_ ->].
  - apply unregisterAgent_history.
  - apply subscribe_history.
  - apply unsubscribe_history.
  - apply send_maxHistory.
  - unfold broadcast.
    destruct (channels b !! channel) as [[|s subscribers]|]; cbn; try reflexivity.
    pose proof (send_maxHistory
      (Message.new
         {| Message.a_sender := Message.a_sender messageData;
            Message.a_recipients := Message.RList (s :: subscribers);
            Message.a_type := Message.a_type messageData;
            Message.a_payload := Message.a_payload messageData;
            Message.a_priority := Message.a_priority messageData;
            Message.a_ttl := Message.a_ttl messageData |}
         (randomUUID (uuids_drawn env)) (clock env)) b) as Hs.
    destruct (send _ b) as [b' outcome]. exact Hs.
Qed.

Lemma run_maxHistory (ops : list Op) (st : Env * MessageBus.t) :
  maxHistory (snd (run ops st)) = maxHistory (snd st).
Proof.
  revert st. induction ops as [|o ops IH]; intro st; [reflexivity|].
  change (run (o :: ops) st) with (run ops (step st o)).
  rewrite IH. apply step_maxHistory.
Qed.

(** C8: in every state the bus reaches from its construction, the history
    holds at most [maxHistory] entries (10000 unless configured); a send of
    a verified envelope appends it and, when the history was full, drops
    exactly the entry at the front, the oldest; a send that is refused
    leaves the history as it is. *)
Theorem history_never_exceeds_capacity (options_maxHistory : option N)
    (env0 : Env) (ops : list Op) :
  let b := snd (run ops (env0, MessageBus.new options_maxHistory)) in
  MessageBus.maxHistory (MessageBus.new None) = 10000%N
  /\ maxHistory b = maxHistory (MessageBus.new options_maxHistory)
  /\ (N.of_nat (length (messageHistory b)) <= maxHistory b)%N
  /\ (forall m, Message.verify m = true ->
        (N.of_nat (length (messageHistory b)) < maxHistory b)%N ->
        messageHistory (fst (send m b)) = messageHistory b ++ [Message.toJSON m])
  /\ (forall m, Message.verify m = true ->
        N.of_nat (length (messageHistory b)) = maxHistory b ->
        exists oldest rest,
          messageHistory b = oldest :: rest
          /\ messageHistory (fst (send m b)) = rest ++ [Message.toJSON m])
  /\ (forall m, Message.verify m = false ->
        messageHistory (fst (send m b)) = messageHistory b).
Proof.
  intro b.
  assert (Hb : history_bounded b) by (apply run_bounded, new_bounded).
  destruct Hb as [Hlen Hcap].
  split; [reflexivity|].
  split; [apply (run_maxHistory ops (env0, MessageBus.new options_maxHistory))|].
  split; [exact Hlen|].
  split; [|split].
  - intros m Hv Hlt. rewrite send_history, Hv.
    destruct (N.ltb_spec (maxHistory b) (N.of_nat (S (length (messageHistory b)))));
      [lia|reflexivity].
  - intros m Hv Hfull. rewrite send_history, Hv.
    destruct (N.ltb_spec (maxHistory b) (N.of_nat (S (length (messageHistory b)))));
      [|lia].
    destruct (messageHistory b) as [|oldest rest]; [cbn in Hfull; lia|].
    exists oldest, rest. split; reflexivity.
  - intros m Hv. now rewrite send_history, Hv.
Qed.

End Bus.

Section BusBroadcastCleanup.
Context {R : Runtime}.
Import MessageBus.

(** The constructor signs what [verify] recomputes: a fresh envelope is
    accepted by [send]. *)
Lemma new_verifies (args : Message.Args) (uuid : string) (now : Z) :
  Message.verify (Message.new args uuid now) = true.
Proof. unfold Message.verify, Message.new, Message.sign. cbn. apply String.eqb_refl. Qed.

(** C9: on a channel without subscribers (unknown, or with an empty set)
    [broadcast] returns the no_subscribers record and changes nothing: no
    identifier is drawn for an envelope and the bus is as before, [send]
    was not invoked. With subscribers it constructs one envelope, addressed
    to exactly the subscribers of the channel in that moment, and returns
    what [send] returns for it; [send] accepts the envelope and, the
    capacity being at least 1, records it. *)
Theorem broadcast_delegates_to_send (channel : string)
    (messageData : Message.Args) (env : Env) (b : MessageBus.t) :
  (channels b !! channel = None \/ channels b !! channel = Some [] ->
   broadcast channel messageData (env, b) = ((env, b), no_subscribers channel))
  /\ (forall subscribers,
        channels b !! channel = Some subscribers -> subscribers <> [] ->
        exists message,
          message = Message.new
                      {| Message.a_sender := Message.a_sender messageData;
                         Message.a_recipients := Message.RList subscribers;
                         Message.a_type := Message.a_type messageData;
                         Message.a_payload := Message.a_payload messageData;
                         Message.a_priority := Message.a_priority messageData;
                         Message.a_ttl := Message.a_ttl messageData |}
                      (randomUUID (uuids_drawn env)) (clock env)
          /\ Message.recipients message = Message.RList subscribers
          /\ broadcast channel messageData (env, b)
             = (({| uuids_drawn := S (uuids_drawn env); clock := clock env |},
                 fst (send message b)),
                sent message (snd (send message b)))
          /\ is_ok (snd (send message b)) = true
          /\ messagesSent (metrics (fst (send message b)))
             = S (messagesSent (metrics b))
          /\ ((1 <= maxHistory b)%N ->
              exists earlier,
                messageHistory (fst (send message b))
                = earlier ++ [Message.toJSON message])).
Proof.
  split.
  - intros [H | H]; unfold broadcast; rewrite H; reflexivity.
  - intros subscribers H Hne. eexists. split; [reflexivity|].
    split; [reflexivity|].
    unfold broadcast. rewrite H.
    destruct subscribers as [|s subscribers]; [congruence|].
    set (message := Message.new _ _ _).
    pose proof (new_verifies
      {| Message.a_sender := Message.a_sender messageData;
         Message.a_recipients := Message.RList (s :: subscribers);
         Message.a_type := Message.a_type messageData;
         Message.a_payload := Message.a_payload messageData;
         Message.a_priority := Message.a_priority messageData;
         Message.a_ttl := Message.a_ttl messageData |}
      (randomUUID (uuids_drawn env)) (clock env)) as Hv.
    fold message in Hv.
    split; [destruct (send message b); reflexivity|].
    unfold send. rewrite Hv. cbn.
    split; [reflexivity|]. split; [reflexivity|].
    intro Hcap.
    destruct (N.ltb_spec (maxHistory b)
                (N.of_nat (length (messageHistory b ++ [Message.toJSON message])))).
    + destruct (messageHistory b) as [|x h]; cbn in *; [lia|].
      exists h. reflexivity.
    + eexists. reflexivity.
Qed.

Lemma filter_partition_length {A} (f : A -> bool) (l : list A) :
  (length (List.filter (fun x => negb (f x)) l) + length (List.filter f l)
   = length l)%nat.
Proof.
  induction l as [|x l IH]; cbn; [reflexivity|].
  destruct (f x); cbn; lia.
Qed.

(** C10: [cleanup] keeps, in their order, exactly the entries that are not
    expired, that is, those with [timestamp + ttl * 1000 >= now] (the
    time-to-live is in seconds), and removes all the others; it counts the
    removed entries, and neither reads nor changes the capacity: the same
    history is swept alike whatever the capacity. *)
Theorem cleanup_removes_exactly_expired (now : Z) (b : MessageBus.t) :
  messageHistory (cleanup now b)
  = List.filter (fun msg => negb (expired now msg)) (messageHistory b)
  /\ (forall msg,
        In msg (messageHistory (cleanup now b)) <->
        In msg (messageHistory b)
        /\ ~ (Message.timestamp msg + Message.ttl msg * 1000 < now)%Z)
  /\ (length (messageHistory (cleanup now b))
      + (messagesExpired (metrics (cleanup now b)) - messagesExpired (metrics b))
      = length (messageHistory b))%nat
  /\ maxHistory (cleanup now b) = maxHistory b
  /\ (forall b', messageHistory b' = messageHistory b ->
        messageHistory (cleanup now b') = messageHistory (cleanup now b))
  /\ (forall filters msg,
        In msg (queryHistory filters (cleanup now b)) ->
        ~ (Message.timestamp msg + Message.ttl msg * 1000 < now)%Z).
Proof.
  assert (Hin : forall msg,
             In msg (messageHistory (cleanup now b)) <->
             In msg (messageHistory b)
             /\ ~ (Message.timestamp msg + Message.ttl msg * 1000 < now)%Z).
  { intro msg. cbn. rewrite List.filter_In. unfold expired.
    destruct (Z.ltb_spec (Message.timestamp msg + Message.ttl msg * 1000) now);
      cbn; split; intros [? ?]; split; auto; try lia; discriminate. }
  split; [reflexivity|]. split; [exact Hin|].
  split.
  { cbn. pose proof (filter_partition_length (expired now) (messageHistory b)). lia. }
  split; [reflexivity|]. split.
  { intros b' H. cbn. now rewrite H. }
  intros filters msg H. unfold queryHistory in H.
  apply List.filter_In in H. destruct H as [H _].
  apply Hin in H. tauto.
Qed.

End BusBroadcastCleanup.

(** ** JSON texts *)

Section JsonText.
Import JSON.
Local Open Scope string_scope.

Lemma unescape_head_escape_char (c : ascii) (rest : string) :
  unescape_head (escape_char c ++ rest) = Some (c, rest).
Proof.
  destruct c as [b0 b1 b2 b3 b4 b5 b6 b7].
  destruct b0, b1, b2, b3, b4, b5, b6, b7; reflexivity.
Qed.

Lemma str_app_cons (x : ascii) (a b : string) : String x a ++ b = String x (a ++ b).
Proof. reflexivity. Qed.

Lemma str_app_nil (b : string) : "" ++ b = b.
Proof. reflexivity. Qed.

Lemma str_app_assoc (a b c : string) : (a ++ b) ++ c = a ++ (b ++ c).
Proof.
  induction a as [|x a IH]; [reflexivity|].
  rewrite !str_app_cons. now rewrite IH.
Qed.

Lemma str_app_inv_head (a b c : string) : a ++ b = a ++ c -> b = c.
Proof.
  induction a as [|x a IH]; intro H; [exact H|].
  rewrite !str_app_cons in H. injection H as H. auto.
Qed.

Lemma str_app_inv_last (a b : string) (c : ascii) :
  a ++ String c "" = b ++ String c "" -> a = b.
Proof.
  revert b. induction a as [|x a IH]; intros [|y b] H;
    rewrite ?str_app_cons, ?str_app_nil in H.
  - reflexivity.
  - injection H as _ H. destruct b; discriminate.
  - injection H as _ H. destruct a; discriminate.
  - injection H as -> H. f_equal. auto.
Qed.

Lemma escape_cons (c : ascii) (s : string) :
  escape (String c s) = escape_char c ++ escape s.
Proof. reflexivity. Qed.

(** A quoted string can be read back from the front of any text. *)
Lemma escape_prefix_free (a b r r' : string) :
  escape a ++ String dquote r = escape b ++ String dquote r' -> a = b /\ r = r'.
Proof.
  revert b. induction a as [|c a IH]; intros [|d b] H;
    rewrite ?escape_cons, ?str_app_assoc in H.
  - injection H as H. auto.
  - apply (f_equal unescape_head) in H.
    rewrite unescape_head_escape_char in H. discriminate.
  - apply (f_equal unescape_head) in H.
    rewrite unescape_head_escape_char in H. discriminate.
  - apply (f_equal unescape_head) in H.
    rewrite !unescape_head_escape_char in H. injection H as -> H.
    destruct (IH _ H) as [-> ->]. auto.
Qed.

Lemma quote_prefix_free (a b r r' : string) :
  quote a ++ r = quote b ++ r' -> a = b /\ r = r'.
Proof.
  unfold quote. rewrite !str_app_cons, !str_app_assoc, !str_app_cons, !str_app_nil.
  intro H. injection H as H. now apply escape_prefix_free.
Qed.

Lemma signed_text_inj (id ts sender ty : string) (p : option string)
    (id' ts' sender' ty' : string) (p' : option string) :
  signed_text id ts sender ty p = signed_text id' ts' sender' ty' p' ->
  id = id' /\ ts = ts' /\ sender = sender' /\ ty = ty' /\ p = p'.
Proof.
  unfold signed_text. intro H.
  do 3 apply str_app_inv_head in H.
  apply quote_prefix_free in H. destruct H as [-> H].
  do 3 apply str_app_inv_head in H.
  apply quote_prefix_free in H. destruct H as [-> H].
  do 3 apply str_app_inv_head in H.
  apply quote_prefix_free in H. destruct H as [-> H].
  do 3 apply str_app_inv_head in H.
  apply quote_prefix_free in H. destruct H as [-> H].
  repeat split.
  destruct p as [s|], p' as [s'|]; try discriminate; [|reflexivity].
  do 3 apply str_app_inv_head in H.
  apply str_app_inv_last in H. now subst.
Qed.

Lemma stringify_signed_fields {R : Runtime} (m : Message.t) :
  JSON.stringify (Message.signed_fields m)
  = signed_text (Message.id m) (toISOString (Message.timestamp m))
      (Message.sender m) (Message.type m) (JSON.serialize (Message.payload m)).
Proof.
  unfold JSON.stringify, Message.signed_fields, signed_text.
  cbn [serialize flat_map snd fst app].
  destruct (serialize (Message.payload m)) as [s|]; cbn [app join];
    rewrite !str_app_assoc; reflexivity.
Qed.

End JsonText.

(** ** C7: the signature of an envelope *)

Section Signature.
Context {R : Runtime}.

(** [verify] compares the stored signature with the recomputed one. *)
Lemma verify_true_iff (m : Message.t) :
  Message.verify m = true <->
  Message.signature m
  = createHmac_sha256_hex Message.secret
      (JSON.stringify (Message.signed_fields m)).
Proof. unfold Message.verify, Message.sign. apply String.eqb_eq. Qed.

Lemma verify_false_iff (m : Message.t) :
  Message.verify m = false <->
  Message.signature m
  <> createHmac_sha256_hex Message.secret
       (JSON.stringify (Message.signed_fields m)).
Proof. unfold Message.verify, Message.sign. apply String.eqb_neq. Qed.

(** JSON.stringify writes NaN as null: the two payloads sign alike. *)
Lemma NaN_signs_as_null (m : Message.t) :
  Message.payload m = JNum JsNum.NaN ->
  Message.sign (set_payload JNull m) = Message.sign m.
Proof.
  intro H. unfold Message.sign, Message.signed_fields, JSON.stringify.
  cbn. rewrite H. reflexivity.
Qed.

End Signature.

(** C7, counterexample: the payload NaN of a freshly signed envelope is
    replaced by null; a signed field has changed, and [verify] still
    returns true, on every platform. *)
Lemma payload_mutation_not_detected :
  (forall (R : Runtime) (uuid : string) (now : Z),
     mutated (Message.new report_args uuid now)
             (set_payload JNull (Message.new report_args uuid now))
     /\ Message.verify (Message.new report_args uuid now) = true
     /\ Message.verify (set_payload JNull (Message.new report_args uuid now)) = true)
  /\ @Message.verify stub_runtime
       (set_payload JNull (@Message.new stub_runtime report_args "uuid-0" 0)) = true.
Proof.
  split; [|vm_compute; reflexivity].
  intros R uuid now. split; [|split].
  - split; [reflexivity|]. do 4 right. cbn. discriminate.
  - apply new_verifies.
  - apply verify_true_iff.
    change (Message.signature (set_payload JNull (Message.new report_args uuid now)))
      with (Message.sign (Message.new report_args uuid now)).
    symmetry. apply NaN_signs_as_null. reflexivity.
Qed.

(** C7, as amended: [verify] returns true exactly when the stored
    signature equals the keyed hash recomputed from id, timestamp, sender,
    type and payload. After signed fields of a verified envelope have been
    assigned to, [verify] returns false exactly when the keyed hash of the
    new JSON text differs from the stored signature. The JSON text is the
    same exactly when id, the ISO text of the timestamp, sender, type and
    the JSON rendering of the payload are the same: a change of one of
    these is detected whenever the keyed hash separates the two texts, and
    a change of the payload that JSON.stringify renders alike is not. *)
Theorem verify_detects_changed_signed_text {R : Runtime} (m m' : Message.t) :
  (Message.verify m = true <->
   Message.signature m
   = createHmac_sha256_hex Message.secret (JSON.stringify (Message.signed_fields m)))
  /\ (Message.verify m = true -> Message.signature m' = Message.signature m ->
      (Message.verify m' = false <->
       createHmac_sha256_hex Message.secret (JSON.stringify (Message.signed_fields m'))
       <> createHmac_sha256_hex Message.secret (JSON.stringify (Message.signed_fields m))))
  /\ (JSON.stringify (Message.signed_fields m') = JSON.stringify (Message.signed_fields m)
      <-> Message.id m' = Message.id m
          /\ toISOString (Message.timestamp m') = toISOString (Message.timestamp m)
          /\ Message.sender m' = Message.sender m
          /\ Message.type m' = Message.type m
          /\ JSON.serialize (Message.payload m') = JSON.serialize (Message.payload m)).
Proof.
  split; [apply verify_true_iff|]. split.
  - intros Hv Hs. rewrite verify_false_iff, Hs.
    apply verify_true_iff in Hv. rewrite Hv. split; intros H E; apply H; congruence.
  - rewrite !stringify_signed_fields. split.
    + apply signed_text_inj.
    + intros (-> & -> & -> & -> & ->). reflexivity.
Qed.

Lemma verify_detects_changed_signed_text_witness :
  @Message.verify stub_runtime
    (set_sender "mallory" (@Message.new stub_runtime report_args "uuid-0" 0)) = false.
Proof.
  apply (proj1 (proj2 (@verify_detects_changed_signed_text stub_runtime
                         (@Message.new stub_runtime report_args "uuid-0" 0)
                         (set_sender "mallory"
                            (@Message.new stub_runtime report_args "uuid-0" 0))))).
  - vm_compute. reflexivity.
  - reflexivity.
  - vm_compute. discriminate.
Defined.

(** ** Instances on the test double of the platform *)

Lemma history_never_exceeds_capacity_witness :
  exists oldest rest,
    MessageBus.messageHistory
      (snd (@MessageBus.run stub_runtime [MessageBus.op_send first_report]
              (start_env, MessageBus.new (Some 1%N))))
    = oldest :: rest
    /\ MessageBus.messageHistory
         (fst (@MessageBus.send stub_runtime second_report
                 (snd (@MessageBus.run stub_runtime [MessageBus.op_send first_report]
                         (start_env, MessageBus.new (Some 1%N))))))
       = rest ++ [Message.toJSON second_report].
Proof.
  pose proof (@history_never_exceeds_capacity stub_runtime (Some 1%N) start_env
                [MessageBus.op_send first_report]) as H.
  cbv zeta in H. destruct H as (_ & _ & _ & _ & Hfull & _).
  apply Hfull.
  - vm_compute. reflexivity.
  - vm_compute. reflexivity.
Defined.

Lemma broadcast_delegates_to_send_witness :
  @MessageBus.broadcast stub_runtime "unused-channel" report_args
    (start_env,
     snd (@MessageBus.run stub_runtime council_channel_ops
            (start_env, MessageBus.new None)))
  = ((start_env,
      snd (@MessageBus.run stub_runtime council_channel_ops
             (start_env, MessageBus.new None))),
     MessageBus.no_subscribers "unused-channel")
  /\ exists message,
       Message.recipients message = Message.RList ["winston"; "doctor"]
       /\ snd (@MessageBus.broadcast stub_runtime "council" report_args
                 (start_env,
                  snd (@MessageBus.run stub_runtime council_channel_ops
                         (start_env, MessageBus.new None))))
          = MessageBus.sent message
              (Ok [MessageBus.handed_over "winston"; MessageBus.handed_over "doctor"]).
Proof.
  split.
  - apply (proj1 (@broadcast_delegates_to_send stub_runtime "unused-channel"
                    report_args start_env
                    (snd (@MessageBus.run stub_runtime council_channel_ops
                            (start_env, MessageBus.new None))))).
    left. vm_compute. reflexivity.
  - destruct (proj2 (@broadcast_delegates_to_send stub_runtime "council"
                       report_args start_env
                       (snd (@MessageBus.run stub_runtime council_channel_ops
                               (start_env, MessageBus.new None))))
                ["winston"; "doctor"])
      as (message & Hm & Hr & Hbc & _).
    + vm_compute. reflexivity.
    + discriminate.
    + exists message. split; [exact Hr|].
      rewrite Hbc. cbn [snd]. f_equal.
      rewrite Hm. vm_compute. reflexivity.
Defined.

Lemma cleanup_removes_exactly_expired_witness :
  In (Message.toJSON first_report)
    (MessageBus.messageHistory
       (MessageBus.cleanup 300999
          (snd (@MessageBus.run stub_runtime [MessageBus.op_send first_report]
                  (start_env, MessageBus.new None)))))
  /\ ~ In (Message.toJSON first_report)
       (MessageBus.messageHistory
          (MessageBus.cleanup 301001
             (snd (@MessageBus.run stub_runtime [MessageBus.op_send first_report]
                     (start_env, MessageBus.new None))))).
Proof.
  split.
  - apply (proj1 (proj2 (cleanup_removes_exactly_expired 300999
                           (snd (@MessageBus.run stub_runtime
                                   [MessageBus.op_send first_report]
                                   (start_env, MessageBus.new None)))))).
    split; [vm_compute; left; reflexivity | vm_compute; discriminate].
  - intro H.
    apply (proj1 (proj2 (cleanup_removes_exactly_expired 301001
                           (snd (@MessageBus.run stub_runtime
                                   [MessageBus.op_send first_report]
                                   (start_env, MessageBus.new None)))))) in H.
    destruct H as [_ H]. apply H. vm_compute. reflexivity.
Defined.

(** * Further properties *)

(** ** The council *)

Section CouncilMore.
Import CouncilArchitecture.

Lemma council_ratio_bounds_witness :
  exists q,
    JsNum.div (JsNum.of_nat 2) (JsNum.of_nat 3) = JsNum.Fin q /\ (0 <= q <= 1)%Q.
Proof.
  destruct (council_result (sample_task "financial_approval")
              [scripted "a" "CFO" 1 (Ok (reply_with_vote "approve"));
               scripted "b" "CTO" 1 (Ok (reply_with_vote "approve"));
               failing "c" "COO"]) as (r & Hr & Hv & Hc & _).
  destruct (council_ratio_bounds _ _ r Hr) as (q & Hq & Hb); [discriminate|].
  exists q. split; [|exact Hb].
  rewrite <- Hq, Hc, Hv. reflexivity.
Defined.

Lemma council_two_thirds_below_fifty_witness :
  exists r,
    snd (execute (sample_task "financial_approval")
           [scripted "a" "CFO" 1 (Ok (reply_with_vote "approve"));
            scripted "b" "CTO" 1 (Ok (reply_with_vote "approve"));
            failing "c" "COO"]) = Ok r
    /\ (status r = "approved" <->
        JsNum.geb (consensus r) (JsNum.Fin (2 # 3)) = true).
Proof.
  destruct (council_result (sample_task "financial_approval")
              [scripted "a" "CFO" 1 (Ok (reply_with_vote "approve"));
               scripted "b" "CTO" 1 (Ok (reply_with_vote "approve"));
               failing "c" "COO"]) as (r & Hr & _).
  exists r. split; [exact Hr|].
  apply (council_two_thirds_below_fifty _ _ r Hr). cbn. lia.
Defined.

Lemma approvals_permutation (vs vs' : list Vote) :
  Permutation vs vs' -> approvals vs = approvals vs'.
Proof.
  intro H. unfold approvals.
  induction H as [|x l l' _ IH|x y l|l l' l'' _ IH1 _ IH2]; cbn.
  - reflexivity.
  - destruct (String.eqb (v_vote x) "approve"); cbn; now rewrite IH.
  - destruct (String.eqb (v_vote x) "approve"), (String.eqb (v_vote y) "approve");
      reflexivity.
  - now rewrite IH1.
Qed.

(** X3: the outcome of a council does not depend on the order of its
    members: for a permutation of the agents the votes are a permutation,
    and the ratio and the status are the same. *)
Theorem council_order_independent (task : Task) (agents agents' : list BaseAgent.t)
    (r r' : Result) :
  Permutation agents agents' ->
  snd (execute task agents) = Ok r -> snd (execute task agents') = Ok r' ->
  Permutation (votes r) (votes r')
  /\ consensus r = consensus r'
  /\ status r = status r'.
Proof.
  intros Hp H H'.
  destruct (council_result task agents) as (r0 & Hr & Hv & Hc & Hs).
  rewrite H in Hr. injection Hr as <-.
  destruct (council_result task agents') as (r0 & Hr' & Hv' & Hc' & Hs').
  rewrite H' in Hr'. injection Hr' as <-.
  assert (Hpv : Permutation (votes r) (votes r')).
  { rewrite Hv, Hv'. apply Permutation_map, Hp. }
  assert (E : consensus r = consensus r').
  { rewrite Hc, Hc', (approvals_permutation _ _ Hpv), (Permutation_length Hpv).
    reflexivity. }
  split; [exact Hpv|]. split; [exact E|]. now rewrite Hs, Hs', E.
Qed.

Lemma council_order_independent_witness :
  exists r r',
    snd (execute (sample_task "financial_approval")
           [scripted "a" "CFO" 1 (Ok (reply_with_vote "approve")); failing "c" "COO"])
    = Ok r
    /\ snd (execute (sample_task "financial_approval")
              [failing "c" "COO"; scripted "a" "CFO" 1 (Ok (reply_with_vote "approve"))])
       = Ok r'
    /\ consensus r = consensus r' /\ status r = status r'.
Proof.
  destruct (council_result (sample_task "financial_approval")
              [scripted "a" "CFO" 1 (Ok (reply_with_vote "approve")); failing "c" "COO"])
    as (r & Hr & _).
  destruct (council_result (sample_task "financial_approval")
              [failing "c" "COO"; scripted "a" "CFO" 1 (Ok (reply_with_vote "approve"))])
    as (r' & Hr' & _).
  exists r, r'. split; [exact Hr|]. split; [exact Hr'|].
  apply (council_order_independent _ _ _ r r' (perm_swap _ _ []) Hr Hr').
Defined.

End CouncilMore.

(** ** The order of numbers *)

Section NumberOrder.

Lemma gtb_false_leb (a b : JsNum.t) :
  a <> JsNum.NaN -> b <> JsNum.NaN -> JsNum.gtb a b = false -> JsNum.leb a b = true.
Proof.
  destruct a as [x|[]|], b as [y|[]|]; cbn; intros Ha Hb H;
    try congruence; try reflexivity.
  now destruct (Qle_bool x y).
Qed.

Lemma gtb_true_ltb (a b : JsNum.t) : JsNum.gtb a b = true -> JsNum.ltb b a = true.
Proof. intro H. exact H. Qed.

Lemma ltb_leb (a b : JsNum.t) : JsNum.ltb a b = true -> JsNum.leb a b = true.
Proof.
  destruct a as [x|[]|], b as [y|[]|]; cbn; intro H;
    try congruence; try reflexivity.
  js_arith.
Qed.

Lemma leb_ltb_trans (a b c : JsNum.t) :
  JsNum.leb a b = true -> JsNum.ltb b c = true -> JsNum.ltb a c = true.
Proof.
  destruct a as [x|[]|], b as [y|[]|], c as [z|[]|]; cbn; intros H1 H2;
    try congruence; try reflexivity.
  js_arith.
Qed.

Lemma leb_refl (a : JsNum.t) : a <> JsNum.NaN -> JsNum.leb a a = true.
Proof.
  destruct a as [x|[]|]; cbn; intro H; try congruence; try reflexivity.
  apply Qle_bool_iff. lra.
Qed.

(** A left fold that keeps the best element seen and replaces it only by a
    strictly greater one ends on the first greatest element. *)
Lemma fold_left_first_greatest {A} (key : A -> JsNum.t) (l : list A) (x : A) :
  Forall (fun y => key y <> JsNum.NaN) (x :: l) ->
  exists before after,
    x :: l
    = before
      ++ fold_left (fun best current =>
                      if JsNum.gtb (key current) (key best) then current else best)
           l x
      :: after
    /\ Forall (fun y =>
                 JsNum.ltb (key y)
                   (key (fold_left (fun best current =>
                           if JsNum.gtb (key current) (key best)
                           then current else best) l x)) = true) before
    /\ Forall (fun y =>
                 JsNum.leb (key y)
                   (key (fold_left (fun best current =>
                           if JsNum.gtb (key current) (key best)
                           then current else best) l x)) = true) after.
Proof.
  induction l as [|y l IH] using rev_ind; intro Hn.
  - exists [], []. cbn. repeat split; constructor.
  - assert (Hn' : Forall (fun y => key y <> JsNum.NaN) (x :: l)).
    { change (x :: l ++ [y]) with ((x :: l) ++ [y]) in Hn.
      apply Forall_app in Hn. tauto. }
    assert (Hy : key y <> JsNum.NaN).
    { change (x :: l ++ [y]) with ((x :: l) ++ [y]) in Hn.
      apply Forall_app in Hn. destruct Hn as [_ Hn].
      now apply List.Forall_inv in Hn. }
    destruct (IH Hn') as (before & after & E & Hb & Ha).
    rewrite fold_left_app. cbn [fold_left].
    set (w := fold_left _ l x) in *.
    assert (Hw : key w <> JsNum.NaN).
    { rewrite List.Forall_forall in Hn'. apply Hn'. rewrite E.
      apply in_or_app. right. left. reflexivity. }
    destruct (JsNum.gtb (key y) (key w)) eqn:G.
    + exists (x :: l), []. split; [|split].
      * reflexivity.
      * rewrite E. apply Forall_app. split; [|constructor].
        -- eapply List.Forall_impl; [|exact Hb].
           intros z Hz. cbn beta in Hz.
           eapply leb_ltb_trans; [apply ltb_leb, Hz | exact G].
        -- exact G.
        -- eapply List.Forall_impl; [|exact Ha].
           intros z Hz. cbn beta in Hz.
           eapply leb_ltb_trans; [exact Hz | exact G].
      * constructor.
    + exists before, (after ++ [y]). split; [|split].
      * change (x :: l ++ [y]) with ((x :: l) ++ [y]). rewrite E.
        rewrite <- app_assoc. reflexivity.
      * exact Hb.
      * apply Forall_app. split; [exact Ha|].
        constructor; [|constructor]. now apply gtb_false_leb.
Qed.

End NumberOrder.

(** ** The strategies: what a returned result holds *)

Section SequentialMore.
Import SequentialArchitecture.

Lemma pipeline_trace (agents : list BaseAgent.t) :
  forall (currentInput : PipelineValue) (tr : list Step) (r : Result),
    snd (pipeline agents currentInput tr) = Ok r ->
    exists new,
      trace r = tr ++ new
      /\ length new = length agents
      /\ steps r = length (trace r)
      /\ status r = "completed"
      /\ List.map s_agent new = List.map BaseAgent.id agents
      /\ List.map input new ++ [finalResult r]
         = currentInput :: List.map (fun s => of_reply (output s)) new
      /\ Forall2 (fun a ks =>
                    snd (BaseAgent.await_query a (BaseAgent.id a)
                           (pipeline_step (input (snd ks)) (fst ks)) 30000)
                    = Ok (output (snd ks)))
           agents (numbered (length tr + 1) new)
      /\ List.map request (fst (pipeline agents currentInput tr))
         = List.map (fun ks => pipeline_step (input (snd ks)) (fst ks))
             (numbered (length tr + 1) new).
Proof.
  induction agents as [|a agents IH]; intros currentInput tr r H.
  - cbn in H. injection H as <-. exists []. cbn.
    rewrite app_nil_r. repeat split; constructor.
  - cbn [pipeline] in *.
    destruct (snd (BaseAgent.await_query a (BaseAgent.id a)
                     (pipeline_step currentInput (length tr + 1)) 30000))
      as [r0|e] eqn:Eq; [|discriminate].
    specialize (IH (of_reply r0)
                  (tr ++ [{| s_agent := BaseAgent.id a;
                             s_codename := BaseAgent.codename a;
                             input := currentInput; output := r0 |}]) r).
    destruct (pipeline agents _ _) as [calls res]. cbn [fst snd] in *.
    destruct (IH H) as (new & Ht & Hl & Hs & Hst & Hag & Hch & Hq & Hc).
    rewrite length_app in Hq, Hc. cbn [length] in Hq, Hc.
    exists ({| s_agent := BaseAgent.id a; s_codename := BaseAgent.codename a;
               input := currentInput; output := r0 |} :: new).
    unfold numbered in *. cbn [length seq combine List.map fst snd input output].
    replace (S (length tr + 1)) with (length tr + 1 + 1)%nat by lia.
    split; [|split; [|split; [|split; [|split; [|split; [|split]]]]]].
    + rewrite Ht, <- app_assoc. reflexivity.
    + now rewrite Hl.
    + exact Hs.
    + exact Hst.
    + now rewrite Hag.
    + cbn. now rewrite Hch.
    + constructor; [exact Eq | exact Hq].
    + now rewrite Hc.
Qed.

(** X7: a sequential pipeline that returns has run every agent once, in
    order: the trace has one step per agent, the first step receives the
    task, every later step receives the output of the step before it, the
    final result is the output of the last step (the task itself when there
    is no agent), and each recorded output is what the agent of the step
    answered to the query numbered with the step. *)
Theorem sequential_trace_is_a_chain (task : Task) (agents : list BaseAgent.t)
    (r : Result) :
  snd (execute task agents) = Ok r ->
  status r = "completed"
  /\ steps r = length agents
  /\ length (trace r) = length agents
  /\ List.map s_agent (trace r) = List.map BaseAgent.id agents
  /\ List.map input (trace r) ++ [finalResult r]
     = of_task task :: List.map (fun s => of_reply (output s)) (trace r)
  /\ Forall2 (fun a ks =>
                snd (BaseAgent.await_query a (BaseAgent.id a)
                       (pipeline_step (input (snd ks)) (fst ks)) 30000)
                = Ok (output (snd ks)))
       agents (numbered 1 (trace r))
  /\ List.map request (fst (execute task agents))
     = List.map (fun ks => pipeline_step (input (snd ks)) (fst ks))
         (numbered 1 (trace r)).
Proof.
  intro H. unfold execute in *.
  destruct (pipeline_trace agents (of_task task) [] r H)
    as (new & Ht & Hl & Hs & Hst & Hag & Hch & Hq & Hc).
  cbn in Ht. subst new.
  repeat split; try assumption. congruence.
Qed.

Lemma sequential_trace_is_a_chain_witness :
  exists r,
    snd (execute (sample_task "strategic_planning")
           [helpful "adjudicator" "CFO"; helpful "doctor" "COO"]) = Ok r
    /\ steps r = 2%nat
    /\ List.map input (trace r) ++ [finalResult r]
       = of_task (sample_task "strategic_planning")
         :: List.map (fun s => of_reply (output s)) (trace r).
Proof.
  eexists. split; [reflexivity|].
  split;
    apply (sequential_trace_is_a_chain (sample_task "strategic_planning")
             [helpful "adjudicator" "CFO"; helpful "doctor" "COO"] _ eq_refl).
Defined.

End SequentialMore.

Section FanOutMore.

Lemma Promise_all_values {A} (l : list (Z * result A)) (vs : list A) :
  Promise_all l = Ok vs -> List.map snd l = List.map Ok vs.
Proof.
  unfold Promise_all.
  destruct (first_rejection l) as [[t e]|] eqn:E; [discriminate|].
  intro H. injection H as <-.
  induction l as [|[t [v|e]] l IH]; cbn in *.
  - reflexivity.
  - f_equal. apply IH, E.
  - destruct (first_rejection l) as [[t' e']|]; [|discriminate].
    destruct (t' <? t)%Z; discriminate.
Qed.

(** X8: a concurrent run in mode best in which no branch is fulfilled
    (every agent fails, or there is no agent at all) returns no result: the
    reduction over the empty list of results throws. *)
Theorem concurrent_best_without_result_throws (task : Task)
    (agents : list BaseAgent.t) :
  synthesisType task = Some "best" ->
  Forall (fun a => is_ok (snd (ConcurrentArchitecture.executeSubtask task a)) = false)
    agents ->
  snd (ConcurrentArchitecture.execute task agents)
  = Throw (TypeError "Reduce of empty array with no initial value")
  /\ List.map callee (fst (ConcurrentArchitecture.execute task agents))
     = List.map BaseAgent.id agents.
Proof.
  intros Hb Hall. unfold ConcurrentArchitecture.execute. cbn [fst snd].
  split; [|now rewrite map_map].
  assert (E : fulfilled_values
                (List.map (ConcurrentArchitecture.executeSubtask task) agents) = []).
  { induction Hall as [|a l Ha _ IH]; [reflexivity|].
    cbn [List.map]. change (?x :: ?l) with ([x] ++ l).
    rewrite fulfilled_values_app, IH, app_nil_r.
    unfold fulfilled_values. cbn.
    destruct (snd (ConcurrentArchitecture.executeSubtask task a));
      [discriminate | reflexivity]. }
  rewrite E. unfold ConcurrentArchitecture.synthesizeResults. rewrite Hb.
  reflexivity.
Qed.

Lemma concurrent_best_without_result_throws_witness :
  snd (ConcurrentArchitecture.execute
         {| task_id := Some "task-1"; task_type := "data_processing";
            description := None; amount := None; task_sender := None;
            severity := None; requiredSkills := None; preferredRole := None;
            synthesisType := Some "best" |}
         [failing "doctor" "COO"; plain_agent "charon" "CCO"])
  = Throw (TypeError "Reduce of empty array with no initial value").
Proof.
  apply concurrent_best_without_result_throws; [reflexivity|].
  repeat constructor.
Defined.

(** X9: in mode best a concurrent run returns, of the results whose
    confidence is a number, the first one of greatest confidence. *)
Theorem concurrent_best_is_most_confident (task : Task)
    (agents : list BaseAgent.t) (r : ConcurrentArchitecture.Result) :
  synthesisType task = Some "best" ->
  snd (ConcurrentArchitecture.execute task agents) = Ok r ->
  Forall (fun x => confidence_of x <> JsNum.NaN) (ConcurrentArchitecture.results r) ->
  exists best before after,
    ConcurrentArchitecture.synthesis r = ConcurrentArchitecture.single (Some best)
    /\ ConcurrentArchitecture.results r = before ++ best :: after
    /\ Forall (fun x => JsNum.ltb (confidence_of x) (confidence_of best) = true) before
    /\ Forall (fun x => JsNum.leb (confidence_of x) (confidence_of best) = true) after.
Proof.
  intros Hb H Hn. unfold ConcurrentArchitecture.execute in H. cbn [snd] in H.
  unfold ConcurrentArchitecture.synthesizeResults in H. rewrite Hb in H.
  cbn [String.eqb Ascii.eqb Bool.eqb] in H.
  destruct (fulfilled_values _) as [|x l] eqn:E; [discriminate|].
  cbn [reduce] in H. injection H as <-. cbn in *.
  destruct (fold_left_first_greatest confidence_of l x Hn)
    as (before & after & Eq & Hlt & Hle).
  assert (F : forall (l0 : list Reply) x0,
            fold_left (fun best current =>
                         if ConcurrentArchitecture.more_confident current best
                         then current else best) l0 x0
            = fold_left (fun best current =>
                           if JsNum.gtb (confidence_of current) (confidence_of best)
                           then current else best) l0 x0).
  { induction l0 as [|y l0 IH]; intro x0; [reflexivity|]. cbn [fold_left].
    replace (ConcurrentArchitecture.more_confident y x0)
      with (JsNum.gtb (confidence_of y) (confidence_of x0)); [apply IH|].
    unfold ConcurrentArchitecture.more_confident, confidence_of.
    destruct (confidence y) as [[? | [] |]|], (confidence x0) as [[? | [] |]|];
      reflexivity. }
  rewrite F. eexists _, before, after. repeat split; assumption.
Qed.

Lemma concurrent_best_is_most_confident_witness :
  exists r best,
    snd (ConcurrentArchitecture.execute
           {| task_id := Some "task-1"; task_type := "data_processing";
              description := None; amount := None; task_sender := None;
              severity := None; requiredSkills := None; preferredRole := None;
              synthesisType := Some "best" |}
           [helpful "doctor" "COO"; failing "john-wick" "CTO";
            helpful "charon" "CCO"]) = Ok r
    /\ ConcurrentArchitecture.synthesis r = ConcurrentArchitecture.single (Some best)
    /\ agent best = Some "doctor".
Proof.
  eexists.
  destruct (concurrent_best_is_most_confident
              {| task_id := Some "task-1"; task_type := "data_processing";
                 description := None; amount := None; task_sender := None;
                 severity := None; requiredSkills := None; preferredRole := None;
                 synthesisType := Some "best" |}
              [helpful "doctor" "COO"; failing "john-wick" "CTO";
               helpful "charon" "CCO"] _ eq_refl eq_refl)
    as (best & before & after & Hs & _).
  { repeat constructor; discriminate. }
  exists best. split; [reflexivity|]. split; [exact Hs|].
  cbn in Hs. injection Hs as <-. reflexivity.
Defined.

(** X10: a competition that returns has scored every agent's entry with
    [evaluateResult], in agent order, and, when every score is a number, its
    winner is the first entry of greatest score. *)
Theorem competitive_winner_is_first_best (task : Task) (agents : list BaseAgent.t)
    (r : CompetitiveArchitecture.Result) :
  snd (CompetitiveArchitecture.execute task agents) = Ok r ->
  Forall (fun s => CompetitiveArchitecture.score s <> JsNum.NaN)
    (CompetitiveArchitecture.allResults r) ->
  List.map (fun s => CompetitiveArchitecture.e_agent (CompetitiveArchitecture.entry s))
    (CompetitiveArchitecture.allResults r) = List.map BaseAgent.id agents
  /\ Forall (fun s => CompetitiveArchitecture.score s
                      = CompetitiveArchitecture.evaluateResult
                          (CompetitiveArchitecture.entry s))
       (CompetitiveArchitecture.allResults r)
  /\ exists before after,
       CompetitiveArchitecture.allResults r
       = before ++ CompetitiveArchitecture.winner r :: after
       /\ Forall (fun s => JsNum.ltb (CompetitiveArchitecture.score s)
                             (CompetitiveArchitecture.score
                                (CompetitiveArchitecture.winner r)) = true) before
       /\ Forall (fun s => JsNum.leb (CompetitiveArchitecture.score s)
                             (CompetitiveArchitecture.score
                                (CompetitiveArchitecture.winner r)) = true) after.
Proof.
  intros H Hn. unfold CompetitiveArchitecture.execute in H. cbn [snd] in H.
  destruct (Promise_all _) as [results|e] eqn:Ep; [|discriminate].
  apply Promise_all_values in Ep.
  remember (List.map (fun r0 => CompetitiveArchitecture.Build_Scored r0 _) results)
    as scored eqn:El.
  symmetry in El. destruct scored as [|x l]; [discriminate|].
  cbn [reduce] in H. injection H as <-.
  cbn [CompetitiveArchitecture.allResults CompetitiveArchitecture.winner] in *.
  split; [|split].
  - rewrite <- El, map_map. cbn.
    clear - Ep. revert results Ep.
    induction agents as [|a agents IH]; intros [|v results] Ep; cbn in *;
      try discriminate; [reflexivity|].
    injection Ep as E1 E2. f_equal; [|now apply IH].
    unfold CompetitiveArchitecture.compete in E1.
    destruct (BaseAgent.await_query a _ _ _) as [took [reply|e]]; cbn in E1;
      [|discriminate].
    injection E1 as <-. reflexivity.
  - rewrite <- El. apply List.Forall_forall. intros s Hs.
    apply in_map_iff in Hs. destruct Hs as (v & <- & _). reflexivity.
  - exact (fold_left_first_greatest CompetitiveArchitecture.score l x Hn).
Qed.

Lemma competitive_winner_is_first_best_witness :
  exists r,
    snd (CompetitiveArchitecture.execute (sample_task "complex_analysis")
           [helpful "doctor" "COO"; scripted "charon" "CCO" 50 (Ok (reply_with_vote "x"))])
    = Ok r
    /\ List.map (fun s => CompetitiveArchitecture.e_agent (CompetitiveArchitecture.entry s))
         (CompetitiveArchitecture.allResults r) = ["doctor"; "charon"].
Proof.
  eexists. split; [reflexivity|].
  apply (competitive_winner_is_first_best (sample_task "complex_analysis")
           [helpful "doctor" "COO";
            scripted "charon" "CCO" 50 (Ok (reply_with_vote "x"))] _ eq_refl).
  repeat constructor; discriminate.
Defined.

End FanOutMore.

(** ** The scores: ranges and the falsy zero *)

Section ScoresMore.
Import SwarmOrchestrator.

Lemma inject_Z_nonneg (z : Z) : (0 <= z)%Z -> (0 <= inject_Z z)%Q.
Proof. intro H. unfold Qle, inject_Z. simpl. lia. Qed.

Lemma count_ratio_in_unit (m n : nat) :
  (m <= n)%nat -> (0 < n)%nat ->
  (0 <= inject_Z (Z.of_nat m) / inject_Z (Z.of_nat n) <= 1)%Q.
Proof.
  intros Hle Hpos. destruct n as [|n']; [lia|].
  replace (Z.of_nat (S n')) with (Z.pos (Pos.of_succ_nat n')) by reflexivity.
  assert (Hm : (Z.of_nat m <= Z.pos (Pos.of_succ_nat n'))%Z) by lia.
  assert (H0 : (0 <= Z.of_nat m)%Z) by lia.
  generalize dependent (Z.of_nat m). intros zm Hm H0.
  unfold Qle, Qdiv, Qmult, Qinv, inject_Z. simpl. split; lia.
Qed.

Lemma matchingSkills_le (agent_skills required : list string) :
  List.NoDup agent_skills ->
  (matchingSkills agent_skills required <= length required)%nat.
Proof.
  intro Hnd. unfold matchingSkills.
  apply List.NoDup_incl_length.
  - now apply List.NoDup_filter.
  - intros s Hs. apply List.filter_In in Hs. destruct Hs as [_ Hs].
    apply existsb_exists in Hs. destruct Hs as (s' & Hin & E).
    apply String.eqb_eq in E. now subst.
Qed.

(** X11: for an agent whose skills are listed once and whose recorded
    success rate lies between 0 and 1, and a task that requires no skill
    list or a non-empty one, the score is a number, at least 0.1 and at most
    1. *)
Theorem calculateAgentScore_range (a : BaseAgent.t) (task : Task) :
  match requiredSkills task with
  | Some required => required <> [] /\ List.NoDup (BaseAgent.skills a)
  | None => True
  end ->
  in_unit_interval (recorded_successRate a) ->
  exists s, calculateAgentScore a task = JsNum.Fin s /\ (0.1 <= s <= 1)%Q.
Proof.
  intros Hreq Hrate. unfold calculateAgentScore.
  assert (Hskill : exists k,
             match requiredSkills task with
             | Some required =>
                 JsNum.add (JsNum.Fin 0)
                   (JsNum.mul
                      (JsNum.div (JsNum.of_nat (matchingSkills (BaseAgent.skills a) required))
                         (JsNum.of_nat (length required)))
                      (JsNum.Fin 0.4))
             | None => JsNum.add (JsNum.Fin 0) (JsNum.Fin 0.2)
             end = JsNum.Fin k /\ (0 <= k <= 0.4)%Q).
  { destruct (requiredSkills task) as [required|].
    - destruct Hreq as [Hne Hnd]. rewrite ratio_of_counts.
      destruct (length required) as [|n] eqn:En.
      + apply length_zero_iff_nil in En. contradiction.
      + cbn [Nat.eqb]. eexists. split; [reflexivity|].
        pose proof (count_ratio_in_unit _ (S n)
                      (eq_ind _ (fun k => (_ <= k)%nat)
                         (matchingSkills_le _ required Hnd) _ En)
                      (Nat.lt_0_succ n)) as Hr.
        lra.
    - eexists. split; [reflexivity|]. lra. }
  destruct Hskill as (k & -> & Hk).
  assert (Hav : exists v,
             (if String.eqb (BaseAgent.status a) "idle"
              then JsNum.Fin 0.3 else JsNum.Fin 0.1) = JsNum.Fin v
             /\ (0.1 <= v <= 0.3)%Q).
  { destruct (String.eqb (BaseAgent.status a) "idle"); eexists;
      (split; [reflexivity|lra]). }
  destruct Hav as (v & -> & Hv).
  assert (Hh : exists h,
             num_or (recorded_successRate a) (JsNum.Fin 0.8) = JsNum.Fin h
             /\ (0 < h <= 1)%Q).
  { unfold num_or, in_unit_interval in *.
    destruct (recorded_successRate a) as [[q|[]|]|]; try contradiction.
    - unfold JsNum.truthy. destruct (Qeq_bool q 0) eqn:E; cbn.
      + eexists. split; [reflexivity|]. lra.
      + apply Qeq_bool_false_iff in E. eexists. split; [reflexivity|]. lra.
    - eexists. split; [reflexivity|]. lra. }
  destruct Hh as (h & -> & Hh).
  destruct (preferredRole task) as [r|];
    [destruct (negb (r =? "") && (BaseAgent.role a =? r))|];
    cbn; eexists; (split; [reflexivity|]); lra.
Qed.

Lemma calculateAgentScore_range_witness :
  exists s,
    calculateAgentScore (agent_with ["incident_response"; "devops"] "busy")
      incident_task
    = JsNum.Fin s /\ (0.1 <= s <= 1)%Q.
Proof.
  apply calculateAgentScore_range; cbn.
  - split; [discriminate|]. repeat constructor; cbn; intuition discriminate.
  - lra.
Defined.

(** The two bounds on doubles, at the inputs where the sum is least and
    greatest: a busy agent without matching skill and with a success rate
    next to 0 scores 0.1, an idle agent of the preferred role with every
    skill and the success rate 1 scores at most 1. *)
Example score_range_on_doubles :
  PrimFloat.leb 0.1
    (calculateAgentScore_double (Some (0, 2)%float) false (Some 1e-17%float) false)
  = true
  /\ PrimFloat.leb
       (calculateAgentScore_double (Some (2, 2)%float) true (Some 1%float) true) 1
     = true.
Proof. split; vm_compute; reflexivity. Qed.

(** X12: a task whose list of required skills is empty gives every agent
    the score NaN, which passes no threshold. *)
Theorem calculateAgentScore_empty_requirement (a : BaseAgent.t) (task : Task)
    (threshold : JsNum.t) :
  requiredSkills task = Some [] ->
  calculateAgentScore a task = JsNum.NaN
  /\ JsNum.gtb (calculateAgentScore a task) threshold = false.
Proof.
  intro H.
  assert (E : calculateAgentScore a task = JsNum.NaN).
  { unfold calculateAgentScore. rewrite H, matchingSkills_none. cbn.
    destruct (BaseAgent.status a =? "idle"), (preferredRole task) as [r|];
      try reflexivity;
      destruct (negb (r =? "") && (BaseAgent.role a =? r)); reflexivity. }
  split; [exact E|]. rewrite E. now destruct threshold as [?|[]|].
Qed.

Lemma calculateAgentScore_empty_requirement_witness :
  calculateAgentScore (plain_agent "doctor" "COO")
    {| task_id := None; task_type := "data_processing"; description := None;
       amount := None; task_sender := None; severity := None;
       requiredSkills := Some []; preferredRole := None; synthesisType := None |}
  = JsNum.NaN.
Proof.
  apply (calculateAgentScore_empty_requirement _ _ (JsNum.Fin 0.3)). reflexivity.
Defined.

Lemma score_monotone_in_skill_overlap_witness :
  (matchingSkills ["devops"] ["incident_response"; "operations"]
   < matchingSkills ["incident_response"; "devops"]
       ["incident_response"; "operations"])%nat
  /\ JsNum.ltb
       (calculateAgentScore (agent_with ["incident_response"; "devops"] "idle")
          incident_task)
       (calculateAgentScore (agent_with ["devops"] "idle") incident_task)
     = false.
Proof.
  split; [vm_compute; lia|].
  apply score_monotone_in_skill_overlap.
  - repeat split.
  - reflexivity.
  - reflexivity.
  - intros required H. injection H as <-. vm_compute. lia.
Defined.

Lemma score_monotone_in_availability_witness :
  BaseAgent.status (agent_with ["incident_response"; "devops"] "busy") <> "idle"
  /\ JsNum.ltb
       (calculateAgentScore (agent_with ["incident_response"; "devops"] "idle")
          incident_task)
       (calculateAgentScore (agent_with ["incident_response"; "devops"] "busy")
          incident_task)
     = false.
Proof.
  split; [discriminate|].
  apply score_monotone_in_availability.
  - repeat split.
  - reflexivity.
  - reflexivity.
  - reflexivity.
Defined.

Lemma score_monotone_in_nonzero_success_rate_witness :
  JsNum.ltb
    (calculateAgentScore (with_successRate (JsNum.Fin 0.9) (plain_agent "doctor" "COO"))
       (sample_task "system_alert"))
    (calculateAgentScore (with_successRate (JsNum.Fin 0.5) (plain_agent "doctor" "COO"))
       (sample_task "system_alert"))
  = false.
Proof.
  apply score_monotone_in_nonzero_success_rate; reflexivity.
Defined.

Import CompetitiveArchitecture.

Lemma speedScore_in_unit (t : Q) :
  (0 <= t)%Q ->
  exists v,
    JsNum.max (JsNum.Fin 0)
      (JsNum.sub (JsNum.Fin 1) (JsNum.div (JsNum.Fin t) (JsNum.Fin 30000)))
    = JsNum.Fin v /\ (0 <= v <= 1)%Q.
Proof.
  intro Ht. unfold JsNum.div.
  replace (Qeq_bool 30000 0) with false by reflexivity.
  unfold JsNum.sub, JsNum.max, JsNum.leb.
  assert (Hx : (0 <= t / 30000)%Q).
  { apply Qle_shift_div_l; [reflexivity|]. now rewrite Qmult_0_l. }
  generalize dependent (t / 30000)%Q. intros x Hx.
  destruct (Qle_bool 0 (1 - x)) eqn:E.
  - apply Qle_bool_iff in E. eexists. split; [reflexivity|]. lra.
  - eexists. split; [reflexivity|]. lra.
Qed.

(** X13: for an entry whose quality and confidence, where reported, lie
    between 0 and 1 and whose execution time is not negative, the score of
    the competition is a number above 0 and at most 1. *)
Theorem evaluateResult_range (e : Entry) :
  in_unit_interval (quality (e_result e)) ->
  in_unit_interval (confidence (e_result e)) ->
  (0 <= executionTime e)%Z ->
  exists s, evaluateResult e = JsNum.Fin s /\ (0 < s <= 1)%Q.
Proof.
  intros Hq Hc Ht. apply inject_Z_nonneg in Ht. unfold evaluateResult.
  assert (Hterm : forall x, in_unit_interval x ->
             exists h, num_or x (JsNum.Fin 0.5) = JsNum.Fin h /\ (0 < h <= 1)%Q).
  { intros x Hx. unfold num_or, in_unit_interval in *.
    destruct x as [[q|[]|]|]; try contradiction.
    - unfold JsNum.truthy. destruct (Qeq_bool q 0) eqn:E; cbn.
      + eexists. split; [reflexivity|]. lra.
      + apply Qeq_bool_false_iff in E. eexists. split; [reflexivity|]. lra.
    - eexists. split; [reflexivity|]. lra. }
  destruct (Hterm _ Hq) as (q & -> & Hq').
  destruct (Hterm _ Hc) as (c & -> & Hc').
  unfold JsNum.of_Z. destruct (speedScore_in_unit _ Ht) as (v & -> & Hv).
  cbn. eexists. split; [reflexivity|]. lra.
Qed.

Lemma evaluateResult_range_witness :
  exists s, evaluateResult (sample_entry 12000) = JsNum.Fin s /\ (0 < s <= 1)%Q.
Proof.
  apply evaluateResult_range; cbn; try lra. lia.
Defined.

(** X14: the reported quality 0 is falsy and is scored as the default 0.5:
    of entries alike but for the quality, the one of quality 0 has the score
    of the one without quality and of the one of quality 0.5, and the one of
    any quality between 0 and 0.5 scores no more than it. *)
Theorem evaluateResult_zero_quality_scores_as_half (e : Entry) (q : Q) :
  in_unit_interval (confidence (e_result e)) ->
  (0 <= executionTime e)%Z ->
  (0 < q <= 0.5)%Q ->
  evaluateResult (with_quality (Some (JsNum.Fin 0)) e)
  = evaluateResult (with_quality None e)
  /\ evaluateResult (with_quality (Some (JsNum.Fin 0)) e)
     = evaluateResult (with_quality (Some (JsNum.Fin 0.5)) e)
  /\ JsNum.leb (evaluateResult (with_quality (Some (JsNum.Fin q)) e))
               (evaluateResult (with_quality (Some (JsNum.Fin 0)) e)) = true.
Proof.
  intros Hc Ht Hq. apply inject_Z_nonneg in Ht.
  split; [reflexivity|]. split; [reflexivity|].
  unfold evaluateResult, with_quality. cbn [e_result executionTime quality confidence].
  assert (Hc' : exists h, num_or (confidence (e_result e)) (JsNum.Fin 0.5)
                          = JsNum.Fin h).
  { unfold num_or, in_unit_interval in *.
    destruct (confidence (e_result e)) as [[c|[]|]|]; try contradiction;
      [destruct (JsNum.truthy (JsNum.Fin c))|]; eauto. }
  destruct Hc' as (c & ->).
  assert (Eq : Qeq_bool q 0 = false) by (apply Qeq_bool_false_iff; lra).
  unfold num_or, JsNum.truthy. rewrite Eq.
  unfold JsNum.of_Z. destruct (speedScore_in_unit _ Ht) as (v & -> & Hv).
  cbn. apply Qle_bool_iff. lra.
Qed.

Lemma evaluateResult_zero_quality_scores_as_half_witness :
  evaluateResult (with_quality (Some (JsNum.Fin 0)) (sample_entry 12000))
  = evaluateResult (with_quality (Some (JsNum.Fin 0.5)) (sample_entry 12000))
  /\ JsNum.leb
       (evaluateResult (with_quality (Some (JsNum.Fin 0.4)) (sample_entry 12000)))
       (evaluateResult (with_quality (Some (JsNum.Fin 0)) (sample_entry 12000)))
     = true.
Proof.
  destruct (evaluateResult_zero_quality_scores_as_half (sample_entry 12000) 0.4)
    as (_ & H1 & H2); cbn; try lra; try lia.
  split; [exact H1 | exact H2].
Defined.

(** The same on doubles: the quality 0 is scored as the quality 0.5; the
    quality 0.4 scores less, and the quality next below 0.5 scores no
    more. *)
Example zero_quality_on_doubles :
  PrimFloat.eqb (evaluateResult_double (Some 0%float) 12000 (Some 0.7%float))
                (evaluateResult_double (Some 0.5%float) 12000 (Some 0.7%float))
  = true
  /\ PrimFloat.eqb (evaluateResult_double (Some 0%float) 12000 (Some 0.7%float))
                   (evaluateResult_double None 12000 (Some 0.7%float))
     = true
  /\ PrimFloat.ltb (evaluateResult_double (Some 0.4%float) 12000 (Some 0.7%float))
                   (evaluateResult_double (Some 0%float) 12000 (Some 0.7%float))
     = true
  /\ PrimFloat.leb
       (evaluateResult_double (Some 0.49999999999999994%float) 12000
          (Some 0.7%float))
       (evaluateResult_double (Some 0%float) 12000 (Some 0.7%float))
     = true.
Proof. repeat split; vm_compute; reflexivity. Qed.

End ScoresMore.

(** ** The bus: registry, channels, counters *)

Section BusMore.
Context {R : Runtime}.
Import MessageBus.

Lemma map_get_set_same {V} (k : string) (v : V) (m : list (string * V)) :
  map_get k (map_set k v m) = Some v.
Proof.
  induction m as [|[k' v'] m IH]; cbn.
  - now rewrite String.eqb_refl.
  - destruct (String.eqb k k') eqn:E; cbn; rewrite E; [reflexivity|exact IH].
Qed.

Lemma map_get_set_other {V} (k k0 : string) (v : V) (m : list (string * V)) :
  k0 <> k -> map_get k0 (map_set k v m) = map_get k0 m.
Proof.
  intro Hne. induction m as [|[k' v'] m IH]; cbn.
  - destruct (String.eqb_spec k0 k); [contradiction|reflexivity].
  - destruct (String.eqb_spec k k') as [-> | Hk]; cbn.
    + destruct (String.eqb_spec k0 k'); [contradiction|reflexivity].
    + now rewrite IH.
Qed.

Lemma map_get_delete_same {V} (k : string) (m : list (string * V)) :
  map_get k (map_delete k m) = None.
Proof.
  unfold map_delete. induction m as [|[k' v'] m IH]; cbn; [reflexivity|].
  destruct (String.eqb k k') eqn:E; cbn; [exact IH|]. now rewrite E.
Qed.

Lemma map_get_keys {V} (k : string) (m : list (string * V)) :
  In k (map_keys m) -> exists v, map_get k m = Some v.
Proof.
  unfold map_keys. induction m as [|[k' v'] m IH]; cbn; [tauto|].
  intros [-> | H].
  - rewrite String.eqb_refl. eauto.
  - destruct (String.eqb k k'); eauto.
Qed.

Lemma set_has_In (x : string) (s : list string) : set_has x s = true <-> In x s.
Proof.
  unfold set_has. rewrite existsb_exists. split.
  - intros (y & Hy & E). apply String.eqb_eq in E. now subst.
  - intro H. exists x. split; [exact H|apply String.eqb_refl].
Qed.

Lemma set_has_add (x : string) (s : list string) : set_has x (set_add x s) = true.
Proof.
  unfold set_add. destruct (set_has x s) eqn:E; [exact E|].
  apply set_has_In, in_or_app. right. left. reflexivity.
Qed.

Lemma set_has_delete (x : string) (s : list string) :
  set_has x (set_delete x s) = false.
Proof.
  destruct (set_has x (set_delete x s)) eqn:E; [|reflexivity].
  apply set_has_In in E. unfold set_delete in E. apply List.filter_In in E.
  destruct E as [_ E]. now rewrite String.eqb_refl in E.
Qed.

Lemma set_delete_add (x : string) (s : list string) :
  set_delete x (set_add x s) = set_delete x s.
Proof.
  unfold set_add. destruct (set_has x s); [reflexivity|].
  unfold set_delete. rewrite List.filter_app. cbn.
  rewrite String.eqb_refl. cbn. apply app_nil_r.
Qed.

Lemma set_delete_absent (x : string) (s : list string) :
  set_has x s = false -> set_delete x s = s.
Proof.
  unfold set_delete, set_has. induction s as [|y s IH]; cbn; [reflexivity|].
  intro H. apply orb_false_iff in H. destruct H as [-> H]. cbn.
  now rewrite IH.
Qed.

Lemma subscribe_frame (a c : string) (b : MessageBus.t) :
  messageHistory (fst (subscribe a c b)) = messageHistory b
  /\ metrics (fst (subscribe a c b)) = metrics b.
Proof. unfold subscribe. destruct (map_get a (agents b)); split; reflexivity. Qed.

Lemma unsubscribe_frame (a c : string) (b : MessageBus.t) :
  messageHistory (fst (unsubscribe a c b)) = messageHistory b
  /\ metrics (fst (unsubscribe a c b)) = metrics b.
Proof.
  unfold unsubscribe. destruct (map_get a (agents b)); [|split; reflexivity].
  destruct (channels b !! c); split; reflexivity.
Qed.

Lemma unregisterAgent_frame (a : string) (b : MessageBus.t) :
  messageHistory (unregisterAgent a b) = messageHistory b
  /\ metrics (unregisterAgent a b) = metrics b.
Proof.
  unfold unregisterAgent. destruct (map_get a (agents b)) as [record|];
    [|split; reflexivity].
  cbn. generalize (subscriptions record). intro l. revert b.
  induction l as [|c l IH]; intro b; cbn; [split; reflexivity|].
  destruct (IH (fst (unsubscribe a c b))) as [-> ->].
  apply unsubscribe_frame.
Qed.

Lemma send_accounted (m : Message.t) (b : MessageBus.t) :
  accounted b -> accounted (fst (send m b)).
Proof.
  unfold accounted, send. intro H.
  destruct (Message.verify m); cbn; [|exact H].
  destruct (N.ltb _ _).
  - destruct (messageHistory b); cbn in *; [lia|]. rewrite length_app. cbn. lia.
  - rewrite length_app. cbn. lia.
Qed.

Lemma step_accounted (st : Env * MessageBus.t) (o : Op) :
  accounted (snd st) -> accounted (snd (step st o)).
Proof.
  destruct st as [env b]. intro H. cbn [snd] in H. destruct o; cbn [step snd].
  - unfold registerAgent, accounted.
    destruct (subscribe_frame agentId agentId
                (with_agents b (map_set agentId
                   {| subscriptions := []; lastSeen := clock env |} (agents b))))
      as [-> ->]. exact H.
  - unfold accounted. destruct (unregisterAgent_frame agentId b) as [-> ->]. exact H.
  - unfold accounted. destruct (subscribe_frame agentId channel b) as [-> ->]. exact H.
  - unfold accounted. destruct (unsubscribe_frame agentId channel b) as [-> ->]. exact H.
  - apply send_accounted, H.
  - unfold broadcast.
    destruct (channels b !! channel) as [[|s subs]|]; cbn; try exact H.
    pose proof (send_accounted
      (Message.new
         {| Message.a_sender := Message.a_sender messageData;
            Message.a_recipients := Message.RList (s :: subs);
            Message.a_type := Message.a_type messageData;
            Message.a_payload := Message.a_payload messageData;
            Message.a_priority := Message.a_priority messageData;
            Message.a_ttl := Message.a_ttl messageData |}
         (randomUUID (uuids_drawn env)) (clock env)) b H) as Hs.
    destruct (send _ b) as [b' outcome]. exact Hs.
  - exact H.
  - unfold accounted in *. cbn.
    pose proof (filter_partition_length (expired (clock env)) (messageHistory b)).
    lia.
  - exact H.
  - exact H.
Qed.

(** X15: in every state the bus reaches from its construction, the size of
    the history plus the number of envelopes counted as expired is at most
    the number of envelopes counted as sent. *)
Theorem history_and_expired_within_sent (options_maxHistory : option N)
    (env0 : Env) (ops : list Op) :
  accounted (snd (run ops (env0, MessageBus.new options_maxHistory))).
Proof.
  assert (H : forall st, accounted (snd st) -> accounted (snd (run ops st))).
  { induction ops as [|o ops IH]; intros st Hst; [exact Hst|].
    change (run (o :: ops) st) with (run ops (step st o)).
    apply IH, step_accounted, Hst. }
  apply H. unfold accounted. cbn. lia.
Qed.

End BusMore.

Section BusChannels.
Context {R : Runtime}.
Import MessageBus.

Lemma registered_record (a : string) (b : MessageBus.t) :
  registered a b = true -> exists record, map_get a (agents b) = Some record.
Proof.
  unfold registered. destruct (map_get a (agents b)); [eauto|discriminate].
Qed.

Lemma subscribe_channels (a c c' : string) (b : MessageBus.t) :
  registered a b = true ->
  channels (fst (subscribe a c b)) !! c'
  = if String.eqb c c' then Some (set_add a (subscribers c b))
    else channels b !! c'.
Proof.
  intro H. destruct (registered_record _ _ H) as [record E].
  unfold subscribe, subscribers. rewrite E. cbn.
  destruct (String.eqb_spec c c') as [<- | Hne].
  - apply lookup_insert_eq.
  - now apply lookup_insert_ne.
Qed.

Lemma subscribe_agents (a c a' : string) (b : MessageBus.t) :
  map_get a' (agents (fst (subscribe a c b)))
  = match map_get a (agents b) with
    | Some record =>
        if String.eqb a' a
        then Some {| subscriptions := set_add c (subscriptions record);
                     lastSeen := lastSeen record |}
        else map_get a' (agents b)
    | None => map_get a' (agents b)
    end.
Proof.
  unfold subscribe. destruct (map_get a (agents b)) as [record|] eqn:E;
    [|reflexivity].
  cbn. destruct (String.eqb_spec a' a) as [-> | Hne].
  - apply map_get_set_same.
  - now apply map_get_set_other.
Qed.

Lemma unsubscribe_channels (a c c' : string) (b : MessageBus.t) :
  registered a b = true ->
  channels (fst (unsubscribe a c b)) !! c'
  = if String.eqb c c'
    then match channels b !! c with
         | Some s => Some (set_delete a s)
         | None => None
         end
    else channels b !! c'.
Proof.
  intro H. destruct (registered_record _ _ H) as [record E].
  unfold unsubscribe. rewrite E.
  destruct (channels b !! c) as [s|] eqn:Ec; cbn.
  - destruct (String.eqb_spec c c') as [<- | Hne].
    + apply lookup_insert_eq.
    + now apply lookup_insert_ne.
  - destruct (String.eqb_spec c c') as [<- | Hne]; [exact Ec|reflexivity].
Qed.

Lemma unsubscribe_agents (a c a' : string) (b : MessageBus.t) :
  map_get a' (agents (fst (unsubscribe a c b)))
  = match map_get a (agents b) with
    | Some record =>
        if String.eqb a' a
        then Some {| subscriptions := set_delete c (subscriptions record);
                     lastSeen := lastSeen record |}
        else map_get a' (agents b)
    | None => map_get a' (agents b)
    end.
Proof.
  unfold unsubscribe. destruct (map_get a (agents b)) as [record|] eqn:E;
    [|reflexivity].
  assert (Ha : forall b1, agents b1 = agents b ->
            map_get a' (map_set a {| subscriptions := set_delete c (subscriptions record);
                                     lastSeen := lastSeen record |} (agents b1))
            = if String.eqb a' a
              then Some {| subscriptions := set_delete c (subscriptions record);
                           lastSeen := lastSeen record |}
              else map_get a' (agents b)).
  { intros b1 ->. destruct (String.eqb_spec a' a) as [-> | Hne].
    - apply map_get_set_same.
    - now apply map_get_set_other. }
  destruct (channels b !! c); cbn [fst with_agents agents]; apply Ha; reflexivity.
Qed.

(** X16: for a registered agent, subscribing puts the agent on the channel
    and the channel into the agent's record; unsubscribing afterwards takes
    both out again, leaves the channel in place (empty when the agent was its
    only subscriber) and touches no other channel and no other agent's
    record; both calls return true. *)
Theorem subscribe_then_unsubscribe (a c : string) (b : MessageBus.t) :
  let b1 := fst (subscribe a c b) in
  let b2 := fst (unsubscribe a c b1) in
  registered a b = true ->
  snd (subscribe a c b) = true /\ snd (unsubscribe a c b1) = true
  /\ set_has a (subscribers c b1) = true
  /\ set_has c (subscriptions_of a b1) = true
  /\ set_has a (subscribers c b2) = false
  /\ set_has c (subscriptions_of a b2) = false
  /\ channels b2 !! c = Some (set_delete a (subscribers c b))
  /\ (forall c', c' <> c -> channels b2 !! c' = channels b !! c')
  /\ (forall a', a' <> a -> map_get a' (agents b2) = map_get a' (agents b)).
Proof.
  intros b1 b2 H.
  destruct (registered_record _ _ H) as [record E].
  assert (H1 : registered a b1 = true).
  { unfold registered, b1. rewrite subscribe_agents, E, String.eqb_refl.
    reflexivity. }
  assert (Ec1 : channels b1 !! c = Some (set_add a (subscribers c b))).
  { unfold b1. rewrite subscribe_channels, String.eqb_refl by exact H.
    reflexivity. }
  assert (Ec2 : channels b2 !! c = Some (set_delete a (subscribers c b))).
  { unfold b2. rewrite unsubscribe_channels, String.eqb_refl, Ec1 by exact H1.
    now rewrite set_delete_add. }
  split; [|split; [|split; [|split; [|split; [|split; [|split; [|split]]]]]]].
  - unfold subscribe. now rewrite E.
  - unfold unsubscribe. destruct (registered_record _ _ H1) as [r1 ->].
    reflexivity.
  - unfold subscribers. rewrite Ec1. apply set_has_add.
  - unfold subscriptions_of, b1. rewrite subscribe_agents, E, String.eqb_refl.
    apply set_has_add.
  - unfold subscribers. rewrite Ec2. apply set_has_delete.
  - unfold subscriptions_of, b2. rewrite unsubscribe_agents.
    unfold b1. rewrite subscribe_agents, E, !String.eqb_refl. cbn.
    apply set_has_delete.
  - exact Ec2.
  - intros c' Hne. unfold b2.
    rewrite unsubscribe_channels by exact H1.
    destruct (String.eqb_spec c c'); [congruence|].
    unfold b1. rewrite subscribe_channels by exact H.
    destruct (String.eqb_spec c c'); [congruence|reflexivity].
  - intros a' Hne. unfold b2. rewrite unsubscribe_agents.
    destruct (registered_record _ _ H1) as [r1 ->].
    destruct (String.eqb_spec a' a); [congruence|].
    unfold b1. rewrite subscribe_agents, E.
    destruct (String.eqb_spec a' a); [congruence|reflexivity].
Qed.

Lemma unsubscribe_is_Some (a c c' : string) (b : MessageBus.t) :
  is_Some (channels b !! c') -> is_Some (channels (fst (unsubscribe a c b)) !! c').
Proof.
  intro H. destruct (registered a b) eqn:Hr.
  - rewrite unsubscribe_channels by exact Hr.
    destruct (String.eqb_spec c c') as [<- | _]; [|exact H].
    destruct H as [s ->]. eauto.
  - unfold unsubscribe, registered in *.
    destruct (map_get a (agents b)); [discriminate|exact H].
Qed.

Lemma step_keeps_channels (st : Env * MessageBus.t) (o : Op) (c : string) :
  is_Some (channels (snd st) !! c) -> is_Some (channels (snd (step st o)) !! c).
Proof.
  destruct st as [env b]. intro H. cbn [snd] in H. destruct o; cbn [step snd].
  - unfold registerAgent, subscribe. cbn.
    rewrite map_get_set_same. cbn.
    apply lookup_insert_is_Some'. now right.
  - unfold unregisterAgent. destruct (map_get agentId (agents b)) as [record|];
      [|exact H].
    cbn. generalize (subscriptions record). intro l. revert b H.
    induction l as [|c0 l IH]; intros b H; [exact H|].
    cbn. apply IH, unsubscribe_is_Some, H.
  - unfold subscribe. destruct (map_get agentId (agents b)); [|exact H].
    cbn. apply lookup_insert_is_Some'. now right.
  - apply unsubscribe_is_Some, H.
  - unfold send. destruct (negb (Message.verify message)); exact H.
  - unfold broadcast.
    destruct (channels b !! channel) as [[|s subs]|]; cbn; try exact H.
    unfold send. destruct (negb (Message.verify _)); exact H.
  - exact H.
  - exact H.
  - cbn. apply lookup_insert_is_Some'. now right.
  - exact H.
Qed.

(** X17: no operation of the bus removes a channel: a channel that exists
    exists in every later state, also after its last subscriber has left or
    has been unregistered, so the number of active channels never
    decreases. *)
Theorem channels_are_never_removed (ops : list Op) (st : Env * MessageBus.t)
    (c : string) :
  is_Some (channels (snd st) !! c) -> is_Some (channels (snd (run ops st)) !! c).
Proof.
  revert st. induction ops as [|o ops IH]; intros st H; [exact H|].
  change (run (o :: ops) st) with (run ops (step st o)).
  apply IH, step_keeps_channels, H.
Qed.

Lemma unsubscribe_fold (a : string) (l : list string) :
  forall b, registered a b = true ->
    registered a (fold_left (fun acc channel => fst (unsubscribe a channel acc)) l b)
    = true
    /\ (forall c, ~ In c l ->
          channels (fold_left (fun acc channel => fst (unsubscribe a channel acc)) l b)
            !! c = channels b !! c)
    /\ (forall a', a' <> a ->
          map_get a'
            (agents (fold_left (fun acc channel => fst (unsubscribe a channel acc)) l b))
          = map_get a' (agents b))
    /\ (forall c, In c l ->
          set_has a
            (subscribers c
               (fold_left (fun acc channel => fst (unsubscribe a channel acc)) l b))
          = false).
Proof.
  induction l as [|c0 l IH]; intros b H.
  - cbn. split; [exact H|]. split; [reflexivity|]. split; [reflexivity|].
    intros c [].
  - cbn [fold_left].
    assert (H1 : registered a (fst (unsubscribe a c0 b)) = true).
    { unfold registered. rewrite unsubscribe_agents.
      destruct (registered_record _ _ H) as [record ->].
      now rewrite String.eqb_refl. }
    destruct (IH _ H1) as (Hr & Hc & Ha & Hs).
    split; [exact Hr|]. split; [|split].
    + intros c Hn. rewrite Hc by (intro; apply Hn; now right).
      rewrite unsubscribe_channels by exact H.
      destruct (String.eqb_spec c0 c); [|reflexivity].
      exfalso. apply Hn. now left.
    + intros a' Hne. rewrite Ha by exact Hne. rewrite unsubscribe_agents.
      destruct (registered_record _ _ H) as [record ->].
      destruct (String.eqb_spec a' a); [congruence|reflexivity].
    + intros c Hin.
      destruct (in_dec String.string_dec c l) as [Hl | Hl]; [now apply Hs|].
      destruct Hin as [-> | Hin]; [|contradiction].
      unfold subscribers. rewrite Hc by exact Hl.
      rewrite unsubscribe_channels, String.eqb_refl by exact H.
      destruct (channels b !! c); [apply set_has_delete|reflexivity].
Qed.

(** X18: unregistering an agent takes it out of the registry and out of
    the channels its record lists, and out of no other channel: on a channel
    it was put on by assignment to the channel table it stays, and a
    broadcast on that channel still addresses it, which the bus answers for
    it with agent_not_found. *)
Theorem unregistered_agent_stays_on_assigned_channel (a c : string)
    (b : MessageBus.t) (env : Env) (messageData : Message.Args) :
  registered a b = true ->
  ~ In c (subscriptions_of a b) ->
  In a (subscribers c b) ->
  registered a (unregisterAgent a b) = false
  /\ (forall c', In c' (subscriptions_of a b) ->
        set_has a (subscribers c' (unregisterAgent a b)) = false)
  /\ (forall c', ~ In c' (subscriptions_of a b) ->
        channels (unregisterAgent a b) !! c' = channels b !! c')
  /\ (forall a', a' <> a -> registered a' (unregisterAgent a b) = registered a' b)
  /\ exists message deliveries,
       snd (broadcast c messageData (env, unregisterAgent a b))
       = sent message (Ok deliveries)
       /\ Message.recipients message = Message.RList (subscribers c b)
       /\ In (agent_not_found a) deliveries.
Proof.
  intros H Hc Hin.
  destruct (registered_record _ _ H) as [record E].
  unfold subscriptions_of in *. rewrite E in *.
  destruct (unsubscribe_fold a (subscriptions record) b H) as (Hr & Hch & Hag & Hs).
  assert (Eu : unregisterAgent a b
               = with_agents
                   (fold_left (fun acc channel => fst (unsubscribe a channel acc))
                      (subscriptions record) b)
                   (map_delete a
                      (agents (fold_left (fun acc channel =>
                                            fst (unsubscribe a channel acc))
                                 (subscriptions record) b)))).
  { unfold unregisterAgent. now rewrite E. }
  assert (Hgone : map_get a (agents (unregisterAgent a b)) = None).
  { rewrite Eu. cbn. apply map_get_delete_same. }
  split; [|split; [|split; [|split]]].
  - unfold registered. now rewrite Hgone.
  - intros c' Hc'. rewrite Eu. exact (Hs c' Hc').
  - intros c' Hc'. rewrite Eu. exact (Hch c' Hc').
  - intros a' Hne. unfold registered. rewrite Eu. cbn.
    rewrite <- (Hag a' Hne).
    generalize (agents (fold_left (fun acc channel => fst (unsubscribe a channel acc))
                          (subscriptions record) b)).
    intro m. unfold map_delete.
    induction m as [|[k v] m IH]; cbn; [reflexivity|].
    destruct (String.eqb_spec a k) as [<- | Hk]; cbn.
    + destruct (String.eqb_spec a' a); [congruence|exact IH].
    + destruct (String.eqb a' k); [reflexivity|exact IH].
  - unfold broadcast.
    assert (Ech : channels (unregisterAgent a b) !! c = channels b !! c).
    { rewrite Eu. exact (Hch c Hc). }
    rewrite Ech. unfold subscribers in *.
    destruct (channels b !! c) as [[|s subs]|]; try contradiction.
    unfold send. rewrite new_verifies. cbn [negb snd].
    eexists _, _. split; [reflexivity|]. split; [reflexivity|].
    change (In (agent_not_found a)
              (List.map (fun recipientId =>
                           match map_get recipientId (agents (unregisterAgent a b)) with
                           | Some _ => handed_over recipientId
                           | None => agent_not_found recipientId
                           end) (s :: subs))).
    apply in_map_iff. exists a. split; [|exact Hin].
    now rewrite Hgone.
Qed.

(** X19: a send addressed to 'broadcast' is handed over to every
    registered agent, in the order of registration, and to nobody else. *)
Theorem send_to_broadcast_reaches_the_registry (m : Message.t) (b : MessageBus.t) :
  Message.recipients m = Message.ROne "broadcast" ->
  Message.verify m = true ->
  snd (send m b) = Ok (List.map handed_over (map_keys (agents b))).
Proof.
  intros Hr Hv. unfold send. rewrite Hv, Hr. cbn. f_equal.
  apply map_ext_in. intros k Hk.
  destruct (map_get_keys k (agents b) Hk) as [v ->]. reflexivity.
Qed.

End BusChannels.

Section BusSweep.
Import MessageBus.

(** X20: for an envelope whose time to live is a whole number of seconds,
    as the 300 of every envelope the repository constructs, the test
    [isExpired] of the envelope and the test of the sweep of the bus agree:
    both hold exactly when more than [ttl] seconds have passed since the
    timestamp. For a time to live with a fraction the two tests, computed on
    doubles, can part: 300 ms after an envelope of 0.2999999 s was stamped,
    [isExpired] holds and the sweep keeps the envelope. *)
Theorem isExpired_agrees_with_cleanup (now : Z) (m : Message.t) :
  Message.isExpired now m = expired now m
  /\ (expired now m = true
      <-> (Message.ttl m * 1000 < now - Message.timestamp m)%Z)
  /\ isExpired_double 1700000000300 1700000000000 0.2999999 = true
  /\ expired_double 1700000000300 1700000000000 0.2999999 = false
  /\ List.map (fun now => isExpired_double now 1700000000000 300)
       [1700000299999; 1700000300000; 1700000300001]%float
     = List.map (fun now => expired_double now 1700000000000 300)
         [1700000299999; 1700000300000; 1700000300001]%float.
Proof.
  unfold Message.isExpired, expired.
  assert (Hq : forall a d : Z,
             (inject_Z a < inject_Z d / 1000)%Q <-> (a * 1000 < d)%Z).
  { intros a d. unfold Qlt, Qdiv, Qmult, Qinv, inject_Z. simpl. lia. }
  split.
  - destruct (Z.ltb_spec (Message.timestamp m + Message.ttl m * 1000) now) as [H | H].
    + assert (Hl : (inject_Z (Message.ttl m)
                    < inject_Z (now - Message.timestamp m) / 1000)%Q)
        by (apply (proj2 (Hq _ _)); lia).
      apply andb_true_iff. split.
      * apply Qle_bool_iff. now apply Qlt_le_weak.
      * apply negb_true_iff, Qeq_bool_false_iff. intro Heq. rewrite Heq in Hl.
        now apply Qlt_irrefl in Hl.
    + destruct (Qle_bool _ _) eqn:E1; [|reflexivity].
      destruct (Qeq_bool _ _) eqn:E2; [reflexivity|].
      apply Qle_bool_iff in E1. apply Qeq_bool_false_iff in E2.
      exfalso.
      assert (Hl : (inject_Z (Message.ttl m)
                    < inject_Z (now - Message.timestamp m) / 1000)%Q).
      { apply Qle_lteq in E1. destruct E1 as [E1 | E1]; [exact E1|contradiction]. }
      apply (proj1 (Hq _ _)) in Hl. lia.
  - split; [rewrite Z.ltb_lt; lia|].
    repeat split; vm_compute; reflexivity.
Qed.


Lemma filter_comm {A} (f g : A -> bool) (l : list A) :
  List.filter f (List.filter g l) = List.filter g (List.filter f l).
Proof.
  induction l as [|x l IH]; cbn; [reflexivity|].
  destruct (f x) eqn:Ef, (g x) eqn:Eg; cbn; rewrite ?Ef, ?Eg, IH; reflexivity.
Qed.

(** X22: a query of the history after a sweep returns the entries of the
    query before the sweep that are not expired; a query without filters
    returns the whole history, and a filter that is the empty string is
    ignored. *)
Theorem queryHistory_after_cleanup (now : Z) (filters : Filters) (b : MessageBus.t) :
  queryHistory filters (cleanup now b)
  = List.filter (fun msg => negb (expired now msg)) (queryHistory filters b)
  /\ queryHistory no_filters b = messageHistory b
  /\ queryHistory {| f_sender := Some ""; f_recipient := Some "";
                     f_type := Some ""; f_after := f_after filters;
                     f_before := f_before filters |} b
     = queryHistory {| f_sender := None; f_recipient := None;
                       f_type := None; f_after := f_after filters;
                       f_before := f_before filters |} b.
Proof.
  split; [|split].
  - unfold queryHistory, cleanup.
    cbn [messageHistory with_metrics with_history]. apply filter_comm.
  - unfold queryHistory, no_filters. cbn.
    generalize (messageHistory b). intro h.
    induction h as [|x l IH]; [reflexivity|]. cbn. now rewrite IH.
  - reflexivity.
Qed.

End BusSweep.

Lemma subscribe_then_unsubscribe_witness :
  MessageBus.set_has "doctor"
    (subscribers "operations"
       (fst (MessageBus.unsubscribe "doctor" "operations"
               (fst (MessageBus.subscribe "doctor" "operations" assigned_bus)))))
  = false
  /\ is_Some (MessageBus.channels
                (fst (MessageBus.unsubscribe "doctor" "operations"
                        (fst (MessageBus.subscribe "doctor" "operations"
                                assigned_bus)))) !! "operations").
Proof.
  destruct (subscribe_then_unsubscribe "doctor" "operations" assigned_bus)
    as (_ & _ & _ & _ & H1 & _ & H2 & _); [vm_compute; reflexivity|].
  split; [exact H1|]. rewrite H2. eauto.
Defined.

Lemma channels_are_never_removed_witness :
  is_Some (MessageBus.channels
             (snd (@MessageBus.run stub_runtime
                     [MessageBus.op_unregisterAgent "winston";
                      MessageBus.op_unregisterAgent "doctor"]
                     (start_env, assigned_bus))) !! "doctor").
Proof.
  apply (@channels_are_never_removed stub_runtime).
  exists ["doctor"]. vm_compute. reflexivity.
Defined.

Lemma unregistered_agent_stays_on_assigned_channel_witness :
  registered "doctor" (MessageBus.unregisterAgent "doctor" assigned_bus) = false
  /\ exists message deliveries,
       snd (@MessageBus.broadcast stub_runtime "council" report_args
              (start_env, MessageBus.unregisterAgent "doctor" assigned_bus))
       = MessageBus.sent message (Ok deliveries)
       /\ In (MessageBus.agent_not_found "doctor") deliveries.
Proof.
  destruct (@unregistered_agent_stays_on_assigned_channel stub_runtime
              "doctor" "council" assigned_bus start_env report_args)
    as (H1 & _ & _ & _ & m & d & H2 & _ & H3).
  - vm_compute. reflexivity.
  - vm_compute. intros [H | []]. discriminate H.
  - vm_compute. right. left. reflexivity.
  - split; [exact H1|]. exists m, d. split; [exact H2 | exact H3].
Defined.

Lemma send_to_broadcast_reaches_the_registry_witness :
  snd (@MessageBus.send stub_runtime
         (@Message.new stub_runtime
            {| Message.a_sender := "winston";
               Message.a_recipients := Message.ROne "broadcast";
               Message.a_type := "status"; Message.a_payload := JNull;
               Message.a_priority := None; Message.a_ttl := None |}
            "uuid-c" 3000)
         assigned_bus)
  = Ok [MessageBus.handed_over "winston"; MessageBus.handed_over "doctor"].
Proof.
  apply (@send_to_broadcast_reaches_the_registry stub_runtime);
    vm_compute; reflexivity.
Defined.


(** ** BaseAgent: metrics and decision authority *)

Section AgentMore.

Lemma leb_trans (a b c : JsNum.t) :
  JsNum.leb a b = true -> JsNum.leb b c = true -> JsNum.leb a c = true.
Proof.
  destruct a as [x|[]|], b as [y|[]|], c as [z|[]|]; cbn; intros H1 H2;
    try congruence; try reflexivity.
  apply Qle_bool_iff in H1, H2. apply Qle_bool_iff. lra.
Qed.

Lemma updated_snoc (updates : list (Z * bool)) (u : Z * bool)
    (m : BaseAgent.Metrics) :
  updated (updates ++ [u]) m
  = BaseAgent.updateMetrics (fst u) (snd u) (updated updates m).
Proof. unfold updated. now rewrite fold_left_app. Qed.

Lemma updated_counts (updates : list (Z * bool)) :
  forall m,
    BaseAgent.tasksCompleted (updated updates m)
    = (BaseAgent.tasksCompleted m + length (List.filter snd updates))%nat
    /\ BaseAgent.tasksFailed (updated updates m)
       = (BaseAgent.tasksFailed m
          + length (List.filter (fun u => negb (snd u)) updates))%nat
    /\ BaseAgent.totalResponseTime (updated updates m)
       = (BaseAgent.totalResponseTime m
          + fold_right Z.add 0 (List.map fst updates))%Z.
Proof.
  induction updates as [|[rt ok] updates IH]; intro m.
  - cbn. repeat split; lia.
  - change (updated ((rt, ok) :: updates) m)
      with (updated updates (BaseAgent.updateMetrics rt ok m)).
    destruct (IH (BaseAgent.updateMetrics rt ok m)) as (-> & -> & ->).
    destruct ok; cbn; repeat split; lia.
Qed.

(** X23: after any sequence of calls of [updateMetrics] on the metrics of
    a new agent, the two counters count the successes and the failures
    (their sum is the number of calls), the total response time is the sum
    of the response times, and, after at least one call, the success rate is
    the number tasksCompleted / (tasksCompleted + tasksFailed), between 0 and
    1, and the average response time is the total divided by the number of
    calls. *)
Theorem updateMetrics_accounts (updates : list (Z * bool)) :
  let m := updated updates BaseAgent.initial_metrics in
  BaseAgent.tasksCompleted m = length (List.filter snd updates)
  /\ BaseAgent.tasksFailed m
     = length (List.filter (fun u => negb (snd u)) updates)
  /\ (BaseAgent.tasksCompleted m + BaseAgent.tasksFailed m = length updates)%nat
  /\ BaseAgent.totalResponseTime m = fold_right Z.add 0%Z (List.map fst updates)
  /\ (updates <> [] ->
      exists rate,
        BaseAgent.successRate m = JsNum.Fin rate
        /\ (rate == inject_Z (Z.of_nat (BaseAgent.tasksCompleted m))
                    / inject_Z (Z.of_nat (length updates)))%Q
        /\ (0 <= rate <= 1)%Q
        /\ BaseAgent.avgResponseTime m
           = JsNum.Fin (inject_Z (BaseAgent.totalResponseTime m)
                        / inject_Z (Z.of_nat (length updates))))
  /\ (updates = [] -> BaseAgent.successRate m = JsNum.Fin 1).
Proof.
  intro m.
  destruct (updated_counts updates BaseAgent.initial_metrics) as (Hc & Hf & Ht).
  fold m in Hc, Hf, Ht. cbn in Hc, Hf, Ht.
  assert (Hsum : (BaseAgent.tasksCompleted m + BaseAgent.tasksFailed m
                  = length updates)%nat).
  { rewrite Hc, Hf. pose proof (filter_partition_length snd updates). lia. }
  split; [exact Hc|]. split; [exact Hf|]. split; [exact Hsum|].
  split; [exact Ht|]. split.
  - intro Hne.
    destruct (exists_last Hne) as (us & u & E).
    assert (Em : m = BaseAgent.updateMetrics (fst u) (snd u)
                       (updated us BaseAgent.initial_metrics)).
    { unfold m. rewrite E. apply updated_snoc. }
    assert (Hrate : BaseAgent.successRate m
                    = JsNum.div (JsNum.of_nat (BaseAgent.tasksCompleted m))
                        (JsNum.of_nat (BaseAgent.tasksCompleted m
                                       + BaseAgent.tasksFailed m))).
    { rewrite Em. reflexivity. }
    assert (Havg : BaseAgent.avgResponseTime m
                   = JsNum.div (JsNum.of_Z (BaseAgent.totalResponseTime m))
                       (JsNum.of_nat (BaseAgent.tasksCompleted m
                                      + BaseAgent.tasksFailed m))).
    { rewrite Em. reflexivity. }
    rewrite Hsum in Hrate, Havg.
    assert (Hpos : (0 < length updates)%nat).
    { destruct updates; [congruence|cbn; lia]. }
    rewrite ratio_of_counts in Hrate.
    destruct (length updates) as [|n] eqn:En; [lia|]. cbn [Nat.eqb] in Hrate.
    eexists. split; [exact Hrate|]. split; [reflexivity|]. split.
    + apply count_ratio_in_unit; lia.
    + rewrite Havg. unfold JsNum.div, JsNum.of_Z, JsNum.of_nat.
      assert (Hn : Qeq_bool (inject_Z (Z.of_nat (S n))) 0 = false).
      { apply Qeq_bool_false_iff. unfold Qeq, inject_Z. simpl. lia. }
      now rewrite Hn.
  - intros ->. reflexivity.
Qed.

Import DecisionAuthority.

(** X24: the authority to decide. [canDecide] never grants a decision type
    that is no own entry of the agent's table (inherited members of the
    table object grant nothing); what it grants for an amount it grants for
    every smaller amount; an absent amount counts as 0. For the two
    operations agents, Doctor and Charon, the spending limit is the amount
    above which the orchestrator sends a financial approval to the council:
    for an amount that is a number the task goes to the council exactly when
    they may not decide it, and down the pipeline exactly when they may. *)
Theorem canDecide_limits (table : list (string * JsVal)) (decisionType : string) :
  (MessageBus.map_get decisionType table = None ->
   forall amount, canDecide table decisionType amount = false)
  /\ (forall a a', JsNum.leb a a' = true ->
        canDecide table decisionType (Some a') = true ->
        canDecide table decisionType (Some a) = true)
  /\ canDecide table decisionType None
     = canDecide table decisionType (Some (JsNum.Fin 0))
  /\ (forall (t : Task) (a : JsNum.t),
        task_type t = "financial_approval" -> amount t = Some a ->
        a <> JsNum.NaN ->
        canDecide doctor "spending" (Some a) = canDecide charon "spending" (Some a)
        /\ (SwarmOrchestrator.selectArchitecture t
            = Ok (SwarmOrchestrator.selected_name "council")
            <-> canDecide doctor "spending" (Some a) = false)
        /\ (SwarmOrchestrator.selectArchitecture t
            = Ok (SwarmOrchestrator.selected_name "sequential")
            <-> canDecide doctor "spending" (Some a) = true)).
Proof.
  split; [|split; [|split]].
  - intros H amount. unfold canDecide, lookup. rewrite H.
    destruct (existsb _ inherited_names); reflexivity.
  - intros a a' Hle. unfold canDecide.
    destruct (lookup table decisionType) as [v| |]; try discriminate.
    destruct (negb (truthy v)); [discriminate|].
    destruct v; try discriminate; [tauto|].
    intro H. eapply leb_trans; eassumption.
  - reflexivity.
  - intros t a Hty Ha Hn.
    rewrite (selectArchitecture_financial_approval t Hty).
    unfold amount_exceeds_500. rewrite Ha.
    change (canDecide charon "spending" (Some a)) with (JsNum.leb a (JsNum.Fin 500)).
    change (canDecide doctor "spending" (Some a)) with (JsNum.leb a (JsNum.Fin 500)).
    split; [reflexivity|].
    assert (E : JsNum.gtb a (JsNum.Fin 500) = negb (JsNum.leb a (JsNum.Fin 500))).
    { destruct a as [x|[]|]; try reflexivity. congruence. }
    rewrite E. destruct (JsNum.leb a (JsNum.Fin 500)); cbn; split;
      split; intro H; congruence.
Qed.

End AgentMore.

(** ** SwarmOrchestrator: the selection of agents *)

Section SelectionMore.
Import Routing.

Lemma insert_perm (x : Scored) (l : list Scored) :
  Permutation (insert x l) (x :: l).
Proof.
  induction l as [|y l IH]; cbn [insert]; [reflexivity|].
  destruct (JsNum.gtb (comparator x y) (JsNum.Fin 0)); [|reflexivity].
  rewrite IH. apply perm_swap.
Qed.

Lemma sort_perm (l : list Scored) : Permutation (sort l) l.
Proof.
  induction l as [|x l IH]; cbn; [reflexivity|].
  rewrite insert_perm. now constructor.
Qed.

Lemma qualifiedAgents_perm (self : string) (registry : list BaseAgent.t)
    (task : Task) :
  Permutation (List.map agent (qualifiedAgents self registry task))
    (List.filter (fun a => negb (String.eqb (BaseAgent.id a) self)
                           && JsNum.gtb (SwarmOrchestrator.calculateAgentScore a task)
                                (JsNum.Fin 0.3))
       registry).
Proof.
  unfold qualifiedAgents. rewrite sort_perm.
  induction registry as [|a registry IH]; [reflexivity|]. cbn [List.filter].
  destruct (negb (String.eqb (BaseAgent.id a) self));
    cbn [List.map List.filter andb]; [|exact IH].
  change (score (scoreAgent task a))
    with (SwarmOrchestrator.calculateAgentScore a task).
  destruct (JsNum.gtb (SwarmOrchestrator.calculateAgentScore a task) (JsNum.Fin 0.3));
    cbn [List.map agent scoreAgent]; [|exact IH].
  now constructor.
Qed.

Lemma qualifiedAgents_score (self : string) (registry : list BaseAgent.t)
    (task : Task) :
  Forall (fun s => score s = SwarmOrchestrator.calculateAgentScore (agent s) task
                   /\ JsNum.gtb (score s) (JsNum.Fin 0.3) = true)
    (qualifiedAgents self registry task).
Proof.
  unfold qualifiedAgents. apply List.Forall_forall. intros s Hs.
  apply (Permutation_in _ (sort_perm _)) in Hs.
  apply List.filter_In in Hs. destruct Hs as [Hs Hq].
  apply in_map_iff in Hs. destruct Hs as (a & <- & _). split; [reflexivity|exact Hq].
Qed.

Lemma prefer_new_roles_incl (scoredAgents : list Scored) (count : nat) :
  forall selected roles,
    incl (prefer_new_roles scoredAgents count selected roles)
      (selected ++ List.map agent scoredAgents).
Proof.
  induction scoredAgents as [|s rest IH]; intros selected roles; cbn.
  - rewrite app_nil_r. apply incl_refl.
  - destruct (count <=? length selected)%nat; [apply incl_appl, incl_refl|].
    destruct (MessageBus.set_has _ roles).
    + eapply incl_tran; [apply IH|].
      apply incl_app; [apply incl_appl, incl_refl|].
      apply incl_appr, incl_tl, incl_refl.
    + eapply incl_tran; [apply IH|]. rewrite <- app_assoc. apply incl_refl.
Qed.

Lemma prefer_new_roles_length (scoredAgents : list Scored) (count : nat) :
  forall selected roles,
    (length selected <= count)%nat ->
    (length (prefer_new_roles scoredAgents count selected roles) <= count)%nat.
Proof.
  induction scoredAgents as [|s rest IH]; intros selected roles H; cbn; [exact H|].
  destruct (Nat.leb_spec count (length selected)); [exact H|].
  destruct (MessageBus.set_has _ roles); apply IH; [exact H|].
  rewrite length_app. cbn. lia.
Qed.

Lemma fill_incl (scoredAgents : list Scored) (count : nat) :
  forall selected,
    incl (fill scoredAgents count selected)
      (selected ++ List.map agent scoredAgents).
Proof.
  induction scoredAgents as [|s rest IH]; intros selected; cbn.
  - rewrite app_nil_r. apply incl_refl.
  - destruct (count <=? length selected)%nat; [apply incl_appl, incl_refl|].
    destruct (includes selected (agent s)).
    + eapply incl_tran; [apply IH|].
      apply incl_app; [apply incl_appl, incl_refl|].
      apply incl_appr, incl_tl, incl_refl.
    + eapply incl_tran; [apply IH|]. rewrite <- app_assoc. apply incl_refl.
Qed.

Lemma fill_length (scoredAgents : list Scored) (count : nat) :
  forall selected,
    (length selected <= count)%nat ->
    (length (fill scoredAgents count selected) <= count)%nat.
Proof.
  induction scoredAgents as [|s rest IH]; intros selected H; cbn; [exact H|].
  destruct (Nat.leb_spec count (length selected)); [exact H|].
  destruct (includes selected (agent s)); apply IH; [exact H|].
  rewrite length_app. cbn. lia.
Qed.

Lemma selectDiverseAgents_incl (scoredAgents : list Scored) (count : nat) :
  incl (selectDiverseAgents scoredAgents count) (List.map agent scoredAgents)
  /\ (length (selectDiverseAgents scoredAgents count) <= count)%nat.
Proof.
  unfold selectDiverseAgents. split.
  - eapply incl_tran; [apply fill_incl|].
    apply incl_app; [|apply incl_refl].
    apply (prefer_new_roles_incl scoredAgents count [] []).
  - apply fill_length, prefer_new_roles_length. cbn. lia.
Qed.

Lemma orderByDependencies_start_incl (scoredAgents : list Scored)
    (roles : list string) :
  incl (List.flat_map
          (fun role =>
             match List.find (fun s => String.eqb (BaseAgent.role (agent s)) role)
                     scoredAgents with
             | Some s => [agent s]
             | None => []
             end) roles)
    (List.map agent scoredAgents).
Proof.
  intros a Ha. apply in_flat_map in Ha. destruct Ha as (role & _ & Ha).
  destruct (List.find _ scoredAgents) as [s|] eqn:E; [|contradiction].
  destruct Ha as [<- | []]. apply List.find_some in E. apply in_map, E.
Qed.

Lemma orderByDependencies_fold_incl (l : list Scored) :
  forall ordered,
    incl (fold_left (fun ordered scored =>
                       if includes ordered (agent scored) then ordered
                       else ordered ++ [agent scored]) l ordered)
      (ordered ++ List.map agent l).
Proof.
  induction l as [|s l IH]; intro ordered; cbn.
  - rewrite app_nil_r. apply incl_refl.
  - destruct (includes ordered (agent s)).
    + eapply incl_tran; [apply IH|].
      apply incl_app; [apply incl_appl, incl_refl|].
      apply incl_appr, incl_tl, incl_refl.
    + eapply incl_tran; [apply IH|]. rewrite <- app_assoc. apply incl_refl.
Qed.

Lemma orderByDependencies_incl (scoredAgents : list Scored) (task : Task) :
  incl (orderByDependencies scoredAgents task) (List.map agent scoredAgents).
Proof.
  unfold orderByDependencies.
  eapply incl_tran; [apply orderByDependencies_fold_incl|].
  apply incl_app; [apply orderByDependencies_start_incl|apply incl_refl].
Qed.

Lemma firstn_map_incl {A B} (f : A -> B) (n : nat) (l : list A) :
  incl (List.map f (firstn n l)) (List.map f l)
  /\ (length (List.map f (firstn n l)) <= n)%nat.
Proof.
  split.
  - intros x Hx. apply in_map_iff in Hx. destruct Hx as (y & <- & Hy).
    apply in_map. rewrite <- (firstn_skipn n l). apply in_or_app. now left.
  - rewrite length_map. apply List.firstn_le_length.
Qed.

(** X25: whatever the architecture, every agent [selectAgents] returns is
    registered on the bus, is not the orchestrator itself, and has a score
    above 0.3 for the task; at most three agents are returned unless the
    architecture is the sequential one, and at most one for the emergency
    one and for a name that is none of the five. *)
Theorem selectAgents_sound (self : string) (registry : list BaseAgent.t)
    (task : Task) (architecture : string) :
  Forall (fun a => In a registry /\ BaseAgent.id a <> self
                   /\ JsNum.gtb (SwarmOrchestrator.calculateAgentScore a task)
                        (JsNum.Fin 0.3) = true)
    (selectAgents self registry task architecture)
  /\ (architecture <> "sequential" ->
      (length (selectAgents self registry task architecture) <= 3)%nat)
  /\ (~ In architecture ["council"; "concurrent"; "sequential"; "competitive"] ->
      (length (selectAgents self registry task architecture) <= 1)%nat).
Proof.
  assert (Hq : forall a,
             In a (List.map agent (qualifiedAgents self registry task)) ->
             In a registry /\ BaseAgent.id a <> self
             /\ JsNum.gtb (SwarmOrchestrator.calculateAgentScore a task)
                  (JsNum.Fin 0.3) = true).
  { intros a Ha. apply (Permutation_in _ (qualifiedAgents_perm _ _ _)) in Ha.
    apply List.filter_In in Ha. destruct Ha as [Hin Hb].
    apply andb_true_iff in Hb. destruct Hb as [Hs Hg].
    split; [exact Hin|]. split; [|exact Hg].
    apply negb_true_iff in Hs. now apply String.eqb_neq in Hs. }
  pose proof (selectDiverseAgents_incl (qualifiedAgents self registry task) 3)
    as [Hd Hdl].
  pose proof (firstn_map_incl agent 1 (qualifiedAgents self registry task))
    as [H1 H1l].
  pose proof (firstn_map_incl agent 3 (qualifiedAgents self registry task))
    as [H3 H3l].
  pose proof (orderByDependencies_incl (qualifiedAgents self registry task) task)
    as Ho.
  unfold selectAgents.
  destruct (String.eqb_spec architecture "council") as [-> | N1].
  { split; [|split]; [apply List.Forall_forall; intros a Ha; apply Hq, Hd, Ha
                     | intros _; exact Hdl
                     | intro H; exfalso; apply H; now left]. }
  destruct (String.eqb_spec architecture "emergency") as [-> | N2].
  { split; [|split]; [apply List.Forall_forall; intros a Ha; apply Hq, H1, Ha
                     | intros _; lia
                     | intros _; exact H1l]. }
  destruct (String.eqb_spec architecture "concurrent") as [-> | N3].
  { split; [|split]; [apply List.Forall_forall; intros a Ha; apply Hq, H3, Ha
                     | intros _; exact H3l
                     | intro H; exfalso; apply H; right; now left]. }
  destruct (String.eqb_spec architecture "sequential") as [-> | N4].
  { split; [|split]; [apply List.Forall_forall; intros a Ha; apply Hq, Ho, Ha
                     | intro H; congruence
                     | intro H; exfalso; apply H; right; right; now left]. }
  destruct (String.eqb_spec architecture "competitive") as [-> | N5].
  { split; [|split]; [apply List.Forall_forall; intros a Ha; apply Hq, Hd, Ha
                     | intros _; exact Hdl
                     | intro H; exfalso; apply H; right; right; right; now left]. }
  split; [|split]; [apply List.Forall_forall; intros a Ha; apply Hq, H1, Ha
                   | intros _; lia
                   | intros _; exact H1l].
Qed.

Lemma comparator_gtb (x y : Scored) :
  score x <> JsNum.NaN -> score y <> JsNum.NaN ->
  JsNum.gtb (comparator x y) (JsNum.Fin 0) = JsNum.gtb (score y) (score x).
Proof.
  unfold comparator.
  destruct (score x) as [a|[]|], (score y) as [b|[]|]; cbn; intros Hx Hy;
    try congruence; try reflexivity.
  destruct (Qle_bool (b - a) 0) eqn:E1, (Qle_bool b a) eqn:E2; try reflexivity.
  - apply Qle_bool_iff in E1. apply Qle_bool_false_iff in E2. lra.
  - apply Qle_bool_false_iff in E1. apply Qle_bool_iff in E2. lra.
Qed.

Lemma insert_sorted (x : Scored) (l : list Scored) :
  score x <> JsNum.NaN -> Forall (fun y => score y <> JsNum.NaN) l ->
  StronglySorted (fun a b => JsNum.leb (score b) (score a) = true) l ->
  StronglySorted (fun a b => JsNum.leb (score b) (score a) = true) (insert x l).
Proof.
  intros Hx Hn Hs. induction Hs as [|y l Hs IH Hy]; cbn [insert].
  - constructor; constructor.
  - assert (Hny : score y <> JsNum.NaN) by now inversion Hn.
    assert (Hnl : Forall (fun y => score y <> JsNum.NaN) l) by now inversion Hn.
    rewrite comparator_gtb by assumption.
    destruct (JsNum.gtb (score y) (score x)) eqn:G.
    + constructor; [apply IH, Hnl|].
      apply List.Forall_forall. intros z Hz.
      apply (Permutation_in _ (insert_perm x l)) in Hz.
      destruct Hz as [<- | Hz].
      * apply ltb_leb. exact G.
      * rewrite List.Forall_forall in Hy. now apply Hy.
    + apply gtb_false_leb in G; try assumption.
      constructor; [now constructor|].
      constructor; [exact G|].
      eapply List.Forall_impl; [|exact Hy]. intros z Hz. cbn beta in Hz.
      eapply leb_trans; eassumption.
Qed.

Lemma comparator_positive (x y : Scored) :
  JsNum.gtb (comparator x y) (JsNum.Fin 0) = true ->
  JsNum.ltb (score x) (score y) = true.
Proof.
  unfold comparator.
  destruct (score x) as [a|[]|], (score y) as [b|[]|]; cbn; intro H;
    try congruence; try reflexivity.
  destruct (Qle_bool (b - a) 0) eqn:E1; [discriminate|].
  apply Qle_bool_false_iff in E1.
  apply negb_true_iff, Qle_bool_false_iff. lra.
Qed.

Lemma same_score_excludes_greater (v : JsNum.t) (x y : Scored) :
  same_score v x = true -> JsNum.ltb (score x) (score y) = true ->
  same_score v y = false.
Proof.
  unfold same_score.
  destruct v as [c|[]|], (score x) as [a|[]|], (score y) as [b|[]|]; cbn;
    intros H1 H2; try congruence; try reflexivity.
  apply andb_true_iff in H1. destruct H1 as [H1 H1'].
  apply Qle_bool_iff in H1, H1'.
  apply negb_true_iff, Qle_bool_false_iff in H2.
  apply andb_false_iff. right. apply Qle_bool_false_iff. lra.
Qed.

Lemma insert_same_score (v : JsNum.t) (x : Scored) (l : list Scored) :
  List.filter (same_score v) (insert x l)
  = if same_score v x then x :: List.filter (same_score v) l
    else List.filter (same_score v) l.
Proof.
  induction l as [|y l IH]; cbn [insert].
  - cbn [List.filter]. destruct (same_score v x); reflexivity.
  - destruct (JsNum.gtb (comparator x y) (JsNum.Fin 0)) eqn:G.
    + cbn [List.filter]. rewrite IH.
      destruct (same_score v x) eqn:Ex; [|reflexivity].
      rewrite (same_score_excludes_greater v x y Ex (comparator_positive x y G)).
      reflexivity.
    + cbn [List.filter]. destruct (same_score v x); reflexivity.
Qed.

(** The sort is stable: the elements of one score keep their order. *)
Lemma sort_stable (v : JsNum.t) (l : list Scored) :
  List.filter (same_score v) (sort l) = List.filter (same_score v) l.
Proof.
  induction l as [|x l IH]; [reflexivity|].
  change (sort (x :: l)) with (insert x (sort l)).
  rewrite insert_same_score, IH. reflexivity.
Qed.

Lemma sort_sorted (l : list Scored) :
  Forall (fun y => score y <> JsNum.NaN) l ->
  StronglySorted (fun a b => JsNum.leb (score b) (score a) = true) (sort l).
Proof.
  intro Hn. induction l as [|x l IH]; [constructor|].
  change (sort (x :: l)) with (insert x (sort l)). apply insert_sorted.
  - now inversion Hn.
  - apply List.Forall_forall. intros y Hy.
    apply (Permutation_in _ (sort_perm l)) in Hy.
    inversion Hn as [|? ? _ Hl]; subst.
    rewrite List.Forall_forall in Hl. now apply Hl.
  - apply IH. now inversion Hn.
Qed.

(** X26: the sort of the scored agents, whatever their scores: the sorted
    list is a rearrangement of the list, so no agent is dropped or doubled;
    agents of one score keep their order; and when no score is NaN no agent
    scores more than an agent before it. So the qualified agents are all the
    registered agents but the orchestrator whose score exceeds 0.3, each
    once, by descending score: for every n no qualified agent outside the
    first n scores more than one of the first n; the concurrent selection is
    the first three and the emergency selection the first one of them. *)
Theorem qualifiedAgents_descending (self : string) (registry : list BaseAgent.t)
    (task : Task) (n : nat) :
  (forall l : list Scored,
     Permutation (sort l) l
     /\ (forall v, List.filter (same_score v) (sort l)
                   = List.filter (same_score v) l)
     /\ (Forall (fun s => score s <> JsNum.NaN) l ->
         StronglySorted (fun a b => JsNum.leb (score b) (score a) = true)
           (sort l)))
  /\ Permutation (List.map agent (qualifiedAgents self registry task))
       (List.filter (qualifies self task) registry)
  /\ Forall (fun s => score s = SwarmOrchestrator.calculateAgentScore (agent s) task
                      /\ JsNum.gtb (score s) (JsNum.Fin 0.3) = true)
       (qualifiedAgents self registry task)
  /\ StronglySorted (fun a b => JsNum.leb (score b) (score a) = true)
       (qualifiedAgents self registry task)
  /\ qualifiedAgents self registry task
     = firstn n (qualifiedAgents self registry task)
       ++ skipn n (qualifiedAgents self registry task)
  /\ (forall taken left_out,
        In taken (firstn n (qualifiedAgents self registry task)) ->
        In left_out (skipn n (qualifiedAgents self registry task)) ->
        JsNum.leb (score left_out) (score taken) = true)
  /\ selectAgents self registry task "concurrent"
     = List.map agent (firstn 3 (qualifiedAgents self registry task))
  /\ selectAgents self registry task "emergency"
     = List.map agent (firstn 1 (qualifiedAgents self registry task)).
Proof.
  assert (Hs : StronglySorted (fun a b => JsNum.leb (score b) (score a) = true)
                 (qualifiedAgents self registry task)).
  { unfold qualifiedAgents. apply sort_sorted.
    apply List.Forall_forall. intros s Hs. apply List.filter_In in Hs.
    destruct Hs as [_ Hs]. intro E. rewrite E in Hs. discriminate. }
  split.
  { intro l. split; [apply sort_perm|]. split; [intro v; apply sort_stable|].
    apply sort_sorted. }
  split; [apply qualifiedAgents_perm|].
  split; [apply qualifiedAgents_score|].
  split; [exact Hs|]. split; [symmetry; apply firstn_skipn|].
  split; [|split; reflexivity].
  intros taken left_out Ht Hl.
  rewrite <- (firstn_skipn n (qualifiedAgents self registry task)) in Hs.
  revert Hs Ht Hl.
  generalize (firstn n (qualifiedAgents self registry task)) as front.
  generalize (skipn n (qualifiedAgents self registry task)) as back.
  intros back front. induction front as [|x front IH]; cbn; intros Hs Ht Hl;
    [contradiction|].
  inversion Hs as [|? ? Hs' Hx]; subst.
  destruct Ht as [<- | Ht].
  - rewrite List.Forall_forall in Hx. apply Hx, in_or_app. now right.
  - now apply IH.
Qed.

End SelectionMore.

Section SequentialSelection.
Import Routing.

Lemma NoDup_map_injective {A B} (f : A -> B) (l : list A) (x y : A) :
  List.NoDup (List.map f l) -> In x l -> In y l -> f x = f y -> x = y.
Proof.
  induction l as [|z l IH]; cbn; intros Hnd Hx Hy E; [contradiction|].
  inversion Hnd as [|? ? Hz Hl]; subst.
  destruct Hx as [-> | Hx], Hy as [-> | Hy].
  - reflexivity.
  - exfalso. apply Hz. rewrite E. now apply in_map.
  - exfalso. apply Hz. rewrite <- E. now apply in_map.
  - now apply IH.
Qed.

Lemma NoDup_map_filter {A B} (f : A -> B) (p : A -> bool) (l : list A) :
  List.NoDup (List.map f l) -> List.NoDup (List.map f (List.filter p l)).
Proof.
  induction l as [|z l IH]; cbn; intro Hnd; [constructor|].
  inversion Hnd as [|? ? Hz Hl]; subst.
  destruct (p z); cbn; [|now apply IH].
  constructor; [|now apply IH].
  intro Hin. apply Hz. apply in_map_iff in Hin. destruct Hin as (y & E & Hy).
  apply List.filter_In in Hy. rewrite <- E. apply in_map, Hy.
Qed.

Section Ordering.
Variable all : list BaseAgent.t.
Hypothesis all_ids : List.NoDup (List.map BaseAgent.id all).

Lemma includes_In (ordered : list BaseAgent.t) (a : BaseAgent.t) :
  incl ordered all -> In a all ->
  includes ordered a = true <-> In a ordered.
Proof.
  intros Hi Ha. unfold includes. rewrite existsb_exists. split.
  - intros (x & Hx & E). apply String.eqb_eq in E.
    now rewrite <- (NoDup_map_injective BaseAgent.id all x a all_ids (Hi x Hx) Ha E).
  - intro H. exists a. split; [exact H|apply String.eqb_refl].
Qed.

Lemma orderByDependencies_fold (l : list Scored) :
  forall ordered,
    List.NoDup ordered -> incl ordered all -> incl (List.map agent l) all ->
    List.NoDup (fold_left (fun ordered scored =>
                             if includes ordered (agent scored) then ordered
                             else ordered ++ [agent scored]) l ordered)
    /\ forall a,
         In a (fold_left (fun ordered scored =>
                            if includes ordered (agent scored) then ordered
                            else ordered ++ [agent scored]) l ordered)
         <-> In a ordered \/ In a (List.map agent l).
Proof.
  induction l as [|s l IH]; intros ordered Hnd Hi Hl; cbn [fold_left List.map].
  - split; [exact Hnd|]. intro a. cbn. tauto.
  - assert (Hs : In (agent s) all) by (apply Hl; now left).
    assert (Hl' : incl (List.map agent l) all).
    { intros x Hx. apply Hl. now right. }
    destruct (includes ordered (agent s)) eqn:E.
    + apply includes_In in E; try assumption.
      destruct (IH ordered Hnd Hi Hl') as [Hn Hiff].
      split; [exact Hn|]. intro a. rewrite Hiff. cbn. split; [tauto|].
      intros [H | [<- | H]]; tauto.
    + assert (Hnot : ~ In (agent s) ordered).
      { intro H. apply includes_In in H; try assumption. congruence. }
      destruct (IH (ordered ++ [agent s])) as [Hn Hiff].
      * apply List.NoDup_app; [exact Hnd | repeat constructor; intros [] |].
        intros x Hx [<- | []]. contradiction.
      * apply incl_app; [exact Hi|]. intros x [<- | []]. exact Hs.
      * exact Hl'.
      * split; [exact Hn|]. intro a. rewrite Hiff, in_app_iff. cbn. tauto.
Qed.

Lemma orderByDependencies_start (l : list Scored) (roles : list string) :
  List.NoDup roles ->
  List.NoDup
    (List.flat_map
       (fun role =>
          match List.find (fun s => String.eqb (BaseAgent.role (agent s)) role) l with
          | Some s => [agent s]
          | None => []
          end) roles)
  /\ Forall (fun a => In (BaseAgent.role a) roles)
       (List.flat_map
          (fun role =>
             match List.find (fun s => String.eqb (BaseAgent.role (agent s)) role) l with
             | Some s => [agent s]
             | None => []
             end) roles).
Proof.
  induction roles as [|r roles IH]; intro Hnd; cbn [List.flat_map].
  - split; constructor.
  - inversion Hnd as [|? ? Hr Hrs]; subst. destruct (IH Hrs) as [Hn Hin].
    destruct (List.find _ l) as [s|] eqn:E; cbn [app].
    + apply List.find_some in E. destruct E as [_ E]. apply String.eqb_eq in E.
      split.
      * constructor; [|exact Hn]. intro H.
        rewrite List.Forall_forall in Hin. apply Hin in H. congruence.
      * constructor; [now left|].
        eapply List.Forall_impl; [|exact Hin]. intros a Ha. now right.
    + split; [exact Hn|].
      eapply List.Forall_impl; [|exact Hin]. intros a Ha. now right.
Qed.

Lemma orderByDependencies_perm (l : list Scored) (task : Task) :
  incl (List.map agent l) all -> List.NoDup (List.map agent l) ->
  Permutation (orderByDependencies l task) (List.map agent l).
Proof.
  intros Hl Hnd. unfold orderByDependencies.
  destruct (orderByDependencies_start l roleOrder) as [Hn _].
  { unfold roleOrder. repeat constructor; cbn; intuition discriminate. }
  pose proof (orderByDependencies_start_incl l roleOrder) as Hs.
  destruct (orderByDependencies_fold l _ Hn (incl_tran Hs Hl) Hl) as [Hn' Hiff].
  apply Permutation.NoDup_Permutation; [exact Hn' | exact Hnd|].
  intro a. rewrite Hiff. split; [|tauto].
  intros [H | H]; [apply Hs, H | exact H].
Qed.

End Ordering.

(** X27: on a registry with one agent per id, the sequential selection is
    a rearrangement of all qualified agents: every registered agent other
    than the orchestrator whose score exceeds 0.3 takes part in the pipeline
    exactly once, however many there are. *)
Theorem sequential_selection_takes_every_qualified_agent (self : string)
    (registry : list BaseAgent.t) (task : Task) :
  List.NoDup (List.map BaseAgent.id registry) ->
  Permutation (selectAgents self registry task "sequential")
    (List.filter (qualifies self task) registry)
  /\ length (selectAgents self registry task "sequential")
     = length (List.filter (qualifies self task) registry).
Proof.
  intro Hnd.
  assert (Hp : Permutation (selectAgents self registry task "sequential")
                 (List.filter (qualifies self task) registry)).
  { pose proof (qualifiedAgents_perm self registry task) as Hq.
    change (selectAgents self registry task "sequential")
      with (orderByDependencies (qualifiedAgents self registry task) task).
    fold (qualifies self task) in Hq.
    rewrite <- Hq.
    apply (orderByDependencies_perm (List.filter (qualifies self task) registry)).
    - now apply NoDup_map_filter.
    - intros a Ha. now apply (Permutation_in _ Hq).
    - apply (Permutation.Permutation_NoDup (Permutation_sym Hq)).
      apply (List.NoDup_map_inv BaseAgent.id).
      now apply NoDup_map_filter. }
  split; [exact Hp|]. now apply Permutation_length.
Qed.

Lemma sequential_selection_takes_every_qualified_agent_witness :
  length (selectAgents "winston"
            (KenyaClawSwarm.registry
               (KenyaClawSwarm.initialize prompt_sends KenyaClawSwarm.new))
            (sample_task "strategic_planning") "sequential")
  = 4%nat.
Proof.
  destruct (sequential_selection_takes_every_qualified_agent "winston"
              (KenyaClawSwarm.registry
                 (KenyaClawSwarm.initialize prompt_sends KenyaClawSwarm.new))
              (sample_task "strategic_planning")) as [_ H].
  - cbn. repeat constructor; cbn; intuition discriminate.
  - rewrite H. vm_compute. reflexivity.
Defined.

End SequentialSelection.

(** ** SwarmOrchestrator: the routing *)

Section RoutingMore.
Import Routing.

Lemma patterns_name_a_strategy (key : string) (selector : Task -> string) (t : Task) :
  SwarmOrchestrator.patterns !! key = Some selector ->
  In (selector t) registered_names.
Proof.
  unfold SwarmOrchestrator.patterns. intro H.
  apply elem_of_list_to_map_2, list_elem_of_In in H. cbn [In] in H.
  unfold registered_names.
  repeat (destruct H as [H | H];
          [injection H as <- <-; cbn beta;
           repeat match goal with
           | |- context [match ?x with _ => _ end] => destruct x
           end; cbn [In]; tauto|]).
  contradiction.
Qed.

(** What [selectArchitecture] returns for a type that is no inherited
    name is one of the five registered names. *)
Lemma selectArchitecture_names_a_strategy (t : Task) :
  ~ In (task_type t) inherited_names ->
  exists name,
    SwarmOrchestrator.selectArchitecture t
    = Ok (SwarmOrchestrator.selected_name name)
    /\ In name registered_names.
Proof.
  intro H. unfold SwarmOrchestrator.selectArchitecture.
  destruct (SwarmOrchestrator.patterns !! task_type t) as [selector|] eqn:E.
  - eexists. split; [reflexivity|]. eapply patterns_name_a_strategy, E.
  - apply Object_prototype_names in H. rewrite H.
    destruct (SwarmOrchestrator.patterns !! "default") as [selector|] eqn:Ed.
    + eexists. split; [reflexivity|]. eapply patterns_name_a_strategy, Ed.
    + vm_compute in Ed. discriminate.
Qed.

Lemma architectures_registered (name : string) :
  In name registered_names <-> architectures name <> None.
Proof.
  unfold architectures, registered_names. split.
  - cbn. intros [<- | [<- | [<- | [<- | [<- | []]]]]]; discriminate.
  - intro H.
    repeat match type of H with
    | context [String.eqb name ?k] =>
        destruct (String.eqb_spec name k) as [E | ?];
        [rewrite E; cbn [In]; intuition reflexivity|]
    end.
    congruence.
Qed.

(** X28: [routeTask] records exactly the tasks it returns a result for:
    when it returns, the history has grown by one entry, which holds the id
    and the type of the task, the name [selectArchitecture] chose, the ids of
    the agents [selectAgents] chose for it and the status of the result the
    implementation registered under that name returned for these agents;
    when it throws, the history is as before. It throws Unknown architecture
    when nothing is registered under the chosen name, without selecting an
    agent; with the five implementations of the constructor this happens for
    no task whose type is not a name inherited from Object.prototype, and it
    happens for the type toString. *)
Theorem routeTask_records_what_it_returns {Outcome : Type}
    (status_of : Outcome -> option string)
    (implementations :
       string -> option (Task -> list BaseAgent.t -> list Call * result Outcome))
    (self : string) (registry : list BaseAgent.t) (finished : Z) (task : Task)
    (taskHistory : list TaskRecord) :
  (forall result,
     snd (snd (routeTask status_of implementations self registry finished task
                 taskHistory)) = Ok result ->
     exists name execute,
       SwarmOrchestrator.selectArchitecture task
       = Ok (SwarmOrchestrator.selected_name name)
       /\ implementations name = Some execute
       /\ snd (execute task (selectAgents self registry task name)) = Ok result
       /\ fst (routeTask status_of implementations self registry finished task
                 taskHistory)
          = taskHistory
            ++ [{| r_id := task_id task; r_type := task_type task;
                   r_architecture := name;
                   r_agents := List.map BaseAgent.id
                                 (selectAgents self registry task name);
                   r_result := status_of result;
                   r_timestamp := finished |}])
  /\ (forall e,
        snd (snd (routeTask status_of implementations self registry finished task
                    taskHistory)) = Throw e ->
        fst (routeTask status_of implementations self registry finished task
               taskHistory) = taskHistory)
  /\ (forall name,
        SwarmOrchestrator.selectArchitecture task
        = Ok (SwarmOrchestrator.selected_name name) ->
        implementations name = None ->
        routeTask status_of implementations self registry finished task taskHistory
        = (taskHistory,
           ([], Throw (Error ("Unknown architecture: " ++ name)%string))))
  /\ (~ In (task_type task) inherited_names ->
      exists name execute,
        SwarmOrchestrator.selectArchitecture task
        = Ok (SwarmOrchestrator.selected_name name)
        /\ In name registered_names
        /\ architectures name = Some execute
        /\ snd (routeTask Routing.status_of architectures self registry finished
                  task taskHistory)
           = execute task (selectAgents self registry task name))
  /\ (task_type task = "toString" ->
      routeTask Routing.status_of architectures self registry finished task
        taskHistory
      = (taskHistory,
         ([], Throw (Error "Unknown architecture: [object Undefined]")))).
Proof.
  split; [|split; [|split; [|split]]].
  - intros result H. unfold routeTask in *.
    destruct (SwarmOrchestrator.selectArchitecture task) as [[name|o]|e];
      try discriminate.
    destruct (implementations name) as [execute|] eqn:Ei; [|discriminate].
    cbn [architectureName] in *.
    destruct (execute task (selectAgents self registry task name))
      as [calls [r|e]] eqn:Ex; [|discriminate].
    cbn in H. injection H as ->.
    exists name, execute. rewrite Ex. repeat split; first [assumption|reflexivity].
  - intros e H. unfold routeTask in *.
    destruct (SwarmOrchestrator.selectArchitecture task) as [[name|o]|e'];
      try reflexivity.
    destruct (implementations name) as [execute|]; [|reflexivity].
    cbn [architectureName] in *.
    destruct (execute task (selectAgents self registry task name))
      as [calls [r|e'']]; [discriminate|reflexivity].
  - intros name Hs Hi. unfold routeTask. now rewrite Hs, Hi.
  - intro Hn.
    destruct (selectArchitecture_names_a_strategy task Hn) as (name & Hs & Hin).
    destruct (architectures name) as [execute|] eqn:Ei;
      [|now apply architectures_registered in Hin].
    exists name, execute. repeat split; try assumption.
    unfold routeTask. rewrite Hs, Ei. cbn [architectureName].
    destruct (execute task (selectAgents self registry task name))
      as [calls [r|e]]; reflexivity.
  - intro Ht. unfold routeTask, SwarmOrchestrator.selectArchitecture.
    rewrite Ht. reflexivity.
Qed.

Lemma routeTask_records_what_it_returns_witness :
  exists h,
    fst (routeTask Routing.status_of architectures "winston"
           [helpful "adjudicator" "CFO"; helpful "doctor" "COO"] 5000
           (sample_task "strategic_planning") [])
    = [] ++ [h]
    /\ r_agents h = ["adjudicator"; "doctor"]
    /\ r_result h = Some "completed".
Proof.
  destruct (routeTask_records_what_it_returns Routing.status_of architectures
              "winston" [helpful "adjudicator" "CFO"; helpful "doctor" "COO"] 5000
              (sample_task "strategic_planning") [])
    as (H & _).
  destruct (H _ eq_refl) as (name & execute & Hs & Hi & Hx & Hh).
  eexists. split; [exact Hh|].
  vm_compute in Hs. injection Hs as <-.
  split; vm_compute; reflexivity.
Defined.

End RoutingMore.

(** ** KenyaClawSwarm: what a request to the swarm comes to *)

Section SwarmMore.
Import Routing.
Variable sends : nat -> Promise.SendBehaviour.

Lemma make_inherits_query (id codename role : string) (skills : list string) :
  BaseAgent.inherits_query sends (KenyaClawSwarm.make sends id codename role skills).
Proof. intros target q timeout. reflexivity. Qed.

Lemma approval_selection (the_amount : JsNum.t) (the_description id : string) :
  selectAgents "winston"
    (KenyaClawSwarm.registry
       (KenyaClawSwarm.initialize sends KenyaClawSwarm.new))
    {| task_id := Some id; task_type := "financial_approval";
       description := Some the_description; amount := Some the_amount;
       task_sender := None; severity := None;
       requiredSkills := Some ["finance"; "treasury"];
       preferredRole := None; synthesisType := None |} "council"
  = [KenyaClawSwarm.AdjudicatorAgent sends; KenyaClawSwarm.JohnWickAgent sends;
     KenyaClawSwarm.DoctorAgent sends]
  /\ selectAgents "winston"
       (KenyaClawSwarm.registry
          (KenyaClawSwarm.initialize sends KenyaClawSwarm.new))
       {| task_id := Some id; task_type := "financial_approval";
          description := Some the_description; amount := Some the_amount;
          task_sender := None; severity := None;
          requiredSkills := Some ["finance"; "treasury"];
          preferredRole := None; synthesisType := None |} "sequential"
     = [KenyaClawSwarm.AdjudicatorAgent sends; KenyaClawSwarm.JohnWickAgent sends;
        KenyaClawSwarm.DoctorAgent sends; KenyaClawSwarm.CharonAgent sends].
Proof. split; vm_compute; reflexivity. Qed.

(** X29: a spending request to a swarm that has just been initialized is
    never approved, whatever the amount. Above 500 it goes to a council of
    the Adjudicator, John Wick and the Doctor, whose queries all time out:
    the three abstain, the ratio is 0 and the result, status rejected, is
    recorded in the task history. Otherwise it goes down the pipeline, which
    starts with the Adjudicator, whose query times out after 30000 ms: the
    call throws and nothing is recorded. On a swarm that is not initialized
    the call throws at once. *)
Theorem requestSpendingApproval_is_never_approved (id : string) (finished : Z)
    (the_amount : JsNum.t) (the_description : string) :
  (JsNum.gtb the_amount (JsNum.Fin 500) = true ->
   exists r entry,
     snd (KenyaClawSwarm.requestSpendingApproval id finished the_amount
            the_description (KenyaClawSwarm.initialize sends KenyaClawSwarm.new))
     = Ok (council r)
     /\ CouncilArchitecture.status r = "rejected"
     /\ JsNum.same (CouncilArchitecture.consensus r) (JsNum.Fin 0)
     /\ List.map CouncilArchitecture.v_agent (CouncilArchitecture.votes r)
        = ["adjudicator"; "john-wick"; "doctor"]
     /\ Forall (fun v => CouncilArchitecture.v_vote v = "abstain"
                         /\ CouncilArchitecture.v_reasoning v
                            = "Failed to respond in time")
          (CouncilArchitecture.votes r)
     /\ KenyaClawSwarm.taskHistory
          (fst (KenyaClawSwarm.requestSpendingApproval id finished the_amount
                  the_description
                  (KenyaClawSwarm.initialize sends KenyaClawSwarm.new)))
        = [entry]
     /\ r_architecture entry = "council"
     /\ r_agents entry = ["adjudicator"; "john-wick"; "doctor"]
     /\ r_result entry = Some "rejected")
  /\ (JsNum.gtb the_amount (JsNum.Fin 500) = false ->
      KenyaClawSwarm.requestSpendingApproval id finished the_amount
        the_description (KenyaClawSwarm.initialize sends KenyaClawSwarm.new)
      = (KenyaClawSwarm.initialize sends KenyaClawSwarm.new,
         Throw (QueryTimedOut "adjudicator" 30000)))
  /\ snd (KenyaClawSwarm.requestSpendingApproval id finished the_amount
            the_description KenyaClawSwarm.new)
     = Throw (Error "Swarm not initialized. Call initialize() first.").
Proof.
  split; [|split; [|reflexivity]].
  - intro Hgt.
    unfold KenyaClawSwarm.requestSpendingApproval, KenyaClawSwarm.submitTask.
    cbn [KenyaClawSwarm.initialize KenyaClawSwarm.new KenyaClawSwarm.initialized
         negb task_id task_type description amount task_sender severity
         requiredSkills preferredRole synthesisType KenyaClawSwarm.registry
         KenyaClawSwarm.taskHistory].
    unfold routeTask.
    rewrite selectArchitecture_financial_approval by reflexivity.
    unfold amount_exceeds_500. cbn [amount]. rewrite Hgt.
    cbn [architectureName].
    destruct (approval_selection the_amount the_description id) as [Hsel _].
    cbn [KenyaClawSwarm.initialize KenyaClawSwarm.new KenyaClawSwarm.initialized
         KenyaClawSwarm.registry] in Hsel.
    change (architectures "council")
      with (Some (fun t a => returning council (CouncilArchitecture.execute t a))).
    cbv beta iota. rewrite Hsel.
    set (task := {| task_id := Some id |}).
    set (agents := [KenyaClawSwarm.AdjudicatorAgent sends;
                    KenyaClawSwarm.JohnWickAgent sends;
                    KenyaClawSwarm.DoctorAgent sends]).
    destruct (council_of_base_agents sends task agents) as (r & Hr & Hab & Hst).
    { repeat constructor; apply make_inherits_query. }
    destruct (council_result task agents) as (r' & Hr' & Hv & Hc & _).
    rewrite Hr in Hr'. injection Hr' as <-.
    unfold returning. rewrite Hr. cbn [fst snd app].
    eexists r, _. split; [reflexivity|]. split; [exact Hst|].
    assert (H0 : CouncilArchitecture.approvals (CouncilArchitecture.votes r) = 0%nat).
    { clear -Hab. unfold CouncilArchitecture.approvals.
      induction Hab as [|v vs [Hvote _] _ IH]; [reflexivity|].
      cbn. rewrite Hvote. cbn. exact IH. }
    split; [|split; [|split; [exact Hab|]]].
    + rewrite Hc, H0, Hv. vm_compute. reflexivity.
    + rewrite Hv. unfold CouncilArchitecture.gatherVote. cbn [List.map agents].
      repeat match goal with
      | |- context [snd ?x] => destruct (snd x)
      end; reflexivity.
    + cbn [KenyaClawSwarm.taskHistory]. split; [reflexivity|].
      cbn [r_architecture r_agents r_result]. split; [reflexivity|].
      split; [reflexivity|]. unfold Routing.status_of. now rewrite Hst.
  - intro Hle.
    unfold KenyaClawSwarm.requestSpendingApproval, KenyaClawSwarm.submitTask.
    cbn [KenyaClawSwarm.initialize KenyaClawSwarm.new KenyaClawSwarm.initialized
         negb task_id task_type description amount task_sender severity
         requiredSkills preferredRole synthesisType KenyaClawSwarm.registry
         KenyaClawSwarm.taskHistory].
    unfold routeTask.
    rewrite selectArchitecture_financial_approval by reflexivity.
    unfold amount_exceeds_500. cbn [amount]. rewrite Hle.
    cbn [architectureName].
    destruct (approval_selection the_amount the_description id) as [_ Hsel].
    cbn [KenyaClawSwarm.initialize KenyaClawSwarm.new KenyaClawSwarm.initialized
         KenyaClawSwarm.registry] in Hsel.
    change (architectures "sequential")
      with (Some (fun t a => returning sequential (SequentialArchitecture.execute t a))).
    cbv beta iota. rewrite Hsel.
    unfold returning, SequentialArchitecture.execute.
    cbn [SequentialArchitecture.pipeline].
    change (BaseAgent.await_query (KenyaClawSwarm.AdjudicatorAgent sends))
      with (BaseAgent.awaited sends).
    rewrite awaited_times_out. reflexivity.
Qed.

Lemma incident_selection (the_severity the_description id : string) :
  selectAgents "winston"
    (KenyaClawSwarm.registry
       (KenyaClawSwarm.initialize sends KenyaClawSwarm.new))
    {| task_id := Some id; task_type := "system_alert";
       description := Some the_description; amount := None;
       task_sender := None; severity := Some the_severity;
       requiredSkills := Some ["incident_response"; "operations"];
       preferredRole := None; synthesisType := None |} "emergency"
  = [KenyaClawSwarm.DoctorAgent sends]
  /\ selectAgents "winston"
       (KenyaClawSwarm.registry
          (KenyaClawSwarm.initialize sends KenyaClawSwarm.new))
       {| task_id := Some id; task_type := "system_alert";
          description := Some the_description; amount := None;
          task_sender := None; severity := Some the_severity;
          requiredSkills := Some ["incident_response"; "operations"];
          preferredRole := None; synthesisType := None |} "concurrent"
     = [KenyaClawSwarm.DoctorAgent sends; KenyaClawSwarm.JohnWickAgent sends;
        KenyaClawSwarm.AdjudicatorAgent sends]
  /\ selectAgents "winston"
       (KenyaClawSwarm.registry
          (KenyaClawSwarm.initialize sends KenyaClawSwarm.new))
       {| task_id := Some id; task_type := "customer_inquiry";
          description := None; amount := None;
          task_sender := None; severity := None;
          requiredSkills := Some ["customer_service"];
          preferredRole := None; synthesisType := None |} "concurrent"
     = [KenyaClawSwarm.CharonAgent sends; KenyaClawSwarm.JohnWickAgent sends;
        KenyaClawSwarm.AdjudicatorAgent sends].
Proof. repeat split; vm_compute; reflexivity. Qed.

(** X30: an incident report and a customer inquiry to a swarm that has
    just been initialized get no answer from an agent. A critical incident
    goes to the Doctor alone, whose query times out after 5000 ms: the call
    throws and nothing is recorded. Any other incident goes to the Doctor,
    John Wick and the Adjudicator at once, a customer inquiry to Charon,
    John Wick and the Adjudicator: all three queries time out after 30000
    ms, and the result has status partial, no results and the three
    failures. *)
Theorem incident_and_inquiry_get_no_answer (id : string) (finished : Z)
    (the_severity the_description : string) :
  (the_severity = "critical" ->
   KenyaClawSwarm.reportIncident id finished the_severity the_description
     (KenyaClawSwarm.initialize sends KenyaClawSwarm.new)
   = (KenyaClawSwarm.initialize sends KenyaClawSwarm.new,
      Throw (QueryTimedOut "doctor" 5000)))
  /\ (the_severity <> "critical" ->
      exists r,
        snd (KenyaClawSwarm.reportIncident id finished the_severity
               the_description (KenyaClawSwarm.initialize sends KenyaClawSwarm.new))
        = Ok (concurrent r)
        /\ ConcurrentArchitecture.status r = "partial"
        /\ ConcurrentArchitecture.results r = []
        /\ ConcurrentArchitecture.synthesis r = ConcurrentArchitecture.single None
        /\ ConcurrentArchitecture.failures r
           = [QueryTimedOut "doctor" 30000; QueryTimedOut "john-wick" 30000;
              QueryTimedOut "adjudicator" 30000])
  /\ exists r,
       snd (KenyaClawSwarm.customerInquiry id finished
              (KenyaClawSwarm.initialize sends KenyaClawSwarm.new))
       = Ok (concurrent r)
       /\ ConcurrentArchitecture.status r = "partial"
       /\ ConcurrentArchitecture.results r = []
       /\ ConcurrentArchitecture.synthesis r = ConcurrentArchitecture.single None
       /\ ConcurrentArchitecture.failures r
          = [QueryTimedOut "charon" 30000; QueryTimedOut "john-wick" 30000;
             QueryTimedOut "adjudicator" 30000].
Proof.
  destruct (incident_selection the_severity the_description id)
    as (Hem & Hco & Hcu).
  cbn [KenyaClawSwarm.initialize KenyaClawSwarm.new KenyaClawSwarm.initialized
       KenyaClawSwarm.registry] in Hem, Hco, Hcu.
  split; [|split].
  - intros ->.
    unfold KenyaClawSwarm.reportIncident, KenyaClawSwarm.submitTask.
    cbn [KenyaClawSwarm.initialize KenyaClawSwarm.new KenyaClawSwarm.initialized
         negb task_id task_type description amount task_sender severity
         requiredSkills preferredRole synthesisType KenyaClawSwarm.registry
         KenyaClawSwarm.taskHistory].
    unfold routeTask.
    rewrite selectArchitecture_system_alert by reflexivity.
    unfold severity_is_critical. cbn [severity].
    change ("critical" =? "critical") with true. cbv iota.
    cbn [architectureName].
    change (architectures "emergency")
      with (Some (fun t a => returning emergency (EmergencyArchitecture.execute t a))).
    cbv beta iota. rewrite Hem.
    unfold returning, EmergencyArchitecture.execute.
    change (BaseAgent.await_query (KenyaClawSwarm.DoctorAgent sends))
      with (BaseAgent.awaited sends).
    cbn [fst snd]. rewrite awaited_times_out. reflexivity.
  - intro Hne.
    unfold KenyaClawSwarm.reportIncident, KenyaClawSwarm.submitTask.
    cbn [KenyaClawSwarm.initialize KenyaClawSwarm.new KenyaClawSwarm.initialized
         negb task_id task_type description amount task_sender severity
         requiredSkills preferredRole synthesisType KenyaClawSwarm.registry
         KenyaClawSwarm.taskHistory].
    unfold routeTask.
    rewrite selectArchitecture_system_alert by reflexivity.
    unfold severity_is_critical. cbn [severity].
    destruct (String.eqb_spec the_severity "critical") as [E | _]; [contradiction|].
    cbn [architectureName].
    change (architectures "concurrent")
      with (Some (fun t a => returning concurrent (ConcurrentArchitecture.execute t a))).
    cbv beta iota. rewrite Hco.
    unfold returning, ConcurrentArchitecture.execute,
      ConcurrentArchitecture.executeSubtask.
    cbn [List.map].
    change (BaseAgent.await_query (KenyaClawSwarm.DoctorAgent sends))
      with (BaseAgent.awaited sends).
    change (BaseAgent.await_query (KenyaClawSwarm.JohnWickAgent sends))
      with (BaseAgent.awaited sends).
    change (BaseAgent.await_query (KenyaClawSwarm.AdjudicatorAgent sends))
      with (BaseAgent.awaited sends).
    rewrite !awaited_times_out.
    eexists. split; [reflexivity|]. repeat split.
  - unfold KenyaClawSwarm.customerInquiry, KenyaClawSwarm.submitTask.
    cbn [KenyaClawSwarm.initialize KenyaClawSwarm.new KenyaClawSwarm.initialized
         negb task_id task_type description amount task_sender severity
         requiredSkills preferredRole synthesisType KenyaClawSwarm.registry
         KenyaClawSwarm.taskHistory].
    unfold routeTask.
    change (SwarmOrchestrator.selectArchitecture _)
      with (@Ok SwarmOrchestrator.Selected
              (SwarmOrchestrator.selected_name "concurrent")).
    cbn [architectureName].
    change (architectures "concurrent")
      with (Some (fun t a => returning concurrent (ConcurrentArchitecture.execute t a))).
    cbv beta iota. rewrite Hcu.
    unfold returning, ConcurrentArchitecture.execute,
      ConcurrentArchitecture.executeSubtask.
    cbn [List.map].
    change (BaseAgent.await_query (KenyaClawSwarm.CharonAgent sends))
      with (BaseAgent.awaited sends).
    change (BaseAgent.await_query (KenyaClawSwarm.JohnWickAgent sends))
      with (BaseAgent.awaited sends).
    change (BaseAgent.await_query (KenyaClawSwarm.AdjudicatorAgent sends))
      with (BaseAgent.awaited sends).
    rewrite !awaited_times_out.
    eexists. split; [reflexivity|]. repeat split.
Qed.

End SwarmMore.

(** ** C2: a step of the pipeline fails *)

Section SequentialFailure.
Import SequentialArchitecture.

Lemma chain_value_cons (input : PipelineValue) (r : Reply) (outputs : list Reply) :
  chain_value input (r :: outputs) = chain_value (of_reply r) outputs.
Proof. reflexivity. Qed.

(** The loop is left by a rejection exactly when a step is rejected after
    the steps before it have been fulfilled. *)
Lemma pipeline_rejects_iff (agents : list BaseAgent.t) :
  forall (input : PipelineValue) (tr : list Step) (e : JsError),
    snd (pipeline agents input tr) = Throw e <->
    exists pre a post outputs,
      agents = pre ++ a :: post
      /\ fulfilled_chain pre input (length tr + 1) outputs
      /\ snd (BaseAgent.await_query a (BaseAgent.id a)
                (pipeline_step (chain_value input outputs)
                   (length tr + length pre + 1)) 30000) = Throw e.
Proof.
  induction agents as [|x agents IH]; intros input tr e.
  - split; [cbn; discriminate|].
    intros (pre & a & post & outs & E & _). destruct pre; discriminate.
  - cbn [pipeline].
    destruct (snd (BaseAgent.await_query x (BaseAgent.id x)
                     (pipeline_step input (length tr + 1)) 30000))
      as [r0|e0] eqn:Eq.
    + specialize (IH (of_reply r0)
                    (tr ++ [{| s_agent := BaseAgent.id x;
                               s_codename := BaseAgent.codename x;
                               SequentialArchitecture.input := input;
                               output := r0 |}]) e).
      destruct (pipeline agents _ _) as [calls res]. cbn [snd] in *.
      rewrite length_app in IH. cbn [length] in IH.
      split.
      * intro H. apply IH in H.
        destruct H as (pre & a & post & outs & -> & Hc & Hf).
        exists (x :: pre), a, post, (r0 :: outs).
        split; [reflexivity|]. split.
        -- cbn [fulfilled_chain]. split; [exact Eq|].
           replace (S (length tr + 1)) with (length tr + 1 + 1)%nat by lia.
           exact Hc.
        -- rewrite chain_value_cons. cbn [length].
           replace (length tr + S (length pre) + 1)%nat
             with (length tr + 1 + length pre + 1)%nat by lia.
           exact Hf.
      * intros (pre & a & post & outs & E & Hc & Hf).
        destruct pre as [|p pre]; cbn [app] in E; injection E as <- E'; subst agents.
        -- destruct outs; [|contradiction].
           cbn [chain_value fold_left length] in Hf.
           rewrite Nat.add_0_r in Hf. congruence.
        -- destruct outs as [|o outs]; [contradiction|].
           cbn [fulfilled_chain] in Hc. destruct Hc as [Ho Hc].
           assert (o = r0) by congruence. subst o.
           apply IH. exists pre, a, post, outs.
           split; [reflexivity|]. split.
           ++ replace (length tr + 1 + 1)%nat with (S (length tr + 1)) by lia.
              exact Hc.
           ++ rewrite chain_value_cons in Hf. cbn [length] in Hf.
              replace (length tr + 1 + length pre + 1)%nat
                with (length tr + S (length pre) + 1)%nat by lia.
              exact Hf.
    + cbn [snd]. split.
      * intro H. injection H as ->. exists [], x, agents, [].
        split; [reflexivity|]. split; [exact I|].
        cbn [chain_value fold_left length]. rewrite Nat.add_0_r. exact Eq.
      * intros (pre & a & post & outs & E & Hc & Hf).
        destruct pre as [|p pre]; cbn [app] in E; injection E as <- E'; subst agents.
        -- destruct outs; [|contradiction].
           cbn [chain_value fold_left length] in Hf.
           rewrite Nat.add_0_r in Hf. congruence.
        -- destruct outs as [|o outs]; [contradiction|].
           cbn [fulfilled_chain] in Hc. destruct Hc as [Ho _]. congruence.
Qed.

(** The agents queried when a step is rejected: those up to the step. *)
Lemma pipeline_calls_when_rejected (pre : list BaseAgent.t) (a : BaseAgent.t)
    (post : list BaseAgent.t) :
  forall (input : PipelineValue) (tr : list Step) (outputs : list Reply)
         (e : JsError),
    fulfilled_chain pre input (length tr + 1) outputs ->
    snd (BaseAgent.await_query a (BaseAgent.id a)
           (pipeline_step (chain_value input outputs)
              (length tr + length pre + 1)) 30000) = Throw e ->
    List.map callee (fst (pipeline (pre ++ a :: post) input tr))
    = List.map BaseAgent.id (pre ++ [a]).
Proof.
  induction pre as [|p pre IH]; intros input tr outputs e Hc Hf.
  - destruct outputs; [|contradiction].
    cbn [chain_value fold_left length] in Hf. rewrite Nat.add_0_r in Hf.
    cbn [app pipeline]. rewrite Hf. reflexivity.
  - destruct outputs as [|o outs]; [contradiction|].
    cbn [fulfilled_chain] in Hc. destruct Hc as [Ho Hc].
    cbn [app pipeline]. rewrite Ho.
    specialize (IH (of_reply o)
                  (tr ++ [{| s_agent := BaseAgent.id p;
                             s_codename := BaseAgent.codename p;
                             SequentialArchitecture.input := input;
                             output := o |}]) outs e).
    rewrite length_app in IH. cbn [length] in IH.
    destruct (pipeline (pre ++ a :: post) _ _) as [calls res]. cbn [fst] in *.
    cbn [List.map]. f_equal. apply IH.
    + replace (length tr + 1 + 1)%nat with (S (length tr + 1)) by lia. exact Hc.
    + rewrite chain_value_cons in Hf. cbn [length] in Hf.
      replace (length tr + 1 + length pre + 1)%nat
        with (length tr + S (length pre) + 1)%nat by lia.
      exact Hf.
Qed.

(** C2, as amended: [execute] is rejected with [e] exactly when the query
    of some step is rejected with [e] after the steps before it have been
    fulfilled. Then no result, and so no partial trace, is returned, the
    agents up to that step have been queried and the agents after it have
    not. In particular a pipeline whose first agent keeps the query of
    BaseAgent, as every agent of the repository does, is rejected with the
    timeout of that agent, the only agent queried. *)
Theorem sequential_failure_aborts_and_propagates (task : Task)
    (agents : list BaseAgent.t) (e : JsError) :
  (snd (execute task agents) = Throw e <->
   exists pre a post outputs,
     agents = pre ++ a :: post
     /\ fulfilled_chain pre (of_task task) 1 outputs
     /\ snd (BaseAgent.await_query a (BaseAgent.id a)
               (pipeline_step (chain_value (of_task task) outputs)
                  (length pre + 1)) 30000) = Throw e)
  /\ (forall pre a post outputs,
        agents = pre ++ a :: post ->
        fulfilled_chain pre (of_task task) 1 outputs ->
        snd (BaseAgent.await_query a (BaseAgent.id a)
               (pipeline_step (chain_value (of_task task) outputs)
                  (length pre + 1)) 30000) = Throw e ->
        snd (execute task agents) = Throw e
        /\ (forall r, snd (execute task agents) <> Ok r)
        /\ List.map callee (fst (execute task agents))
           = List.map BaseAgent.id (pre ++ [a])
        /\ length (fst (execute task agents)) = S (length pre))
  /\ (forall sends a post,
        agents = a :: post -> BaseAgent.inherits_query sends a ->
        snd (execute task agents) = Throw (QueryTimedOut (BaseAgent.id a) 30000)
        /\ (forall r, snd (execute task agents) <> Ok r)
        /\ List.map callee (fst (execute task agents)) = [BaseAgent.id a]).
Proof.
  unfold execute.
  pose proof (pipeline_rejects_iff agents (of_task task) [] e) as Hiff.
  cbn [length Nat.add] in Hiff.
  split; [exact Hiff|]. split.
  - intros pre a post outputs E Hc Hf.
    assert (Hs : snd (pipeline agents (of_task task) []) = Throw e).
    { apply Hiff. exists pre, a, post, outputs. auto. }
    split; [exact Hs|]. split; [intros r Hr; rewrite Hs in Hr; discriminate|].
    assert (Hcalls : List.map callee (fst (pipeline agents (of_task task) []))
                     = List.map BaseAgent.id (pre ++ [a])).
    { rewrite E. eapply (pipeline_calls_when_rejected pre a post _ [] outputs e).
      - exact Hc.
      - exact Hf. }
    split; [exact Hcalls|].
    rewrite <- (length_map callee), Hcalls, length_map, length_app. cbn. lia.
  - intros sends a post -> Hq.
    assert (Hp : pipeline (a :: post) (of_task task) []
                 = ([call_query a (pipeline_step (of_task task) 1) 30000],
                    Throw (QueryTimedOut (BaseAgent.id a) 30000))).
    { cbn [pipeline]. rewrite Hq, awaited_times_out. reflexivity. }
    rewrite Hp. cbn [snd fst List.map call_query callee].
    split; [reflexivity|]. split; [discriminate|reflexivity].
Qed.

Lemma sequential_failure_aborts_and_propagates_witness :
  snd (execute (sample_task "strategic_planning")
         [KenyaClawSwarm.AdjudicatorAgent prompt_sends;
          KenyaClawSwarm.JohnWickAgent prompt_sends;
          KenyaClawSwarm.DoctorAgent prompt_sends;
          KenyaClawSwarm.CharonAgent prompt_sends])
  = Throw (QueryTimedOut "adjudicator" 30000)
  /\ List.map callee
       (fst (execute (sample_task "strategic_planning")
               [KenyaClawSwarm.AdjudicatorAgent prompt_sends;
                KenyaClawSwarm.JohnWickAgent prompt_sends;
                KenyaClawSwarm.DoctorAgent prompt_sends;
                KenyaClawSwarm.CharonAgent prompt_sends]))
     = ["adjudicator"]
  /\ snd (execute (sample_task "strategic_planning")
            [helpful "adjudicator" "CFO"; plain_agent "john-wick" "CTO";
             helpful "doctor" "COO"])
     = Throw (QueryTimedOut "john-wick" 30000)
  /\ List.map callee
       (fst (execute (sample_task "strategic_planning")
               [helpful "adjudicator" "CFO"; plain_agent "john-wick" "CTO";
                helpful "doctor" "COO"]))
     = ["adjudicator"; "john-wick"].
Proof.
  destruct (sequential_failure_aborts_and_propagates
              (sample_task "strategic_planning")
              [KenyaClawSwarm.AdjudicatorAgent prompt_sends;
               KenyaClawSwarm.JohnWickAgent prompt_sends;
               KenyaClawSwarm.DoctorAgent prompt_sends;
               KenyaClawSwarm.CharonAgent prompt_sends]
              (QueryTimedOut "adjudicator" 30000)) as (_ & _ & H).
  destruct (H prompt_sends _ _ eq_refl) as (H1 & _ & H2).
  { intros target q timeout. reflexivity. }
  destruct (sequential_failure_aborts_and_propagates
              (sample_task "strategic_planning")
              [helpful "adjudicator" "CFO"; plain_agent "john-wick" "CTO";
               helpful "doctor" "COO"]
              (QueryTimedOut "john-wick" 30000)) as (_ & H' & _).
  destruct (H' [helpful "adjudicator" "CFO"] (plain_agent "john-wick" "CTO")
              [helpful "doctor" "COO"]
              [{| vote := None; reasoning := None;
                  quality := Some (JsNum.Fin 0.9);
                  confidence := Some (JsNum.Fin 0.7);
                  data := Some (JStr "done"); agent := Some "adjudicator" |}]
              eq_refl) as (H3 & _ & H4 & _).
  { cbn. split; [reflexivity|exact I]. }
  { reflexivity. }
  repeat split; assumption.
Defined.

End SequentialFailure.

(** ** C1: the councils the orchestrator forms *)

Section CouncilFormed.
Import CouncilArchitecture.



(** The same on doubles, for every count of approvals a council of at most
    three votes can have: the test against 0.66 and the test against 2 / 3
    decide alike; without a vote the ratio is NaN and both fail. *)
Example council_of_three_on_doubles :
  List.map (fun p => approved_double (fst p) (snd p))
    [(0, 0); (0, 1); (1, 1); (0, 2); (1, 2); (2, 2);
     (0, 3); (1, 3); (2, 3); (3, 3)]%float
  = List.map (fun p => PrimFloat.leb (PrimFloat.div 2 3)
                         (PrimFloat.div (fst p) (snd p)))
      [(0, 0); (0, 1); (1, 1); (0, 2); (1, 2); (2, 2);
       (0, 3); (1, 3); (2, 3); (3, 3)]%float.
Proof. vm_compute. reflexivity. Qed.

End CouncilFormed.
